(** * Countdown-timer engine: status, targeting, selection, session clock,
      render loop and impression tracking

    A shallow embedding of the timer engine of the Shopify countdown-timer
    application, and the properties of its specification settled against it.

    Source files embedded here:
    - [countdown-timer/app/models/Timer.js]      (schema, [status] virtual,
      [findActiveForProduct], [appliesToProduct])
    - [countdown-timer/app/routes/storefront.js] (GET /timer,
      POST /timer/:id/impression)
    - [extensions/theme-app-extension/assets/timer-widget.js]
      ([parseTimeRemaining], [setupTimerEndpoint], the countdown loop)
    - the shared timer utilities ([calculateTimeRemaining],
      [parseTimeRemaining], [calculateTimerStatus], [matchesTargeting])
    - [__tests__/timer.test.js] ([determineStatus], [matchesProduct]).

    Conventions.  Instants are milliseconds since the epoch, in [Z].  A
    JavaScript number that may be [NaN] is an [option Z] with [None] for
    [NaN]; every relational comparison with [NaN] is [false].  The wall clock
    ([new Date()], [Date.now()]) is passed explicitly. *)

From stdpp Require Import gmap strings list sorting.
From Stdlib Require Import ZArith Lia Ascii.

Local Open Scope Z_scope.

#[local] Set Warnings "-register-all".

(** * Part I: the program *)

(** ** JavaScript values used by the engine *)

Module Js.

(** A number that may be [NaN]. *)
Definition number := option Z.

(** [a < b] on numbers: [false] as soon as one side is [NaN]. *)
Definition lt (a b : number) : bool :=
  match a, b with
  | Some x, Some y => x <? y
  | _, _ => false
  end.

(** [a > b]. *)
Definition gt (a b : number) : bool := lt b a.

(** [a <= b]. *)
Definition le (a b : number) : bool :=
  match a, b with
  | Some x, Some y => x <=? y
  | _, _ => false
  end.

(** [a >= b]. *)
Definition ge (a b : number) : bool := le b a.

(** [a - b], [a + b]: [NaN] is contagious. *)
Definition sub (a b : number) : number :=
  match a, b with
  | Some x, Some y => Some (x - y)
  | _, _ => None
  end.

Definition add (a b : number) : number :=
  match a, b with
  | Some x, Some y => Some (x + y)
  | _, _ => None
  end.

Definition mul (a b : number) : number :=
  match a, b with
  | Some x, Some y => Some (x * y)
  | _, _ => None
  end.

(** Truthiness of a string that may be [undefined]/[null]: the empty
    string is falsy. *)
Definition truthy (s : option string) : bool :=
  match s with
  | Some s => negb (String.eqb s "")
  | None => false
  end.

(** [s || d] on an optional string. *)
Definition or_default (s : option string) (d : string) : string :=
  match s with
  | Some v => if String.eqb v "" then d else v
  | None => d
  end.

(** [String.prototype.startsWith]. *)
Fixpoint startsWith (s p : string) : bool :=
  match p, s with
  | EmptyString, _ => true
  | String _ _, EmptyString => false
  | String b p', String a s' => Ascii.eqb a b && startsWith s' p'
  end.

(** [String.prototype.includes]: [p] occurs in [s] as a substring. *)
Fixpoint includes (s p : string) : bool :=
  startsWith s p ||
  match s with
  | EmptyString => false
  | String _ s' => includes s' p
  end.

(** [Array.prototype.includes] on an array of strings (strict equality). *)
Definition arrayIncludes (l : list string) (x : string) : bool :=
  existsb (String.eqb x) l.

End Js.

(** ** Timer records and status (models/Timer.js, shared utilities) *)

Module TimerModel.

(** [type]: the schema's enum. *)
Inductive Kind := Fixed | Evergreen.

(** A date field as a record may carry it.  [Missing] is an absent
    ([undefined]) field, [Unparseable] a value that [new Date(_)] turns
    into an Invalid Date, [Instant ms] a proper date. *)
Inductive DateField :=
| Missing
| Unparseable
| Instant (ms : Z).

(** [new Date(field).getTime()], and the number a date field converts to
    in a relational comparison. *)
Definition timeValue (d : DateField) : Js.number :=
  match d with
  | Instant ms => Some ms
  | Missing | Unparseable => None
  end.

(** [!field] on a raw date field: only the absent field is falsy (a
    string such as ['not-a-date'] and a Date object are truthy). *)
Definition falsyDate (d : DateField) : bool :=
  match d with
  | Missing => true
  | _ => false
  end.

Record Targeting := {
  scope : option string;
  productIds : option (list string);
  collectionIds : option (list string)
}.

Record Appearance := {
  backgroundColor : option string;
  textColor : option string;
  position : option string;
  headline : option string;
  supportingText : option string
}.

(** One timer document.  [createdAt] and [updatedAt] come from the
    schema's [timestamps] option: the first is set when the document is
    created, the second at every write. *)
Record Timer := {
  _id : string;
  shop : string;
  name : string;
  type : Kind;
  startDate : DateField;
  endDate : DateField;
  durationMinutes : option Z;
  targeting : option Targeting;
  appearance : option Appearance;
  impressions : Z;
  isActive : bool;
  isAiGenerated : bool;
  createdAt : Z;
  updatedAt : Z
}.

Inductive Status :=
| Inactive
| Scheduled
| Active
| Expired
| Invalid
| Unknown.

#[global] Instance Status_eq_dec : EqDecision Status.
Proof. solve_decision. Defined.

#[global] Instance Kind_eq_dec : EqDecision Kind.
Proof. solve_decision. Defined.


(** [timerSchema.virtual('status')] of models/Timer.js, with the clock
    reading [now] of its [new Date()]. *)
Definition status (this : Timer) (now : Z) : Status :=
  if negb (isActive this) then Inactive
  else match type this with
       | Evergreen => Active
       | Fixed =>
           if Js.gt (timeValue (startDate this)) (Some now) then Scheduled
           else if Js.lt (timeValue (endDate this)) (Some now) then Expired
           else Active
       end.

(** [calculateTimerStatus] of the shared utilities; [None] is a
    [null]/[undefined] timer. *)
Definition calculateTimerStatus (timer : option Timer) (now : Z) : Status :=
  match timer with
  | None => Unknown
  | Some timer =>
      if negb (isActive timer) then Inactive
      else match type timer with
           | Evergreen => Active
           | Fixed =>
               let start := timeValue (startDate timer) in
               let end_ := timeValue (endDate timer) in
               if Js.lt (Some now) start then Scheduled
               else if Js.gt (Some now) end_ then Expired
               else Active
           end
  end.

(** [determineStatus] of __tests__/timer.test.js ("Timer Status
    Determination"): the status function the test-suite exercises. *)
Definition determineStatus (timer : option Timer) (now : Z) : Status :=
  match timer with
  | None => Unknown
  | Some timer =>
      if negb (isActive timer) then Inactive
      else match type timer with
           | Evergreen =>
               match durationMinutes timer with
               | Some d => if 0 <? d then Active else Invalid
               | None => Invalid
               end
           | Fixed =>
               if falsyDate (startDate timer) || falsyDate (endDate timer)
               then Invalid
               else
                 match timeValue (startDate timer), timeValue (endDate timer) with
                 | Some start, Some end_ =>
                     if end_ <=? start then Invalid
                     else if now <? start then Scheduled
                     else if end_ <? now then Expired
                     else Active
                 | _, _ => Invalid
                 end
           end
  end.

(** Position of a status on the timeline of a fixed timer. *)
Definition phase (s : Status) : option nat :=
  match s with
  | Scheduled => Some 0%nat
  | Active => Some 1%nat
  | Expired => Some 2%nat
  | _ => None
  end.

(** The statuses a fixed, enabled timer may be in. *)
Definition fixedStatuses : list Status := [Scheduled; Active; Expired; Invalid].

(** A fixed, enabled timer whose window is the pair [(s, e)]. *)
Definition fixedTimer (s e : DateField) : Timer :=
  {| _id := "t1"; shop := "demo.myshopify.com"; name := "Sale";
     type := Fixed; startDate := s; endDate := e;
     durationMinutes := None; targeting := None; appearance := None;
     impressions := 0; isActive := true; isAiGenerated := false;
     createdAt := 0;
     updatedAt := 0 |}.

End TimerModel.

(** ** Targeting matchers *)

Module Targeting.
Import TimerModel.

(** [timer.targeting?.scope || 'all']. *)
Definition scopeOf (timer : Timer) : string :=
  Js.or_default (targeting timer ≫= scope) "all".

(** [timer.targeting.productIds?.some(f)] and the like: an absent array
    yields [undefined], which every caller treats as [false]. *)
Definition optSome (f : string -> bool) (ids : option (list string)) : bool :=
  match ids with
  | Some l => existsb f l
  | None => false
  end.

(** The comparison of two ids written in the utilities and in the
    storefront route:
    [a === b || a.includes(b) || b.includes(a)]. *)
Definition looseEq (a b : string) : bool :=
  String.eqb a b || Js.includes a b || Js.includes b a.

(** [matchesTargeting] of the shared utilities. *)
Definition matchesTargeting (timer : Timer) (productId : option string)
    (collectionIds : list string) : bool :=
  let scope := scopeOf timer in
  if String.eqb scope "all" then true
  else if String.eqb scope "products" && Js.truthy productId then
    optSome (fun id => looseEq id (default "" productId))
      (targeting timer ≫= productIds)
  else if String.eqb scope "collections" && (0 <? Z.of_nat (length collectionIds)) then
    optSome (fun id => existsb (fun cid => looseEq cid id) collectionIds)
      (targeting timer ≫= TimerModel.collectionIds)
  else false.

(** The targeting filter written inline in GET /timer of
    routes/storefront.js. *)
Definition routeFilter (productId : option string)
    (collectionIdArray : list string) (timer : Timer) : bool :=
  let scope := scopeOf timer in
  if String.eqb scope "all" then true
  else if String.eqb scope "products" && Js.truthy productId then
    optSome (fun id =>
               String.eqb id (default "" productId)
               || Js.includes id (default "" productId)
               || Js.includes (default "" productId) id)
      (targeting timer ≫= productIds)
  else if String.eqb scope "collections"
          && (0 <? Z.of_nat (length collectionIdArray)) then
    optSome (fun id =>
               existsb (fun cid =>
                          String.eqb cid id || Js.includes cid id
                          || Js.includes id cid)
                 collectionIdArray)
      (targeting timer ≫= TimerModel.collectionIds)
  else false.

(** The targeting filter of [findActiveForProduct] in models/Timer.js:
    [Array.prototype.includes], that is strict equality of ids. *)
Definition modelFilter (productId : option string)
    (collectionIds : list string) (timer : Timer) : bool :=
  let scope := scopeOf timer in
  if String.eqb scope "all" then true
  else if String.eqb scope "products" && Js.truthy productId then
    match targeting timer ≫= productIds with
    | Some l => Js.arrayIncludes l (default "" productId)
    | None => false
    end
  else if String.eqb scope "collections" && (0 <? Z.of_nat (length collectionIds)) then
    optSome (fun id => Js.arrayIncludes collectionIds id)
      (targeting timer ≫= TimerModel.collectionIds)
  else false.

(** [appliesToProduct] of models/Timer.js, which is also [matchesProduct]
    of the test-suite. *)
Definition appliesToProduct (this : Timer) (productId : option string)
    (collectionIds : list string) : bool :=
  let scope := scopeOf this in
  if String.eqb scope "all" then true
  else if String.eqb scope "products" then
    match targeting this ≫= productIds, productId with
    | Some l, Some p => Js.arrayIncludes l p
    | _, _ => false
    end
  else if String.eqb scope "collections" then
    optSome (fun id => Js.arrayIncludes collectionIds id)
      (targeting this ≫= TimerModel.collectionIds)
  else false.

(** A timer targeted at the given products. *)
Definition productTimer (ids : list string) : Timer :=
  {| _id := "t1"; shop := "demo.myshopify.com"; name := "Sale";
     type := Evergreen; startDate := Missing; endDate := Missing;
     durationMinutes := Some 60;
     targeting := Some {| scope := Some "products"; productIds := Some ids;
                          collectionIds := None |};
     appearance := None;
     impressions := 0; isActive := true; isAiGenerated := false;
     createdAt := 0;
     updatedAt := 0 |}.

(** A timer targeted at the given collections. *)
Definition collectionTimer (ids : list string) : Timer :=
  {| _id := "t2"; shop := "demo.myshopify.com"; name := "Sale";
     type := Evergreen; startDate := Missing; endDate := Missing;
     durationMinutes := Some 60;
     targeting := Some {| scope := Some "collections"; productIds := None;
                          collectionIds := Some ids |};
     appearance := None;
     impressions := 0; isActive := true; isAiGenerated := false;
     createdAt := 0;
     updatedAt := 0 |}.

End Targeting.

(** ** String methods used by the storefront routes *)

Module JsString.

(** [toLowerCase], on the ASCII letters. *)
Definition lowerChar (c : ascii) : ascii :=
  let n := nat_of_ascii c in
  if (65 <=? n)%nat && (n <=? 90)%nat then ascii_of_nat (n + 32) else c.

Fixpoint toLowerCase (s : string) : string :=
  match s with
  | EmptyString => EmptyString
  | String c s' => String (lowerChar c) (toLowerCase s')
  end.

Fixpoint trimStart (s : string) : string :=
  match s with
  | EmptyString => EmptyString
  | String c s' => if Ascii.is_space c then trimStart s' else s
  end.

Definition trimEnd (s : string) : string :=
  String.rev (trimStart (String.rev s)).

(** [trim], on the ASCII white space. *)
Definition trim (s : string) : string := trimEnd (trimStart s).

(** [s.split(sep)] for a one-character separator; [cur] is the current
    piece, reversed. *)
Fixpoint split_go (sep : ascii) (cur : string) (s : string) : list string :=
  match s with
  | EmptyString => [String.rev cur]
  | String a s' =>
      if Ascii.eqb a sep then String.rev cur :: split_go sep EmptyString s'
      else split_go sep (String a cur) s'
  end.

Definition split (sep : ascii) (s : string) : list string :=
  split_go sep EmptyString s.

(** [Boolean(s)] on a string. *)
Definition nonEmpty (s : string) : bool := negb (String.eqb s "").

End JsString.

(** ** The storefront routes (routes/storefront.js) *)

Module Storefront.
Import TimerModel Targeting.

(** The values that occur in the JSON bodies of the routes. *)
Inductive JsValue :=
| VUndefined
| VBool (b : bool)
| VNumber (z : Z)
| VString (s : string)
| VDate (t : Js.number)
| VObject (props : list (string * JsValue))
| VNull.

Record Response := {
  statusCode : Z;
  cacheControl : option string;
  body : JsValue
}.

(** [req.query] of GET /timer. *)
Record TimerQuery := {
  q_shop : option string;
  q_productId : option string;
  q_collectionIds : option string
}.

(** [shop.toLowerCase().trim()]. *)
Definition normalizeShop (shop : string) : string :=
  JsString.trim (JsString.toLowerCase shop).

(** [collectionIds ? collectionIds.split(',').map(id => id.trim())
     .filter(Boolean) : []]. *)
Definition collectionIdArray (collectionIds : option string) : list string :=
  if Js.truthy collectionIds then
    List.filter JsString.nonEmpty
      (map JsString.trim (JsString.split "," (default "" collectionIds)))
  else [].

(** The query document of GET /timer, as a predicate on documents:
    [{ shop, isActive: true, $or: [{type: 'evergreen'},
       {type: 'fixed', startDate: {$lte: now}, endDate: {$gte: now}}] }].
    A date comparison only matches a document that holds a date. *)
Definition activeQuery (normalizedShop : string) (now : Z) (t : Timer) : bool :=
  String.eqb (shop t) normalizedShop
  && isActive t
  && match type t with
     | Evergreen => true
     | Fixed =>
         Js.le (timeValue (startDate t)) (Some now)
         && Js.ge (timeValue (endDate t)) (Some now)
     end.

(** [.sort({ createdAt: -1 })]: newest first. *)
Fixpoint insertNewest (t : Timer) (l : list Timer) : list Timer :=
  match l with
  | [] => [t]
  | u :: l' =>
      if createdAt u <=? createdAt t then t :: l
      else u :: insertNewest t l'
  end.

Definition sortNewestFirst (l : list Timer) : list Timer :=
  foldr insertNewest [] l.

(** [Timer.find(query).sort({ createdAt: -1 }).lean()] over the
    collection [db]. *)
Definition findSorted (query : Timer -> bool) (db : list Timer) : list Timer :=
  sortNewestFirst (List.filter query db).

(** The selection of GET /timer: [matchingTimers[0]]. *)
Definition selectTimer (normalizedShop : string) (now : Z)
    (productId : option string) (collectionIds : list string)
    (db : list Timer) : option Timer :=
  let timers := findSorted (activeQuery normalizedShop now) db in
  let matchingTimers := List.filter (routeFilter productId collectionIds) timers in
  head matchingTimers.

(** [findActiveForProduct] of models/Timer.js: every matching timer,
    newest first. *)
Definition findActiveForProduct (shop : string) (now : Z)
    (productId : option string) (collectionIds : list string)
    (db : list Timer) : list Timer :=
  let timers := findSorted (activeQuery shop now) db in
  List.filter (modelFilter productId collectionIds) timers.

Definition typeName (k : Kind) : string :=
  match k with
  | Fixed => "fixed"
  | Evergreen => "evergreen"
  end.

Definition dateValue (d : DateField) : JsValue :=
  match d with
  | Missing => VUndefined
  | Unparseable => VDate None
  | Instant ms => VDate (Some ms)
  end.

Definition numberValue (n : option Z) : JsValue :=
  match n with
  | Some z => VNumber z
  | None => VUndefined
  end.

(** The [response] object of GET /timer: the object literal, then the
    type-specific assignments. *)
Definition buildResponse (timer : Timer) : JsValue :=
  let response :=
    [ ("id", VString (_id timer));
      ("type", VString (typeName (type timer)));
      ("appearance",
        VObject
          [ ("backgroundColor",
              VString (Js.or_default (appearance timer ≫= backgroundColor) "#000000"));
            ("textColor",
              VString (Js.or_default (appearance timer ≫= textColor) "#FFFFFF"));
            ("position",
              VString (Js.or_default (appearance timer ≫= position) "above-cart"));
            ("headline",
              VString (Js.or_default (appearance timer ≫= headline) ""));
            ("supportingText",
              VString (Js.or_default (appearance timer ≫= supportingText) "")) ]) ]
  in
  match type timer with
  | Fixed =>
      VObject (response ++ [ ("endDate", dateValue (endDate timer));
                             ("startDate", dateValue (startDate timer)) ])
  | Evergreen =>
      VObject (response ++ [ ("durationMinutes", numberValue (durationMinutes timer)) ])
  end.

Definition failure (error : string) : JsValue :=
  VObject [ ("success", VBool false); ("error", VString error) ].

(** GET /api/storefront/timer at clock reading [now] over the
    collection [db]. *)
Definition getTimer (q : TimerQuery) (now : Z) (db : list Timer) : Response :=
  if negb (Js.truthy (q_shop q)) then
    {| statusCode := 400; cacheControl := None;
       body := failure "Shop parameter is required" |}
  else
    let normalizedShop := normalizeShop (default "" (q_shop q)) in
    let collectionIdArray := collectionIdArray (q_collectionIds q) in
    match selectTimer normalizedShop now (q_productId q) collectionIdArray db with
    | None =>
        {| statusCode := 404; cacheControl := Some "public, max-age=60";
           body := failure "No active timer found" |}
    | Some timer =>
        {| statusCode := 200; cacheControl := Some "public, max-age=60";
           body := VObject [ ("success", VBool true);
                             ("data", buildResponse timer) ] |}
    end.

(** [{ $inc: { impressions: 1 } }] at clock reading [now]: on a schema
    with [timestamps], [findOneAndUpdate] sets [updatedAt] as well. *)
Definition incImpressions (now : Z) (t : Timer) : Timer :=
  {| _id := _id t; shop := shop t; name := name t; type := type t;
     startDate := startDate t; endDate := endDate t;
     durationMinutes := durationMinutes t; targeting := targeting t;
     appearance := appearance t;
     impressions := impressions t + 1;
     isActive := isActive t; isAiGenerated := isAiGenerated t;
     createdAt := createdAt t; updatedAt := now |}.

(** [Timer.findOneAndUpdate(filter, update, { new: false })]: the first
    document that passes the filter is updated in place; the result is
    that document as it was, and the collection afterwards. *)
Fixpoint findOneAndUpdate (filter : Timer -> bool) (update : Timer -> Timer)
    (db : list Timer) : option Timer * list Timer :=
  match db with
  | [] => (None, [])
  | t :: rest =>
      if filter t then (Some t, update t :: rest)
      else
        let '(found, rest') := findOneAndUpdate filter update rest in
        (found, t :: rest')
  end.

(** [Boolean(v)] on a value of a JSON body. *)
Definition truthyValue (v : JsValue) : bool :=
  match v with
  | VUndefined => false
  | VBool b => b
  | VNumber z => negb (z =? 0)
  | VString s => JsString.nonEmpty s
  | VDate _ => true
  | VObject _ => true
  | VNull => false
  end.

(** What [shop ? { shop: shop.toLowerCase().trim() } : {}] makes of
    [req.body.shop]: no shop condition for a falsy value, the shop of a
    string, and [None] when the evaluation throws, a truthy value that
    is not a string having no [toLowerCase]. *)
Definition shopScope (shop : JsValue) : option (option string) :=
  if truthyValue shop then
    match shop with
    | VString s => Some (Some s)
    | _ => None
    end
  else Some None.

(** The filter document of POST /timer/:id/impression:
    [{ _id: id, ...(shop ? { shop: shop.toLowerCase().trim() } : {}) }].
    The query compares [_id] as an ObjectId: [castId id] is the stored
    form of the ObjectId that the string [id] is cast to. *)
Definition impressionFilter (castId : string -> string) (id : string)
    (shop : option string) (t : Timer) : bool :=
  String.eqb (_id t) (castId id)
  && (if Js.truthy shop
      then String.eqb (TimerModel.shop t) (normalizeShop (default "" shop))
      else true).

(** The answer [{ success: true, message: 'Impression recorded' }]. *)
Definition recorded : Response :=
  {| statusCode := 200; cacheControl := None;
     body := VObject [ ("success", VBool true);
                       ("message", VString "Impression recorded") ] |}.

(** POST /api/storefront/timer/:id/impression at clock reading [now],
    with [shop] the [shop] of the JSON body.  [isValid] is
    [mongoose.Types.ObjectId.isValid] and [castId] the cast of a valid id
    to the stored form of its ObjectId; [available] says that the
    database call resolves.  Whatever is thrown after the check of the
    id, by the filter expression or by the database call, is caught and
    answered like a recorded impression. *)
Definition postImpression (isValid : string -> bool)
    (castId : string -> string) (available : bool) (now : Z) (id : string)
    (shop : JsValue) (db : list Timer) : Response * list Timer :=
  if negb (isValid id) then
    ({| statusCode := 400; cacheControl := None;
        body := failure "Invalid timer ID" |}, db)
  else
    match shopScope shop with
    | None => (recorded, db)
    | Some scope =>
        if negb available then (recorded, db)
        else
          match findOneAndUpdate (impressionFilter castId id scope)
                  (incImpressions now) db with
          | (None, db') =>
              ({| statusCode := 404; cacheControl := None;
                  body := failure "Timer not found" |}, db')
          | (Some _, db') => (recorded, db')
          end
    end.

(** A 24-digit hexadecimal string, the textual form of an ObjectId. *)
Definition isHexDigit (c : ascii) : bool :=
  let n := nat_of_ascii c in
  ((48 <=? n) && (n <=? 57) || (65 <=? n) && (n <=? 70)
   || (97 <=? n) && (n <=? 102))%nat.

Definition hex24 (s : string) : bool :=
  (String.length s =? 24)%nat && forallb isHexDigit (String.list_ascii_of_string s).

(** The stored form of the ObjectId that a 24-digit hexadecimal string is
    cast to: its digits in lower case. *)
Definition hexObjectId (id : string) : string := JsString.toLowerCase id.

(** *** Selection, ownership and sample records *)

(** [newer a b]: [a] was created no earlier than [b]. *)
Definition newer (a b : Timer) : Prop := createdAt b <= createdAt a.

(** A timer is time-eligible at [now]. *)
Definition timeEligible (now : Z) (t : Timer) : Prop :=
  type t = Evergreen
  \/ (type t = Fixed
      /\ exists s e, startDate t = Instant s /\ endDate t = Instant e
                     /\ s <= now <= e).

(** A candidate passes every filter of the selection. *)
Definition eligible (shop : string) (now : Z) (productId : option string)
    (collectionIds : list string) (t : Timer) : Prop :=
  TimerModel.shop t = shop
  /\ isActive t = true
  /\ timeEligible now t
  /\ matchesTargeting t productId collectionIds = true.

(** The property names of an object. *)
Definition keys (v : JsValue) : list string :=
  match v with
  | VObject props => map fst props
  | _ => []
  end.

(** The kind-specific window fields of a record. *)
Definition windowFields (t : Timer) : DateField * DateField * option Z :=
  match type t with
  | Fixed => (startDate t, endDate t, None)
  | Evergreen => (Missing, Missing, durationMinutes t)
  end.

(** [ownedBy shop t]: the record belongs to [shop]. *)
Definition ownedBy (shop : string) (t : Timer) : bool :=
  String.eqb (TimerModel.shop t) shop.

(** A record of another shop, used below. *)
Definition foreignTimer : Timer :=
  {| _id := "t9"; shop := "other.myshopify.com"; name := "Theirs";
     type := Evergreen; startDate := Missing; endDate := Missing;
     durationMinutes := Some 5; targeting := None; appearance := None;
     impressions := 7; isActive := true; isAiGenerated := false;
     createdAt := 99;
     updatedAt := 99 |}.

Definition demoQuery : TimerQuery :=
  {| q_shop := Some "Demo.myshopify.com"; q_productId := Some "1";
     q_collectionIds := None |}.

(** An evergreen timer of the demo shop, created after [fixedTimer]. *)
Definition evergreenTimer : Timer :=
  {| _id := "t2"; shop := "demo.myshopify.com"; name := "Flash";
     type := Evergreen; startDate := Missing; endDate := Missing;
     durationMinutes := Some 60; targeting := None; appearance := None;
     impressions := 0; isActive := true; isAiGenerated := false;
     createdAt := 5;
     updatedAt := 5 |}.

(** A stored record with a well-formed id. *)
Definition storedTimer : Timer :=
  {| _id := "64b7f0c2a1d3e4f5a6b7c8d9"; shop := "demo.myshopify.com";
     name := "Sale"; type := Evergreen; startDate := Missing;
     endDate := Missing; durationMinutes := Some 60; targeting := None;
     appearance := None; impressions := 41; isActive := true;
     isAiGenerated := false; createdAt := 10;
     updatedAt := 10 |}.

End Storefront.

(** ** Numbers as strings: [String(n)], [parseInt(s, 10)], [padStart] *)

Module JsNumber.

Definition digitChar (d : Z) : ascii := ascii_of_nat (48 + Z.to_nat d).

Definition digitValue (c : ascii) : option Z := Z.of_nat <$> Ascii.is_nat c.

(** The decimal digits of [n >= 0], most significant first, in front of
    [acc]. *)
Fixpoint showDigits (fuel : nat) (n : Z) (acc : string) : string :=
  match fuel with
  | O => acc
  | S fuel' =>
      let acc' := String (digitChar (n mod 10)) acc in
      if n <? 10 then acc' else showDigits fuel' (n / 10) acc'
  end.

(** More steps than [n] has decimal digits. *)
Definition fuelFor (n : Z) : nat := S (Z.to_nat (Z.succ (Z.log2 n))).

(** [String(n)] for an integer [n]. *)
Definition toString (n : Z) : string :=
  if n <? 0 then String "-" (showDigits (fuelFor (- n)) (- n) EmptyString)
  else showDigits (fuelFor n) n EmptyString.

(** The longest prefix of decimal digits of [s], read as a number on top
    of [acc]; [None] while no digit has been read. *)
Fixpoint parseDigits (s : string) (acc : option Z) : option Z :=
  match s with
  | EmptyString => acc
  | String c s' =>
      match digitValue c with
      | Some d => parseDigits s' (Some (10 * default 0 acc + d))
      | None => acc
      end
  end.

(** [parseInt(s, 10)]: leading white space, an optional sign, then the
    digits; [NaN] when there is no digit. *)
Definition parseInt (s : string) : Js.number :=
  match JsString.trimStart s with
  | String "-" s' => Z.opp <$> parseDigits s' None
  | String "+" s' => parseDigits s' None
  | s' => parseDigits s' None
  end.

(** [s.padStart(2, '0')]. *)
Definition padStart2 (s : string) : string :=
  match s with
  | EmptyString => "00"
  | String c EmptyString => String "0" s
  | _ => s
  end.

(** [pad] of the widget and [padTime] of the utilities:
    [String(num).padStart(2, '0')]. *)
Definition pad (num : Z) : string := padStart2 (toString num).

End JsNumber.

(** ** The shared timer utilities: remaining time and its display *)

Module TimerUtils.

Record TimeParts := {
  days : Z;
  hours : Z;
  minutes : Z;
  seconds : Z;
  expired : bool
}.

(** [calculateTimeRemaining(endDate)] at clock reading [now]:
    [Math.max(0, end - now)]. *)
Definition calculateTimeRemaining (endDate : TimerModel.DateField) (now : Z)
  : Js.number :=
  match TimerModel.timeValue endDate with
  | Some end_ => Some (Z.max 0 (end_ - now))
  | None => None
  end.

(** [parseTimeRemaining(ms)] of the utilities. *)
Definition parseTimeRemaining (ms : Z) : TimeParts :=
  if ms <=? 0 then
    {| days := 0; hours := 0; minutes := 0; seconds := 0; expired := true |}
  else
    let totalSeconds := ms / 1000 in
    {| days := totalSeconds / 86400;
       hours := (totalSeconds mod 86400) / 3600;
       minutes := (totalSeconds mod 3600) / 60;
       seconds := totalSeconds mod 60;
       expired := false |}.

Definition padTime (num : Z) : string := JsNumber.pad num.

(** [formatCountdown(time)]. *)
Definition formatCountdown (time : TimeParts) : string :=
  let clockPart :=
    padTime (hours time) +:+ ":" +:+ padTime (minutes time) +:+ ":"
    +:+ padTime (seconds time) in
  if 0 <? days time
  then JsNumber.toString (days time) +:+ "d " +:+ clockPart
  else clockPart.

End TimerUtils.

(** ** The storefront widget (assets/timer-widget.js) *)

Module Widget.

(** The browser's [localStorage]: its content, and whether each of its
    operations throws (storage disabled, private browsing, quota). *)
Record LocalStorage := {
  items : gmap string string;
  getThrows : bool;
  setThrows : bool;
  removeThrows : bool
}.

(** What the widget's code runs against: the storage handle and the
    clock.  [Date.now()] returns [clock reads] and moves to the next
    reading. *)
Record World := {
  localStorage : LocalStorage;
  clock : nat -> Z;
  reads : nat
}.

Inductive Outcome (A : Type) :=
| Returned (a : A)
| Thrown.
Arguments Returned {A} a.
Arguments Thrown {A}.

(** Computations that read the clock, use the storage and may throw. *)
Definition M (A : Type) : Type := World -> Outcome A * World.

Definition ret {A} (a : A) : M A := fun w => (Returned a, w).

Definition bind {A B} (m : M A) (k : A -> M B) : M B :=
  fun w =>
    match m w with
    | (Returned a, w') => k a w'
    | (Thrown, w') => (Thrown, w')
    end.

(** [try { m } catch (e) { handler }]: what [m] did before it threw
    stays done. *)
Definition tryCatch {A} (m : M A) (handler : M A) : M A :=
  fun w =>
    match m w with
    | (Returned a, w') => (Returned a, w')
    | (Thrown, w') => handler w'
    end.

Notation "x <- m ;; k" := (bind m (fun x => k))
  (at level 100, m at next level, right associativity).
Notation "m ;;; k" := (bind m (fun _ => k))
  (at level 100, right associativity).

Definition withItems (ls : LocalStorage) (m : gmap string string) : LocalStorage :=
  {| items := m; getThrows := getThrows ls; setThrows := setThrows ls;
     removeThrows := removeThrows ls |}.

Definition withStorage (w : World) (ls : LocalStorage) : World :=
  {| localStorage := ls; clock := clock w; reads := reads w |}.

(** The world after one more reading of the clock. *)
Definition advance (w : World) : World :=
  {| localStorage := localStorage w; clock := clock w; reads := S (reads w) |}.

(** [Date.now()]. *)
Definition dateNow : M Z :=
  fun w => (Returned (clock w (reads w)), advance w).

(** [localStorage.getItem(key)]. *)
Definition getItem (key : string) : M (option string) :=
  fun w =>
    if getThrows (localStorage w) then (Thrown, w)
    else (Returned (items (localStorage w) !! key), w).

(** [localStorage.setItem(key, value)]. *)
Definition setItem (key value : string) : M unit :=
  fun w =>
    if setThrows (localStorage w) then (Thrown, w)
    else (Returned tt,
          withStorage w (withItems (localStorage w)
                           (<[key := value]> (items (localStorage w))))).

(** [localStorage.removeItem(key)]. *)
Definition removeItem (key : string) : M unit :=
  fun w =>
    if removeThrows (localStorage w) then (Thrown, w)
    else (Returned tt,
          withStorage w (withItems (localStorage w)
                           (delete key (items (localStorage w))))).

(** The timer as the widget holds it: the payload of GET /timer. *)
Record WidgetTimer := {
  id : string;
  type : TimerModel.Kind;
  endDate : TimerModel.DateField;
  durationMinutes : Js.number
}.

(** [getStorageKey(timerId)]. *)
Definition getStorageKey (timerId : string) : string :=
  "countdown_timer_" +:+ timerId.

Record TimeParts := {
  hours : Z;
  minutes : Z;
  seconds : Z;
  expired : bool
}.

(** [parseTimeRemaining(ms)] of the widget. *)
Definition parseTimeRemaining (ms : Z) : TimeParts :=
  if ms <=? 0 then
    {| hours := 0; minutes := 0; seconds := 0; expired := true |}
  else
    let totalSeconds := ms / 1000 in
    {| hours := totalSeconds / 3600;
       minutes := (totalSeconds mod 3600) / 60;
       seconds := totalSeconds mod 60;
       expired := false |}.

Definition pad (num : Z) : string := JsNumber.pad num.

(** [timer.durationMinutes * 60 * 1000]. *)
Definition durationMs (timer : WidgetTimer) : Js.number :=
  Js.mul (Js.mul (durationMinutes timer) (Some 60)) (Some 1000).

(** [setupTimerEndpoint()]: the value it assigns to [this.endTime]. *)
Definition setupTimerEndpoint (timer : WidgetTimer) : M Js.number :=
  match type timer with
  | TimerModel.Fixed => ret (TimerModel.timeValue (endDate timer))
  | TimerModel.Evergreen =>
      let storageKey := getStorageKey (id timer) in
      startTime <-
        tryCatch
          (stored <- getItem storageKey ;;
           if Js.truthy stored then
             let startTime := JsNumber.parseInt (default "" stored) in
             now <- dateNow ;;
             let elapsed := Js.sub (Some now) startTime in
             if Js.ge elapsed (durationMs timer) then
               removeItem storageKey ;;;
               startTime <- dateNow ;;
               setItem storageKey (JsNumber.toString startTime) ;;;
               ret (Some startTime)
             else ret startTime
           else
             startTime <- dateNow ;;
             setItem storageKey (JsNumber.toString startTime) ;;;
             ret (Some startTime))
          (startTime <- dateNow ;; ret (Some startTime)) ;;
      ret (Js.add startTime (durationMs timer))
  end.

(** An evergreen timer as the widget receives it. *)
Definition evergreen (timerId : string) (minutes : Z) : WidgetTimer :=
  {| id := timerId; type := TimerModel.Evergreen;
     endDate := TimerModel.Missing; durationMinutes := Some minutes |}.

(** A working storage with the given content. *)
Definition workingStorage (m : gmap string string) : LocalStorage :=
  {| items := m; getThrows := false; setThrows := false;
     removeThrows := false |}.

(** A world whose clock stands at [now]. *)
Definition frozen (ls : LocalStorage) (now : Z) (r : nat) : World :=
  {| localStorage := ls; clock := fun _ => now; reads := r |}.

(** *** The countdown loop *)

(** One widget instance on its page: the fields of the [CountdownTimer]
    object, what it shows, and the browser's timers.  [intervals] holds
    the handles given out by [setInterval] and not yet cleared,
    [restarts] counts the pending [setTimeout] callbacks that restart an
    evergreen timer, and [expiries] counts the calls of [handleExpired]. *)
Record Page := {
  timer : WidgetTimer;
  endTime : Js.number;
  intervalId : option nat;
  displayNone : bool;
  timeDisplay : string;
  world : World;
  intervals : gset nat;
  nextHandle : nat;
  restarts : nat;
  expiries : nat
}.

Definition setWorld (p : Page) (w : World) : Page :=
  {| timer := timer p; endTime := endTime p; intervalId := intervalId p;
     displayNone := displayNone p; timeDisplay := timeDisplay p;
     world := w; intervals := intervals p; nextHandle := nextHandle p;
     restarts := restarts p; expiries := expiries p |}.

Definition setTimeDisplay (p : Page) (text : string) : Page :=
  {| timer := timer p; endTime := endTime p; intervalId := intervalId p;
     displayNone := displayNone p; timeDisplay := text;
     world := world p; intervals := intervals p; nextHandle := nextHandle p;
     restarts := restarts p; expiries := expiries p |}.

(** [clearInterval(h); this.intervalId = null]. *)
Definition clearInterval (p : Page) (h : nat) : Page :=
  {| timer := timer p; endTime := endTime p; intervalId := None;
     displayNone := displayNone p; timeDisplay := timeDisplay p;
     world := world p; intervals := intervals p ∖ {[h]};
     nextHandle := nextHandle p;
     restarts := restarts p; expiries := expiries p |}.

(** [this.intervalId = setInterval(...)]. *)
Definition setInterval (p : Page) : Page :=
  {| timer := timer p; endTime := endTime p;
     intervalId := Some (nextHandle p);
     displayNone := displayNone p; timeDisplay := timeDisplay p;
     world := world p; intervals := {[nextHandle p]} ∪ intervals p;
     nextHandle := S (nextHandle p);
     restarts := restarts p; expiries := expiries p |}.

(** The expiry signal of each kind: an evergreen timer drops its stored
    start and schedules a restart, a fixed timer hides the widget. *)
Definition signalExpiry (p : Page) : Page :=
  match type (timer p) with
  | TimerModel.Evergreen =>
      let storageKey := getStorageKey (id (timer p)) in
      let w' := (tryCatch (removeItem storageKey) (ret tt) (world p)).2 in
      {| timer := timer p; endTime := endTime p; intervalId := intervalId p;
         displayNone := displayNone p; timeDisplay := timeDisplay p;
         world := w'; intervals := intervals p; nextHandle := nextHandle p;
         restarts := S (restarts p); expiries := S (expiries p) |}
  | TimerModel.Fixed =>
      {| timer := timer p; endTime := endTime p; intervalId := intervalId p;
         displayNone := true; timeDisplay := timeDisplay p;
         world := world p; intervals := intervals p;
         nextHandle := nextHandle p;
         restarts := restarts p; expiries := S (expiries p) |}
  end.

(** [handleExpired()].  A handle is truthy when it is not [0]. *)
Definition handleExpired (p : Page) : Page :=
  let p1 :=
    match intervalId p with
    | Some h => if (h =? 0)%nat then p else clearInterval p h
    | None => p
    end in
  signalExpiry p1.

(** [updateCountdown()]: one reading of the clock. *)
Definition updateCountdown (p : Page) : Page :=
  let now := clock (world p) (reads (world p)) in
  let p := setWorld p (advance (world p)) in
  match Js.sub (endTime p) (Some now) with
  | Some remaining =>
      let time := parseTimeRemaining remaining in
      if expired time then handleExpired p
      else
        setTimeDisplay p
          (pad (hours time) +:+ ":" +:+ pad (minutes time) +:+ ":"
           +:+ pad (seconds time))
  | None => setTimeDisplay p "NaN:NaN:NaN"
  end.

(** [startCountdown()]. *)
Definition startCountdown (p : Page) : Page :=
  setInterval (updateCountdown p).

(** The browser fires the interval with handle [h]: its callback runs
    only while the handle has not been cleared. *)
Definition fire (h : nat) (p : Page) : Page :=
  if decide (h ∈ intervals p) then updateCountdown p else p.

(** A freshly rendered widget for [timer], about to count down to
    [endTime] with the clock [clock]. *)
Definition rendered (timer : WidgetTimer) (endTime : Z) (clock : nat -> Z)
  : Page :=
  {| timer := timer; endTime := Some endTime; intervalId := None;
     displayNone := false; timeDisplay := "00:00:00";
     world := {| localStorage := workingStorage ∅; clock := clock;
                 reads := 0 |};
     intervals := ∅; nextHandle := 1; restarts := 0; expiries := 0 |}.

(** A fixed timer as the widget receives it. *)
Definition fixed (timerId : string) (endDate : Z) : WidgetTimer :=
  {| id := timerId; type := TimerModel.Fixed;
     endDate := TimerModel.Instant endDate; durationMinutes := None |}.

(** After [n] ticks the loop started from [p] towards [e] is still
    counting. *)
Definition running (p : Page) (e : Z) (n : nat) (q : Page) : Prop :=
  endTime q = Some e /\ intervalId q = Some (nextHandle p)
  /\ intervals q = {[nextHandle p]}
  /\ expiries q = 0%nat /\ clock (world q) = clock (world p)
  /\ reads (world q) = (reads (world p) + 1 + n)%nat.

(** The loop has signalled expiry once and stopped. *)
Definition stopped (e : Z) (q : Page) : Prop :=
  endTime q = Some e /\ intervalId q = None /\ intervals q = ∅
  /\ expiries q = 1%nat.

(** A clock that is read once per second from [t0] on. *)
Definition everySecond (t0 : Z) (n : nat) : Z := t0 + 1000 * Z.of_nat n.

(** What the widget shows at its first update when [ms] milliseconds
    remain. *)
Definition firstDisplay (ms : Z) : string :=
  timeDisplay (updateCountdown (rendered (fixed "t1" (1000 + ms)) (1000 + ms)
                                  (everySecond 1000))).

End Widget.

(** ** The widget's restart and impression tracking (assets/timer-widget.js) *)

Module WidgetLifecycle.
Import Widget.

(** The callback that [handleExpired] schedules for an evergreen timer:
    [() => { this.setupTimerEndpoint(); this.startCountdown(); }]. *)
Definition restartCallback (p : Page) : Page :=
  match setupTimerEndpoint (timer p) (world p) with
  | (Returned endTime', w') =>
      startCountdown
        {| timer := timer p; endTime := endTime'; intervalId := intervalId p;
           displayNone := displayNone p; timeDisplay := timeDisplay p;
           world := w'; intervals := intervals p; nextHandle := nextHandle p;
           restarts := pred (restarts p); expiries := expiries p |}
  | (Thrown, w') =>
      {| timer := timer p; endTime := endTime p; intervalId := intervalId p;
         displayNone := displayNone p; timeDisplay := timeDisplay p;
         world := w'; intervals := intervals p; nextHandle := nextHandle p;
         restarts := pred (restarts p); expiries := expiries p |}
  end.

(** The part of a widget that [trackImpression] works on: its
    [impressionSent] flag, the debounce callbacks scheduled with
    [setTimeout(..., 2000)] that have not run yet, and the POST requests
    issued so far. *)
Record Tracker := {
  impressionSent : bool;
  scheduled : nat;
  posts : nat
}.

(** [trackImpression()]: returns at once when the impression was sent,
    schedules the debounce callback otherwise. *)
Definition trackImpression (t : Tracker) : Tracker :=
  if impressionSent t then t
  else {| impressionSent := false; scheduled := S (scheduled t);
          posts := posts t |}.

(** One scheduled debounce callback runs: it returns at once when the
    impression was sent; otherwise it sets the flag and issues the POST
    (whose failure is swallowed). *)
Definition debounceFires (t : Tracker) : Tracker :=
  match scheduled t with
  | O => t
  | S n =>
      if impressionSent t
      then {| impressionSent := true; scheduled := n; posts := posts t |}
      else {| impressionSent := true; scheduled := n; posts := S (posts t) |}
  end.

(** What may happen to a widget's tracker. *)
Inductive TrackerEvent :=
| CallTrackImpression
| TimeoutElapses.

Definition trackerStep (t : Tracker) (ev : TrackerEvent) : Tracker :=
  match ev with
  | CallTrackImpression => trackImpression t
  | TimeoutElapses => debounceFires t
  end.

(** A new widget: [this.impressionSent = false]. *)
Definition newTracker : Tracker :=
  {| impressionSent := false; scheduled := 0; posts := 0 |}.

(** What [trackImpression] and its debounce callback keep true: one POST
    has been issued exactly when the flag is set. *)
Definition trackerInvariant (t : Tracker) : Prop :=
  posts t = if impressionSent t then 1%nat else 0%nat.

(** The impression is sent, or a debounce callback is waiting. *)
Definition willSend (t : Tracker) : Prop :=
  impressionSent t = true \/ (0 < scheduled t)%nat.

End WidgetLifecycle.

(** ** Rate limiting (middleware/auth.js) *)

Module RateLimit.

(** One entry of [rateLimitMap]. *)
Record RateRecord := {
  count : Z;
  windowStart : Z
}.

Definition RATE_LIMIT_WINDOW : Z := 60 * 1000.
Definition RATE_LIMIT_MAX : Z := 100.

(** What the middleware does with the request: [next()], or the 429
    answer with its [retryAfter]. *)
Inductive Decision :=
| Next
| TooManyRequests (retryAfter : Z).

(** [Math.ceil(x / 1000)] for an integer [x]. *)
Definition ceilSeconds (x : Z) : Z := - ((- x) / 1000).

(** [rateLimit(req, res, next)] for the request of [identifier]
    ([req.shop || req.ip]) at clock reading [now]: the decision and
    [rateLimitMap] afterwards. *)
Definition rateLimit (identifier : string) (now : Z)
    (rateLimitMap : gmap string RateRecord) : Decision * gmap string RateRecord :=
  match rateLimitMap !! identifier with
  | None =>
      (Next, <[identifier := {| count := 1; windowStart := now |}]> rateLimitMap)
  | Some record =>
      if RATE_LIMIT_WINDOW <? now - windowStart record then
        (Next, <[identifier := {| count := 1; windowStart := now |}]> rateLimitMap)
      else
        let record' := {| count := count record + 1;
                          windowStart := windowStart record |} in
        let rateLimitMap' := <[identifier := record']> rateLimitMap in
        if RATE_LIMIT_MAX <? count record' then
          (TooManyRequests
             (ceilSeconds (RATE_LIMIT_WINDOW - (now - windowStart record'))),
           rateLimitMap')
        else (Next, rateLimitMap')
  end.

(** The periodic clean-up of [rateLimitMap] at clock reading [now]. *)
Definition cleanUp (now : Z) (rateLimitMap : gmap string RateRecord)
  : gmap string RateRecord :=
  filter (fun entry => ~ (RATE_LIMIT_WINDOW * 2 < now - windowStart entry.2))
    rateLimitMap.

(** The requests of one identifier at the given clock readings, one
    after the other: the decisions, oldest first, and the map afterwards. *)
Fixpoint serve (identifier : string) (times : list Z)
    (rateLimitMap : gmap string RateRecord)
  : list Decision * gmap string RateRecord :=
  match times with
  | [] => ([], rateLimitMap)
  | now :: times' =>
      let '(decision, rateLimitMap') := rateLimit identifier now rateLimitMap in
      let '(decisions, rateLimitMap'') := serve identifier times' rateLimitMap' in
      (decision :: decisions, rateLimitMap'')
  end.

Definition allowed (d : Decision) : bool :=
  match d with
  | Next => true
  | TooManyRequests _ => false
  end.

End RateLimit.

(** ** The admin routes (routes/timers.js) *)

Module TimersRoute.

(** A JSON value in the [durationMinutes] field of a body, as far as
    the validation can tell values apart: an absent field, a number, or
    any other value (a text, a boolean, [null], an object) with its
    truthiness and the number it converts to in a comparison, [None]
    being NaN. *)
Inductive NumberField :=
| Absent
| Number (d : Z)
| Other (truthy : bool) (converted : Js.number).

(** [!field]. *)
Definition fieldFalsy (field : NumberField) : bool :=
  match field with
  | Absent => true
  | Number d => d =? 0
  | Other truthy _ => negb truthy
  end.

(** The number a field converts to in [field < 1] and [field > 10080]. *)
Definition fieldNumber (field : NumberField) : Js.number :=
  match field with
  | Absent => None
  | Number d => Some d
  | Other _ converted => converted
  end.

(** The request body of POST / and PUT /:id, as far as the routes read
    it.  A date is what [new Date(_)] makes of the field. *)
Record TimerInput := {
  name : option string;
  type : option string;
  startDate : TimerModel.DateField;
  endDate : TimerModel.DateField;
  durationMinutes : NumberField;
  appearance : option TimerModel.Appearance;
  targeting : option TimerModel.Targeting;
  isActive : option bool
}.

(** [/^#([A-Fa-f0-9]{6}|[A-Fa-f0-9]{3})$/.test(color)]: the route's
    [hexColorRegex] and the utilities' [isValidHexColor]. *)
Definition isValidHexColor (color : string) : bool :=
  match color with
  | String "#" digits =>
      ((String.length digits =? 6)%nat || (String.length digits =? 3)%nat)
      && forallb Storefront.isHexDigit (String.list_ascii_of_string digits)
  | _ => false
  end.

(** [!isNaN(x)] on a number. *)
Definition isSome (x : Js.number) : bool :=
  match x with
  | Some _ => true
  | None => false
  end.

(** [s.slice(0, n)]. *)
Definition slice0 (n : nat) (s : string) : string := String.substring 0 n s.

(** [s] between double quotes. *)
Definition quoted (s : string) : string :=
  String (ascii_of_nat 34) (s +:+ String (ascii_of_nat 34) EmptyString).

Definition error (field message : string) : list (string * string) :=
  [(field, message)].

(** [cond && errors.push(...)] as a list. *)
Definition when (cond : bool) (errors : list (string * string))
  : list (string * string) :=
  if cond then errors else [].

(** [validateTimerInput(data, isUpdate)]: the errors, in the order they
    are pushed. *)
Definition validateTimerInput (data : TimerInput) (isUpdate : bool)
  : list (string * string) :=
  when (negb isUpdate)
    (when (negb (Js.truthy (JsString.trim <$> name data)))
       (error "name" "Timer name is required")
     ++ when (negb (Js.truthy (type data))
              || negb (Js.arrayIncludes ["fixed"; "evergreen"]
                         (default "" (type data))))
          (error "type"
             ("Timer type must be " +:+ quoted "fixed" +:+ " or "
              +:+ quoted "evergreen")))
  ++ when (Js.truthy (name data)
           && (100 <? String.length (default "" (name data)))%nat)
       (error "name" "Name cannot exceed 100 characters")
  ++ when (bool_decide (type data = Some "fixed"))
       (when (TimerModel.falsyDate (startDate data))
          (error "startDate" "Start date is required for fixed timers")
        ++ when (TimerModel.falsyDate (endDate data))
             (error "endDate" "End date is required for fixed timers")
        ++ when (negb (TimerModel.falsyDate (startDate data))
                 && negb (TimerModel.falsyDate (endDate data)))
             (when (negb (isSome (TimerModel.timeValue (startDate data))))
                (error "startDate" "Invalid start date format")
              ++ when (negb (isSome (TimerModel.timeValue (endDate data))))
                   (error "endDate" "Invalid end date format")
              ++ when (Js.le (TimerModel.timeValue (endDate data))
                         (TimerModel.timeValue (startDate data)))
                   (error "endDate" "End date must be after start date")))
  ++ when (bool_decide (type data = Some "evergreen"))
       (when (fieldFalsy (durationMinutes data)
              || Js.lt (fieldNumber (durationMinutes data)) (Some 1))
          (error "durationMinutes" "Duration must be at least 1 minute")
        ++ when (Js.gt (fieldNumber (durationMinutes data)) (Some 10080))
             (error "durationMinutes" "Duration cannot exceed 7 days"))
  ++ match appearance data with
     | None => []
     | Some a =>
         when (Js.truthy (TimerModel.backgroundColor a)
               && negb (isValidHexColor (default "" (TimerModel.backgroundColor a))))
           (error "appearance.backgroundColor" "Invalid hex color format")
         ++ when (Js.truthy (TimerModel.textColor a)
                  && negb (isValidHexColor (default "" (TimerModel.textColor a))))
              (error "appearance.textColor" "Invalid hex color format")
         ++ when (Js.truthy (TimerModel.headline a)
                  && (50 <? String.length (default "" (TimerModel.headline a)))%nat)
              (error "appearance.headline" "Headline cannot exceed 50 characters")
         ++ when (Js.truthy (TimerModel.supportingText a)
                  && (100 <? String.length
                                (default "" (TimerModel.supportingText a)))%nat)
              (error "appearance.supportingText"
                 "Supporting text cannot exceed 100 characters")
     end
  ++ match targeting data with
     | None => []
     | Some tg =>
         when (Js.truthy (TimerModel.scope tg)
               && negb (Js.arrayIncludes ["all"; "products"; "collections"]
                          (default "" (TimerModel.scope tg))))
           (error "targeting.scope" "Invalid targeting scope")
         ++ when (bool_decide (TimerModel.scope tg = Some "products")
                  && match TimerModel.productIds tg with
                     | Some l => (length l =? 0)%nat
                     | None => true
                     end)
              (error "targeting.productIds" "At least one product must be selected")
         ++ when (bool_decide (TimerModel.scope tg = Some "collections")
                  && match TimerModel.collectionIds tg with
                     | Some l => (length l =? 0)%nat
                     | None => true
                     end)
              (error "targeting.collectionIds"
                 "At least one collection must be selected")
     end.

(** [field.trim().slice(0, n)] when the field is truthy. *)
Definition trimTo (n : nat) (field : option string) : option string :=
  if Js.truthy field then Some (slice0 n (JsString.trim (default "" field)))
  else field.

(** [sanitizeInput(data)]. *)
Definition sanitizeInput (data : TimerInput) : TimerInput :=
  {| name := trimTo 100 (name data);
     type := type data;
     startDate := startDate data;
     endDate := endDate data;
     durationMinutes := durationMinutes data;
     appearance :=
       (fun a =>
          {| TimerModel.backgroundColor := TimerModel.backgroundColor a;
             TimerModel.textColor := TimerModel.textColor a;
             TimerModel.position := TimerModel.position a;
             TimerModel.headline := trimTo 50 (TimerModel.headline a);
             TimerModel.supportingText :=
               trimTo 100 (TimerModel.supportingText a) |})
       <$> appearance data;
     targeting := targeting data;
     isActive := isActive data |}.

(** The same body with another value in [durationMinutes]. *)
Definition withDuration (data : TimerInput) (field : NumberField) : TimerInput :=
  {| name := name data; type := type data; startDate := startDate data;
     endDate := endDate data; durationMinutes := field;
     appearance := appearance data; targeting := targeting data;
     isActive := isActive data |}.

(** The validation step of PUT /:id for a timer of kind
    [existingType]:
    [validateTimerInput({ ...data, type: data.type || existingTimer.type }, true)]
    on the sanitized body. *)
Definition putValidation (body : TimerInput) (existingType : TimerModel.Kind)
  : list (string * string) :=
  let data := sanitizeInput body in
  let timerType := Js.or_default (type data) (Storefront.typeName existingType) in
  let validationData :=
    {| name := name data; type := Some timerType;
       startDate := startDate data; endDate := endDate data;
       durationMinutes := durationMinutes data;
       appearance := appearance data; targeting := targeting data;
       isActive := isActive data |} in
  validateTimerInput validationData true.

(** The body the embedded admin page sends to toggle a timer:
    [JSON.stringify({ isActive: !currentStatus })]. *)
Definition toggleBody (currentStatus : bool) : TimerInput :=
  {| name := None; type := None; startDate := TimerModel.Missing;
     endDate := TimerModel.Missing; durationMinutes := Absent;
     appearance := None; targeting := None;
     isActive := Some (negb currentStatus) |}.

End TimersRoute.

(** ** Listing, reading, toggling and deleting timers (routes/timers.js) *)

Module AdminRoutes.
Import TimerModel.

(** [{ _id: id, shop }] as the query casts it: the id to an ObjectId,
    [castId id] being the stored form of that ObjectId, and the shop
    through the schema's [lowercase] and [trim] setters. *)
Definition byIdAndShop (castId : string -> string) (id shop : string)
    (t : Timer) : bool :=
  String.eqb (_id t) (castId id)
  && String.eqb (TimerModel.shop t) (Storefront.normalizeShop shop).

(** The answer of the routes on one timer: the status code and the
    [data] document, if any. *)
Record TimerResponse := {
  statusCode : Z;
  data : option Timer
}.

(** GET /:id.  [isValid] is [mongoose.Types.ObjectId.isValid]. *)
Definition getTimerById (isValid : string -> bool)
    (castId : string -> string) (id shop : string) (db : list Timer)
  : TimerResponse :=
  if negb (isValid id) then {| statusCode := 400; data := None |}
  else
    match List.find (byIdAndShop castId id shop) db with
    | None => {| statusCode := 404; data := None |}
    | Some timer => {| statusCode := 200; data := Some timer |}
    end.

(** [timer.isActive = !timer.isActive; timer.save()] at clock reading
    [now]: the save of the modified document sets [updatedAt] as well. *)
Definition toggled (now : Z) (t : Timer) : Timer :=
  {| _id := _id t; shop := TimerModel.shop t; name := name t; type := type t;
     startDate := startDate t; endDate := endDate t;
     durationMinutes := durationMinutes t; targeting := targeting t;
     appearance := appearance t; impressions := impressions t;
     isActive := negb (isActive t); isAiGenerated := isAiGenerated t;
     createdAt := createdAt t; updatedAt := now |}.

(** A document that differs from [t] in [updatedAt] only. *)
Definition stamped (now : Z) (t : Timer) : Timer :=
  {| _id := _id t; shop := TimerModel.shop t; name := name t; type := type t;
     startDate := startDate t; endDate := endDate t;
     durationMinutes := durationMinutes t; targeting := targeting t;
     appearance := appearance t; impressions := impressions t;
     isActive := isActive t; isAiGenerated := isAiGenerated t;
     createdAt := createdAt t; updatedAt := now |}.

(** PATCH /:id/toggle at clock reading [now]: the answer and the
    collection afterwards.  [saves] is the outcome of the schema
    validation that [timer.save()] runs on the toggled document; when it
    rejects, the route answers 500 and nothing is written. *)
Definition toggleTimer (isValid : string -> bool)
    (castId : string -> string) (saves : Timer -> bool) (now : Z)
    (id shop : string) (db : list Timer) : TimerResponse * list Timer :=
  if negb (isValid id) then ({| statusCode := 400; data := None |}, db)
  else
    match List.find (byIdAndShop castId id shop) db with
    | None => ({| statusCode := 404; data := None |}, db)
    | Some timer =>
        if saves (toggled now timer)
        then ({| statusCode := 200; data := Some (toggled now timer) |},
              (Storefront.findOneAndUpdate (byIdAndShop castId id shop)
                 (toggled now) db).2)
        else ({| statusCode := 500; data := None |}, db)
    end.

(** [Timer.findOneAndDelete(filter)]: the first document that passes the
    filter is removed. *)
Fixpoint findOneAndDelete (filter : Timer -> bool) (db : list Timer)
  : option Timer * list Timer :=
  match db with
  | [] => (None, [])
  | t :: rest =>
      if filter t then (Some t, rest)
      else
        let '(found, rest') := findOneAndDelete filter rest in
        (found, t :: rest')
  end.

(** DELETE /:id. *)
Definition deleteTimer (isValid : string -> bool)
    (castId : string -> string) (id shop : string) (db : list Timer)
  : TimerResponse * list Timer :=
  if negb (isValid id) then ({| statusCode := 400; data := None |}, db)
  else
    match findOneAndDelete (byIdAndShop castId id shop) db with
    | (None, db') => ({| statusCode := 404; data := None |}, db')
    | (Some _, db') => ({| statusCode := 200; data := None |}, db')
    end.

(** The documents of the other shops, in collection order. *)
Definition othersOf (shop : string) (db : list Timer) : list Timer :=
  List.filter (fun t => negb (String.eqb (TimerModel.shop t) shop)) db.

(** [req.query] of GET /, with [page] and [limit] after [parseInt]. *)
Record ListQuery := {
  q_status : option string;
  q_type : option string;
  q_page : Z;
  q_limit : Z
}.

(** The same query for another page. *)
Definition withPage (q : ListQuery) (page : Z) : ListQuery :=
  {| q_status := q_status q; q_type := q_type q; q_page := page;
     q_limit := q_limit q |}.

(** The query document of GET /: [{ shop }], with [type] when it is one
    of the two kinds. *)
Definition listFilter (shop : string) (q : ListQuery) (t : Timer) : bool :=
  String.eqb (TimerModel.shop t) shop
  && (if Js.truthy (q_type q)
         && Js.arrayIncludes ["fixed"; "evergreen"] (default "" (q_type q))
      then String.eqb (Storefront.typeName (type t)) (default "" (q_type q))
      else true).

(** [.skip(skip).limit(limitNum)] on a result list.  The driver refuses a
    negative skip; a limit of 0 is no limit and a negative limit counts as
    its absolute value. *)
Definition skipLimit (skip limitNum : Z) (l : list Timer) : option (list Timer) :=
  if skip <? 0 then None
  else
    let rest := drop (Z.to_nat skip) l in
    Some (if limitNum =? 0 then rest else take (Z.to_nat (Z.abs limitNum)) rest).

(** [Math.min(parseInt(limit), 100)]. *)
Definition limitNum (q : ListQuery) : Z := Z.min (q_limit q) 100.

(** [(parseInt(page) - 1) * parseInt(limit)]. *)
Definition skipOf (q : ListQuery) : Z := (q_page q - 1) * q_limit q.

(** Every timer the query of GET / matches, newest first. *)
Definition matching (shop : string) (q : ListQuery) (db : list Timer) : list Timer :=
  Storefront.findSorted (listFilter shop q) db.

(** The [timers] of GET /: one page of the matching timers. *)
Definition pageOf (shop : string) (q : ListQuery) (db : list Timer)
  : option (list Timer) :=
  skipLimit (skipOf q) (limitNum q) (matching shop q db).





End AdminRoutes.


(** ** The shop records (models/Shop.js) *)

Module ShopModel.

(** [shopInfo], as [updateShopInfo] writes it. *)
Record ShopInfo := {
  info_name : option string;
  info_email : option string;
  info_domain : option string;
  info_currency : option string;
  info_timezone : option string;
  info_country : option string;
  info_planName : option string
}.

(** [onboarding.steps]. *)
Record Steps := {
  installedApp : bool;
  createdFirstTimer : bool;
  viewedAnalytics : bool
}.

(** A shop document, with the fields that the statics and methods of the
    model read or write.  [accessToken] is [None] when it is [null];
    [uninstalledAt] and [completedAt] are [None] when they are [null] or
    not set.  The [createdAt] and [updatedAt] stamps that the schema's
    [timestamps] option maintains at every write are not among these
    fields. *)
Record Shop := {
  shop : string;
  accessToken : option string;
  scopes : list string;
  isInstalled : bool;
  shopInfo : option ShopInfo;
  completedAt : option Z;
  steps : Steps;
  installedAt : Z;
  uninstalledAt : option Z;
  lastActiveAt : Z
}.

(** [{ shop: normalizedShop }]. *)
Definition byShop (normalizedShop : string) (s : Shop) : bool :=
  String.eqb (shop s) normalizedShop.

(** Writing back the document that [findOne(filter)] returned: the first
    document that passes the filter is replaced. *)
Fixpoint replaceFirst (filter : Shop -> bool) (update : Shop -> Shop)
    (db : list Shop) : list Shop :=
  match db with
  | [] => []
  | s :: rest =>
      if filter s then update s :: rest
      else s :: replaceFirst filter update rest
  end.

(** The assignments of [findOrCreateByShop] to an existing document. *)
Definition reinstalled (token : string) (granted : list string) (now : Z)
    (s : Shop) : Shop :=
  {| shop := shop s; accessToken := Some token; scopes := granted;
     isInstalled := true; shopInfo := shopInfo s;
     completedAt := completedAt s; steps := steps s;
     installedAt := installedAt s; uninstalledAt := None;
     lastActiveAt := now |}.

(** [this.create({ shop: normalizedShop, accessToken, scopes,
    isInstalled: true })]: the schema's [lowercase] and [trim] setters
    run on [shop], the defaults fill the rest; [installedAt] and
    [lastActiveAt] each take their own reading of [Date.now]. *)
Definition created (normalizedShop token : string) (granted : list string)
    (clock : nat -> Z) : Shop :=
  {| shop := Storefront.normalizeShop normalizedShop;
     accessToken := Some token; scopes := granted; isInstalled := true;
     shopInfo := None; completedAt := None;
     steps := {| installedApp := true; createdFirstTimer := false;
                 viewedAnalytics := false |};
     installedAt := clock 0%nat; uninstalledAt := None;
     lastActiveAt := clock 1%nat |}.

(** [Shop.findOrCreateByShop(shopDomain, accessToken, scopes)].
    [validates] is the schema validation that [save()] and [create()]
    run; [None] is a rejected promise.  [clock] gives the successive
    readings of the clock during the call. *)
Definition findOrCreateByShop (validates : Shop -> bool) (clock : nat -> Z)
    (shopDomain token : string) (granted : list string) (db : list Shop)
  : option (Shop * list Shop) :=
  let normalizedShop := Storefront.normalizeShop shopDomain in
  match List.find (byShop normalizedShop) db with
  | Some found =>
      let saved := reinstalled token granted (clock 0%nat) found in
      if validates saved
      then Some (saved, replaceFirst (byShop normalizedShop) (fun _ => saved) db)
      else None
  | None =>
      let saved := created normalizedShop token granted clock in
      if validates saved then Some (saved, db ++ [saved]) else None
  end.

(** [{ shop: shopDomain.toLowerCase().trim(), isInstalled: true }]. *)
Definition installedAs (shopDomain : string) (s : Shop) : bool :=
  byShop (Storefront.normalizeShop shopDomain) s && isInstalled s.

(** [Shop.getWithAccessToken(shopDomain)]. *)
Definition getWithAccessToken (shopDomain : string) (db : list Shop)
  : option Shop :=
  List.find (installedAs shopDomain) db.

(** The update document of [markUninstalled]. *)
Definition uninstalled (now : Z) (s : Shop) : Shop :=
  {| shop := shop s; accessToken := None; scopes := scopes s;
     isInstalled := false; shopInfo := shopInfo s;
     completedAt := completedAt s; steps := steps s;
     installedAt := installedAt s; uninstalledAt := Some now;
     lastActiveAt := lastActiveAt s |}.

(** [Shop.markUninstalled(shopDomain)]: [findOneAndUpdate] with
    [{ new: true }] answers the updated document, or [null]. *)
Definition markUninstalled (now : Z) (shopDomain : string) (db : list Shop)
  : option Shop * list Shop :=
  let filter := byShop (Storefront.normalizeShop shopDomain) in
  (uninstalled now <$> List.find filter db,
   replaceFirst filter (uninstalled now) db).

(** [this.onboarding.steps[step]] for the names of the schema. *)
Definition stepValue (step : string) (st : Steps) : option bool :=
  if String.eqb step "installedApp" then Some (installedApp st)
  else if String.eqb step "createdFirstTimer" then Some (createdFirstTimer st)
  else if String.eqb step "viewedAnalytics" then Some (viewedAnalytics st)
  else None.

(** [this.onboarding.steps[step] = true]. *)
Definition setStep (step : string) (st : Steps) : Steps :=
  {| installedApp := String.eqb step "installedApp" || installedApp st;
     createdFirstTimer :=
       String.eqb step "createdFirstTimer" || createdFirstTimer st;
     viewedAnalytics :=
       String.eqb step "viewedAnalytics" || viewedAnalytics st |}.

(** [Object.values(this.onboarding.steps).every(v => v === true)]. *)
Definition allCompleted (st : Steps) : bool :=
  installedApp st && createdFirstTimer st && viewedAnalytics st.

(** [completeOnboardingStep(step)] at clock reading [now]; [None] is a
    rejected [save()]. *)
Definition completeOnboardingStep (validates : Shop -> bool) (now : Z)
    (step : string) (s : Shop) : option Shop :=
  match stepValue step (steps s) with
  | Some _ =>
      let steps' := setStep step (steps s) in
      let completed :=
        if allCompleted steps' && negb (bool_decide (is_Some (completedAt s)))
        then Some now else completedAt s in
      let s' :=
        {| shop := shop s; accessToken := accessToken s; scopes := scopes s;
           isInstalled := isInstalled s; shopInfo := shopInfo s;
           completedAt := completed; steps := steps';
           installedAt := installedAt s; uninstalledAt := uninstalledAt s;
           lastActiveAt := lastActiveAt s |} in
      if validates s' then Some s' else None
  | None => Some s
  end.

(** A run of [completeOnboardingStep] calls, each on the document the
    previous one saved, at the given clock readings. *)
Fixpoint completeAll (validates : Shop -> bool) (calls : list (Z * string))
    (s : Shop) : option Shop :=
  match calls with
  | [] => Some s
  | (now, step) :: rest =>
      match completeOnboardingStep validates now step s with
      | Some s' => completeAll validates rest s'
      | None => None
      end
  end.

(** The completion date is set exactly when every step is done. *)
Definition onboardingConsistent (s : Shop) : Prop :=
  is_Some (completedAt s) <-> allCompleted (steps s) = true.

(** Every step done in [a] is done in [b]. *)
Definition stepsKept (a b : Steps) : Prop :=
  (installedApp a = true -> installedApp b = true)
  /\ (createdFirstTimer a = true -> createdFirstTimer b = true)
  /\ (viewedAnalytics a = true -> viewedAnalytics b = true).

End ShopModel.

(** ** The session middleware (middleware/auth.js) *)

Module Auth.
Import ShopModel.

(** [process.env], as far as the middleware reads it. *)
Record Env := {
  development : bool;
  TEST_SHOP : option string
}.

(** What the middleware attaches to the request. *)
Record Request := {
  req_shop : string;
  req_accessToken : string;
  req_shopRecord : option Shop
}.

Inductive Outcome :=
| Next (req : Request)
| Status (status : Z) (code : string).

Fixpoint dropString (n : nat) (s : string) : string :=
  match n, s with
  | O, _ => s
  | S n', String _ s' => dropString n' s'
  | S _, EmptyString => EmptyString
  end.

(** [s.replace(pat, '')] for a string [pat]: the first occurrence of
    [pat] is taken out. *)
Fixpoint removeFirst (pat s : string) : string :=
  if Js.startsWith s pat then dropString (String.length pat) s
  else
    match s with
    | EmptyString => EmptyString
    | String c s' => String c (removeFirst pat s')
    end.

(** [shopRecord.lastActiveAt = new Date()], on the fields of [Shop]. *)
Definition touch (now : Z) (s : Shop) : Shop :=
  {| shop := shop s; accessToken := accessToken s; scopes := scopes s;
     isInstalled := isInstalled s; shopInfo := shopInfo s;
     completedAt := completedAt s; steps := steps s;
     installedAt := installedAt s; uninstalledAt := uninstalledAt s;
     lastActiveAt := now |}.

(** [verifyShopifySession].  [decodeSessionToken] gives the [dest] of the
    verified payload, or [None] when the verification throws;
    [authorization] is [req.headers.authorization]. *)
Definition verifyShopifySession (env : Env)
    (decodeSessionToken : string -> option string)
    (validates : Shop -> bool) (now : Z) (authorization : option string)
    (db : list Shop) : Outcome * list Shop :=
  if development env
     && (negb (Js.truthy authorization)
         || bool_decide (authorization = Some "Bearer ")
         || bool_decide (authorization = Some "Bearer"))
  then (Next {| req_shop :=
                  Js.or_default (TEST_SHOP env) "test-shop.myshopify.com";
                req_accessToken := "dev-mode-token";
                req_shopRecord := None |}, db)
  else if negb (Js.truthy authorization)
          || negb (Js.startsWith (default "" authorization) "Bearer ")
  then (Status 401 "MISSING_AUTH_HEADER", db)
  else
    let token := removeFirst "Bearer " (default "" authorization) in
    match decodeSessionToken token with
    | None => (Status 401 "INVALID_TOKEN", db)
    | Some dest =>
        let shopDomain := removeFirst "https://" dest in
        if negb (JsString.nonEmpty shopDomain)
        then (Status 401 "MISSING_SHOP", db)
        else
          match getWithAccessToken shopDomain db with
          | None => (Status 401 "SHOP_NOT_FOUND", db)
          | Some shopRecord =>
              if negb (Js.truthy (accessToken shopRecord))
              then (Status 401 "MISSING_ACCESS_TOKEN", db)
              else
                let active := touch now shopRecord in
                if validates active
                then (Next {| req_shop := shopDomain;
                              req_accessToken :=
                                default "" (accessToken shopRecord);
                              req_shopRecord := Some active |},
                      replaceFirst (installedAs shopDomain)
                        (fun _ => active) db)
                else (Status 500 "AUTH_ERROR", db)
          end
    end.

(** [optionalShopifySession]: what it attaches, if anything; it always
    calls [next()]. *)
Definition optionalShopifySession
    (decodeSessionToken : string -> option string)
    (authorization : option string) (db : list Shop) : option Request :=
  if negb (Js.truthy authorization)
     || negb (Js.startsWith (default "" authorization) "Bearer ")
  then None
  else
    let token := removeFirst "Bearer " (default "" authorization) in
    match decodeSessionToken token with
    | None => None
    | Some dest =>
        let shopDomain := removeFirst "https://" dest in
        match getWithAccessToken shopDomain db with
        | Some shopRecord =>
            if Js.truthy (accessToken shopRecord)
            then Some {| req_shop := shopDomain;
                         req_accessToken :=
                           default "" (accessToken shopRecord);
                         req_shopRecord := Some shopRecord |}
            else None
        | None => None
        end
    end.

(** A shop document as the installation of the demo shop leaves it. *)
Definition demoShop : Shop :=
  created "demo.myshopify.com" "shpat_1" ["write_products"]
    (fun n => 1000 + Z.of_nat n).

(** A sample validation, used below: the domain mentions
    [.myshopify.com] and the token is not empty. *)
Definition demoValidates (s : Shop) : bool :=
  Js.includes (shop s) ".myshopify.com" && Js.truthy (accessToken s).

(** A decoder that takes the token itself for the payload's [dest]. *)
Definition demoDecode (token : string) : option string :=
  if String.eqb token "" then None else Some token.

End Auth.

(** ** Sanitizing free text (utils/timerUtils.js, __tests__/timer.test.js) *)

Module Sanitize.

(** The class [[<>{}[\]]]. *)
Definition isInjectionChar (c : ascii) : bool :=
  existsb (Ascii.eqb c) ["<"; ">"; "{"; "}"; "["; "]"]%char.

(** [s.replace(/\s+/g, ' ')]: every maximal run of white space becomes
    one blank.  [inRun] says that the character before was white space. *)
Fixpoint collapse_go (inRun : bool) (s : string) : string :=
  match s with
  | EmptyString => EmptyString
  | String c s' =>
      if Ascii.is_space c
      then if inRun then collapse_go true s'
           else String " " (collapse_go true s')
      else String c (collapse_go false s')
  end.

Definition collapseWhitespace (s : string) : string := collapse_go false s.

(** [s.replace(/[<>{}[\]]/g, '')]. *)
Fixpoint removeInjection (s : string) : string :=
  match s with
  | EmptyString => EmptyString
  | String c s' =>
      if isInjectionChar c then removeInjection s'
      else String c (removeInjection s')
  end.

(** [s.slice(0, maxLength)]: a negative [maxLength] counts from the end. *)
Definition sliceTo (maxLength : Z) (s : string) : string :=
  if maxLength <? 0
  then TimersRoute.slice0 (String.length s - Z.to_nat (- maxLength)) s
  else TimersRoute.slice0 (Z.to_nat maxLength) s.

(** [sanitizeString(str, maxLength)]. *)
Definition sanitizeString (str : Storefront.JsValue) (maxLength : Z) : string :=
  match str with
  | Storefront.VString s =>
      if String.eqb s "" then ""
      else sliceTo maxLength
             (removeInjection (collapseWhitespace (JsString.trim s)))
  | _ => ""
  end.

(** [sanitizeIntent(intent)] of the test-suite. *)
Definition sanitizeIntent (intent : Storefront.JsValue) : string :=
  match intent with
  | Storefront.VString s =>
      if String.eqb s "" then ""
      else
        let sanitized := JsString.trim s in
        let sanitized := collapseWhitespace sanitized in
        let sanitized := removeInjection sanitized in
        TimersRoute.slice0 200 sanitized
  | _ => ""
  end.

(** Text that needs no cleaning: no character of the removed class, no
    white space other than single blanks between other characters.
    [afterSpace] says that the text so far is empty or ends in a blank. *)
Fixpoint tidy_go (afterSpace : bool) (s : string) : bool :=
  match s with
  | EmptyString => negb afterSpace
  | String c s' =>
      if Ascii.is_space c
      then negb afterSpace && Ascii.eqb c " " && tidy_go true s'
      else negb (isInjectionChar c) && tidy_go false s'
  end.

Definition tidy (s : string) : bool := tidy_go true s.

(** Every character of [s] passes [p]. *)
Definition allChars (p : ascii -> bool) (s : string) : bool :=
  forallb p (String.list_ascii_of_string s).

End Sanitize.

(** ** The form of the admin page that creates a timer (CreateTimer.jsx) *)

Module CreateTimerForm.

Record FormTargeting := {
  scope : string;
  productIds : list string;
  collectionIds : list string
}.

Record FormAppearance := {
  backgroundColor : string;
  textColor : string;
  position : string;
  headline : string;
  supportingText : string
}.

(** [formData].  [durationMinutes] is what [parseInt] made of the field. *)
Record FormData := {
  name : string;
  type : string;
  startDate : string;
  endDate : string;
  durationMinutes : Js.number;
  targeting : FormTargeting;
  appearance : FormAppearance
}.

(** [!n] on a number. *)
Definition falsyNumber (n : Js.number) : bool :=
  match n with
  | Some d => d =? 0
  | None => true
  end.

(** [validateForm()]: the entries of [newErrors], in the order of their
    assignment.  [parseDate s] is [new Date(s).getTime()]. *)
Definition validateForm (parseDate : string -> Js.number)
    (formData : FormData) : list (string * string) :=
  TimersRoute.when (negb (JsString.nonEmpty (JsString.trim (name formData))))
    (TimersRoute.error "name" "Timer name is required")
  ++ TimersRoute.when (String.eqb (type formData) "fixed")
       (TimersRoute.when (negb (JsString.nonEmpty (startDate formData)))
          (TimersRoute.error "startDate" "Start date is required")
        ++ TimersRoute.when (negb (JsString.nonEmpty (endDate formData)))
             (TimersRoute.error "endDate" "End date is required")
        ++ TimersRoute.when
             (JsString.nonEmpty (startDate formData)
              && JsString.nonEmpty (endDate formData)
              && Js.le (parseDate (endDate formData))
                   (parseDate (startDate formData)))
             (TimersRoute.error "endDate" "End date must be after start date"))
  ++ TimersRoute.when (String.eqb (type formData) "evergreen")
       (TimersRoute.when
          (falsyNumber (durationMinutes formData)
           || Js.lt (durationMinutes formData) (Some 1))
          (TimersRoute.error "durationMinutes"
             "Duration must be at least 1 minute"))
  ++ TimersRoute.when
       (String.eqb (scope (targeting formData)) "products"
        && (length (productIds (targeting formData)) =? 0)%nat)
       (TimersRoute.error "products" "Select at least one product")
  ++ TimersRoute.when
       (String.eqb (scope (targeting formData)) "collections"
        && (length (collectionIds (targeting formData)) =? 0)%nat)
       (TimersRoute.error "collections" "Select at least one collection").

(** A date field of the request body as the route reads it: an absent or
    empty field is falsy, any other text goes through [new Date]. *)
Definition bodyDate (parseDate : string -> Js.number) (field : string)
  : TimerModel.DateField :=
  if String.eqb field "" then TimerModel.Missing
  else
    match parseDate field with
    | Some ms => TimerModel.Instant ms
    | None => TimerModel.Unparseable
    end.

Inductive Submission :=
| NotSubmitted (errors : list (string * string))
| Throws
| Posted (body : TimersRoute.TimerInput).

(** The parts of [submitData] that do not depend on the type. *)
Definition bodyOf (formData : FormData) (start finish : TimerModel.DateField)
    (duration : TimersRoute.NumberField) : TimersRoute.TimerInput :=
  {| TimersRoute.name := Some (name formData);
     TimersRoute.type := Some (type formData);
     TimersRoute.startDate := start;
     TimersRoute.endDate := finish;
     TimersRoute.durationMinutes := duration;
     TimersRoute.appearance :=
       Some {| TimerModel.backgroundColor :=
                 Some (backgroundColor (appearance formData));
               TimerModel.textColor := Some (textColor (appearance formData));
               TimerModel.position := Some (position (appearance formData));
               TimerModel.headline := Some (headline (appearance formData));
               TimerModel.supportingText :=
                 Some (supportingText (appearance formData)) |};
     TimersRoute.targeting :=
       Some {| TimerModel.scope := Some (scope (targeting formData));
               TimerModel.productIds := Some (productIds (targeting formData));
               TimerModel.collectionIds :=
                 Some (collectionIds (targeting formData)) |};
     TimersRoute.isActive := None |}.

(** A number of the form in the JSON body: [JSON.stringify] writes NaN
    as [null], which is falsy and converts to 0. *)
Definition jsonNumber (n : Js.number) : TimersRoute.NumberField :=
  match n with
  | Some d => TimersRoute.Number d
  | None => TimersRoute.Other false (Some 0)
  end.

(** [handleSubmit()], up to the body of the POST request as the route
    receives it.  For a fixed timer the dates go through
    [new Date(_).toISOString()], which throws on an invalid date, and the
    duration is deleted; otherwise the dates are deleted. *)
Definition handleSubmit (parseDate : string -> Js.number)
    (formData : FormData) : Submission :=
  match validateForm parseDate formData with
  | [] =>
      if String.eqb (type formData) "fixed"
      then
        match parseDate (startDate formData), parseDate (endDate formData) with
        | Some s, Some e =>
            Posted (bodyOf formData (TimerModel.Instant s)
                      (TimerModel.Instant e) TimersRoute.Absent)
        | _, _ => Throws
        end
      else Posted (bodyOf formData TimerModel.Missing TimerModel.Missing
                     (jsonNumber (durationMinutes formData)))
  | errors => NotSubmitted errors
  end.

(** The validation step of POST /:
    [validateTimerInput(sanitizeInput(req.body))]. *)
Definition postValidation (body : TimersRoute.TimerInput)
  : list (string * string) :=
  TimersRoute.validateTimerInput (TimersRoute.sanitizeInput body) false.

(** A form as the page opens it, with a name typed in. *)
Definition sampleForm : FormData :=
  {| name := "Summer sale"; type := "evergreen"; startDate := "";
     endDate := ""; durationMinutes := Some 60;
     targeting := {| scope := "all"; productIds := []; collectionIds := [] |};
     appearance :=
       {| backgroundColor := "#000000"; textColor := "#FFFFFF";
          position := "above-cart"; headline := "Hurry! Offer ends soon";
          supportingText := "" |} |}.

(** The same form with a duration of two weeks. *)
Definition twoWeeksForm : FormData :=
  {| name := name sampleForm; type := type sampleForm;
     startDate := startDate sampleForm; endDate := endDate sampleForm;
     durationMinutes := Some 20160; targeting := targeting sampleForm;
     appearance := appearance sampleForm |}.

(** A date parser for the examples: it reads decimal digits. *)
Definition digitsDate (s : string) : Js.number := JsNumber.parseInt s.

End CreateTimerForm.

(** ** Lists of ids typed into the embedded admin page (server.js) *)

Module AdminPage.

(** [text.split('\n').map(id => id.trim()).filter(id => id.length > 0)]. *)
Definition parseIds (text : string) : list string :=
  List.filter (fun id => (0 <? String.length id)%nat)
    (map JsString.trim (JsString.split "010"%char text)).

(** [ids.join(sep)]. *)
Definition join (sep : ascii) (ids : list string) : string :=
  String.concat (String sep EmptyString) ids.

(** An id that can stand in a separated list: not empty, no white space
    around it, no comma and no line break in it. *)
Definition listable (id : string) : Prop :=
  id <> EmptyString /\ JsString.trim id = id
  /\ Sanitize.allChars
       (fun c => negb (Ascii.eqb c ",") && negb (Ascii.eqb c "010")) id = true.

End AdminPage.
(** * Part II: properties *)

(** ** Status computation *)

Module StatusProps.
Import TimerModel.


Lemma status_never_invalid t now : status t now <> Invalid.
Proof.
  unfold status.
  destruct (isActive t); simpl; [|discriminate].
  destruct (type t); [|discriminate].
  repeat case_match; discriminate.
Qed.

(** On a record the two production status functions agree. *)
Lemma status_calculateTimerStatus t now :
  status t now = calculateTimerStatus (Some t) now.
Proof. reflexivity. Qed.

(** C1 (defect).  A fixed, enabled timer without window data, or with
    unparseable dates, is reported as [Active] by the production status
    functions, where the test-suite's [determineStatus] answers
    [Invalid]; one whose end precedes its start is reported as
    [Scheduled] and later as [Expired], where [determineStatus] answers
    [Invalid]. *)
Theorem malformed_window_not_invalid :
  calculateTimerStatus (Some (fixedTimer Missing Missing)) 1000 = Active
  /\ status (fixedTimer Missing Missing) 1000 = Active
  /\ determineStatus (Some (fixedTimer Missing Missing)) 1000 = Invalid
  /\ calculateTimerStatus (Some (fixedTimer Unparseable Unparseable)) 1000 = Active
  /\ calculateTimerStatus (Some (fixedTimer (Instant 10) (Instant 5))) 7 = Scheduled
  /\ calculateTimerStatus (Some (fixedTimer (Instant 10) (Instant 5))) 20 = Expired
  /\ determineStatus (Some (fixedTimer (Instant 10) (Instant 5))) 20 = Invalid.
Proof. repeat split. Qed.

(** C4.  [Inactive] overrides everything; an enabled evergreen timer is
    [Active]; an enabled fixed timer with a well-formed window is
    [Scheduled] before its start, [Expired] after its end and [Active] in
    between; an absent timer is [Unknown], which is not [Invalid]. *)
Theorem status_contract (t : Timer) (now : Z) :
  (isActive t = false ->
     calculateTimerStatus (Some t) now = Inactive /\ status t now = Inactive)
  /\ (isActive t = true -> type t = Evergreen ->
     calculateTimerStatus (Some t) now = Active /\ status t now = Active)
  /\ (forall s e,
        isActive t = true -> type t = Fixed ->
        startDate t = Instant s -> endDate t = Instant e -> s < e ->
        let expected :=
          if now <? s then Scheduled
          else if e <? now then Expired
          else Active in
        calculateTimerStatus (Some t) now = expected /\ status t now = expected)
  /\ calculateTimerStatus None now = Unknown
  /\ Unknown <> Invalid.
Proof.
  split; [|split; [|split; [|split]]]; try done.
  - unfold status. simpl. by intros ->.
  - unfold status. simpl. by intros -> ->.
  - intros s e Ha Hk Hs He _. unfold status. simpl.
    rewrite Ha, Hk, Hs, He. simpl. unfold Js.gt. simpl. done.
Qed.

Lemma status_contract_witness :
  calculateTimerStatus (Some (fixedTimer (Instant 10) (Instant 20))) 5 = Scheduled
  /\ calculateTimerStatus (Some (fixedTimer (Instant 10) (Instant 20))) 15 = Active
  /\ calculateTimerStatus (Some (fixedTimer (Instant 10) (Instant 20))) 25 = Expired.
Proof.
  split; [|split].
  - apply (proj1 (proj1 (proj2 (proj2
      (status_contract (fixedTimer (Instant 10) (Instant 20)) 5)))
      10 20 eq_refl eq_refl eq_refl eq_refl ltac:(lia))).
  - apply (proj1 (proj1 (proj2 (proj2
      (status_contract (fixedTimer (Instant 10) (Instant 20)) 15)))
      10 20 eq_refl eq_refl eq_refl eq_refl ltac:(lia))).
  - apply (proj1 (proj1 (proj2 (proj2
      (status_contract (fixedTimer (Instant 10) (Instant 20)) 25)))
      10 20 eq_refl eq_refl eq_refl eq_refl ltac:(lia))).
Defined.

(** Status of a fixed, enabled timer with window [(s, e)], [s < e]. *)
Lemma fixed_status_cases t now s e :
  isActive t = true -> type t = Fixed ->
  startDate t = Instant s -> endDate t = Instant e ->
  calculateTimerStatus (Some t) now =
    if now <? s then Scheduled else if e <? now then Expired else Active.
Proof. simpl. intros -> -> -> ->. reflexivity. Qed.

(** C7.  For a fixed, enabled timer with [end > start], the status never
    moves backwards along Scheduled -> Active -> Expired as the clock
    advances, and at every instant it is exactly one of Scheduled, Active,
    Expired, Invalid. *)
Theorem status_monotone (t : Timer) (s e now1 now2 : Z) :
  isActive t = true -> type t = Fixed ->
  startDate t = Instant s -> endDate t = Instant e -> s < e ->
  now1 < now2 ->
  (exists p1 p2,
      phase (calculateTimerStatus (Some t) now1) = Some p1
      /\ phase (calculateTimerStatus (Some t) now2) = Some p2
      /\ (p1 <= p2)%nat)
  /\ length (filter (fun st => st = calculateTimerStatus (Some t) now1)
               fixedStatuses) = 1%nat
  /\ status t now1 = calculateTimerStatus (Some t) now1.
Proof.
  intros Ha Hk Hs He Hse Hnow.
  split; [|split; [|apply status_calculateTimerStatus]];
    rewrite !(fixed_status_cases t _ s e) by assumption.
  - destruct (Z.ltb_spec now1 s), (Z.ltb_spec now2 s),
      (Z.ltb_spec e now1), (Z.ltb_spec e now2);
      simpl; try lia; eauto with lia.
  - destruct (now1 <? s); [reflexivity|].
    destruct (e <? now1); reflexivity.
Qed.

Lemma status_monotone_witness :
  exists p1 p2,
    phase (calculateTimerStatus (Some (fixedTimer (Instant 10) (Instant 20))) 5) = Some p1
    /\ phase (calculateTimerStatus (Some (fixedTimer (Instant 10) (Instant 20))) 15) = Some p2
    /\ (p1 <= p2)%nat.
Proof.
  apply (proj1 (status_monotone (fixedTimer (Instant 10) (Instant 20))
                  10 20 5 15 eq_refl eq_refl eq_refl eq_refl
                  ltac:(lia) ltac:(lia))).
Defined.

End StatusProps.

(** ** Targeting *)

Module TargetingProps.
Import TimerModel Targeting.

Lemma startsWith_refl s : Js.startsWith s s = true.
Proof.
  induction s as [|a s IH]; simpl; [done|].
  by rewrite Ascii.eqb_refl, IH.
Qed.

Lemma includes_refl s : Js.includes s s = true.
Proof. destruct s; simpl; [done|]. by rewrite Ascii.eqb_refl, startsWith_refl. Qed.

(** The route's inline filter is the utilities' matcher. *)
Lemma routeFilter_matchesTargeting productId collectionIds timer :
  routeFilter productId collectionIds timer
  = matchesTargeting timer productId collectionIds.
Proof. reflexivity. Qed.

Lemma arrayIncludes_elem_of (l : list string) (x : string) :
  Js.arrayIncludes l x = true <-> x ∈ l.
Proof.
  unfold Js.arrayIncludes. rewrite existsb_exists. split.
  - intros (y & Hy & Heq). apply String.eqb_eq in Heq. subst.
    by apply list_elem_of_In.
  - intros Hx. exists x. split; [by apply list_elem_of_In|].
    apply String.eqb_refl.
Qed.

(** The model's filter honours the exact-match contract for products. *)
Lemma modelFilter_products_exact ids productId collectionIds :
  modelFilter productId collectionIds (productTimer ids) = true
  <-> exists p, productId = Some p /\ p <> "" /\ p ∈ ids.
Proof.
  unfold modelFilter, scopeOf. simpl.
  destruct productId as [p|]; simpl.
  - destruct (String.eqb_spec p ""); simpl.
    + split; [done|]. intros (q & [= <-] & Hq & _). done.
    + rewrite arrayIncludes_elem_of. split; [eauto|].
      by intros (q & [= <-] & _ & Hin).
  - split; [done|]. by intros (q & ? & _).
Qed.

(** Every exact match is also accepted by the loose matcher. *)
Lemma modelFilter_matchesTargeting productId collectionIds timer :
  modelFilter productId collectionIds timer = true ->
  matchesTargeting timer productId collectionIds = true.
Proof.
  unfold modelFilter, matchesTargeting.
  destruct (String.eqb (scopeOf timer) "all"); [done|].
  destruct (String.eqb (scopeOf timer) "products" && Js.truthy productId).
  { destruct (targeting timer ≫= productIds) as [l|]; [|done]. simpl.
    unfold Js.arrayIncludes. rewrite !existsb_exists.
    intros (x & Hx & Heq). exists x. split; [done|].
    apply String.eqb_eq in Heq. subst. unfold looseEq.
    by rewrite String.eqb_refl. }
  destruct (String.eqb (scopeOf timer) "collections" && _); [|done].
  destruct (targeting timer ≫= TimerModel.collectionIds) as [l|]; [|done].
  simpl. unfold Js.arrayIncludes. rewrite !existsb_exists.
  intros (x & Hx & Hex). exists x. split; [done|].
  apply existsb_exists in Hex as (y & Hy & Heq).
  apply existsb_exists. exists y. split; [done|].
  apply String.eqb_eq in Heq. subst. unfold looseEq.
  by rewrite String.eqb_refl.
Qed.

(** C2 (defect).  The utilities' matcher and the storefront route accept
    product id "12" for a timer targeted at product "120", and collection
    id "12" for a timer targeted at collection "120", although neither id
    is an element of the targeted list; the model's [findActiveForProduct]
    filter and [appliesToProduct] reject both. *)
Theorem matcher_accepts_substring :
  matchesTargeting (productTimer ["120"]) (Some "12") [] = true
  /\ routeFilter (Some "12") [] (productTimer ["120"]) = true
  /\ ("12" ∉ ["120"])
  /\ modelFilter (Some "12") [] (productTimer ["120"]) = false
  /\ appliesToProduct (productTimer ["120"]) (Some "12") [] = false
  /\ matchesTargeting (collectionTimer ["120"]) None ["12"] = true
  /\ routeFilter None ["12"] (collectionTimer ["120"]) = true
  /\ modelFilter None ["12"] (collectionTimer ["120"]) = false
  /\ appliesToProduct (collectionTimer ["120"]) None ["12"] = false.
Proof.
  split; [reflexivity|]. split; [reflexivity|].
  split; [by intros ?%list_elem_of_singleton|].
  split; [reflexivity|]. split; [reflexivity|]. split; [reflexivity|].
  split; [reflexivity|]. split; reflexivity.
Qed.

End TargetingProps.

(** ** Selection *)

Module SelectionProps.
Import TimerModel Targeting Storefront TargetingProps.

Lemma insertNewest_perm t l : insertNewest t l ≡ₚ t :: l.
Proof.
  induction l as [|u l IH]; simpl; [done|].
  destruct (createdAt u <=? createdAt t); [done|].
  rewrite IH. apply Permutation_swap.
Qed.

Lemma sortNewestFirst_perm l : sortNewestFirst l ≡ₚ l.
Proof.
  induction l as [|t l IH]; simpl; [done|].
  by rewrite insertNewest_perm, IH.
Qed.

Lemma insertNewest_sorted t l :
  StronglySorted newer l -> StronglySorted newer (insertNewest t l).
Proof.
  induction 1 as [|u l Hl IH Hu]; simpl.
  - repeat constructor.
  - destruct (Z.leb_spec (createdAt u) (createdAt t)) as [Hle|Hlt].
    + constructor; [by constructor|].
      constructor; [done|].
      eapply Forall_impl; [exact Hu|]. unfold newer. intros; lia.
    + constructor; [done|].
      rewrite insertNewest_perm. constructor; [|done].
      unfold newer. lia.
Qed.

Lemma sortNewestFirst_sorted l : StronglySorted newer (sortNewestFirst l).
Proof.
  induction l as [|t l IH]; simpl; [constructor|].
  by apply insertNewest_sorted.
Qed.

(** The first element of a newest-first list that passes [P] is at least
    as new as every element that passes [P]. *)
Lemma head_filter_newest (P : Timer -> bool) l t :
  StronglySorted newer l ->
  head (List.filter P l) = Some t ->
  P t = true /\ t ∈ l /\ forall u, u ∈ l -> P u = true -> newer t u.
Proof.
  induction 1 as [|x l Hl IH Hx]; simpl; [done|].
  destruct (P x) eqn:HP; simpl.
  - intros [= <-]. split; [done|]. split; [left|].
    intros u [->|Hu]%elem_of_cons _; [unfold newer; lia|].
    by eapply Forall_forall in Hx.
  - intros Hhd. destruct (IH Hhd) as (HPt & Hin & Hmax).
    split; [done|]. split; [by right|].
    intros u [->|Hu]%elem_of_cons HPu; [congruence|]. by apply Hmax.
Qed.

Lemma head_filter_none (P : Timer -> bool) (l : list Timer) :
  head (List.filter P l) = None -> forall u, u ∈ l -> P u = false.
Proof.
  induction l as [|x l IH]; simpl; [by intros _ u ?%elem_of_nil|].
  destruct (P x) eqn:HP; simpl; [done|].
  intros Hhd u [->|Hu]%elem_of_cons; [done|]. by apply IH.
Qed.

Lemma window_open now d1 d2 :
  Js.le (timeValue d1) (Some now) && Js.ge (timeValue d2) (Some now) = true
  <-> exists s e, d1 = Instant s /\ d2 = Instant e /\ s <= now <= e.
Proof.
  destruct d1 as [| |s], d2 as [| |e]; unfold Js.ge; simpl;
    rewrite ?andb_false_r;
    try (split; [discriminate | by intros (? & ? & ? & ? & _)]).
  rewrite andb_true_iff, !Z.leb_le. split.
  - intros [? ?]. by exists s, e.
  - by intros (? & ? & [= <-] & [= <-] & ?).
Qed.

Lemma activeQuery_spec shop now t :
  activeQuery shop now t = true
  <-> TimerModel.shop t = shop /\ isActive t = true /\ timeEligible now t.
Proof.
  unfold activeQuery, timeEligible.
  destruct (type t).
  - rewrite 2!andb_true_iff, String.eqb_eq, window_open. split.
    + intros [[? ?] ?]. auto.
    + intros (? & ? & [?|[_ ?]]); [discriminate|auto].
  - rewrite andb_true_r, andb_true_iff, String.eqb_eq. split.
    + intros [? ?]. auto.
    + intros (? & ? & _). auto.
Qed.

Lemma elem_of_findSorted query db t :
  t ∈ findSorted query db <-> t ∈ db /\ query t = true.
Proof.
  unfold findSorted. rewrite sortNewestFirst_perm.
  rewrite !list_elem_of_In. apply filter_In.
Qed.

Lemma filter_newest_first (P : Timer -> bool) l :
  StronglySorted newer l -> StronglySorted newer (List.filter P l).
Proof.
  induction 1 as [|x l Hl IH Hx]; simpl; [constructor|].
  destruct (P x); [|done]. constructor; [done|].
  apply List.Forall_forall. intros y [Hy _]%filter_In.
  by eapply List.Forall_forall in Hx.
Qed.

(** The model's [findActiveForProduct] lists, newest first, exactly the
    shop-owned, enabled, time-eligible records that pass its exact
    targeting filter; the selection of GET /timer is the first element of
    the like list for the route's filter. *)
Lemma findActiveForProduct_spec shop now productId collectionIds db :
  StronglySorted newer (findActiveForProduct shop now productId collectionIds db)
  /\ forall t,
      t ∈ findActiveForProduct shop now productId collectionIds db
      <-> t ∈ db /\ TimerModel.shop t = shop /\ isActive t = true
          /\ timeEligible now t
          /\ modelFilter productId collectionIds t = true.
Proof.
  unfold findActiveForProduct. split.
  - apply filter_newest_first, sortNewestFirst_sorted.
  - intros t. rewrite list_elem_of_In, filter_In, <- list_elem_of_In.
    rewrite elem_of_findSorted, activeQuery_spec. tauto.
Qed.

(** What a successful selection returns. *)
Lemma selectTimer_Some shop now productId collectionIds db t :
  selectTimer shop now productId collectionIds db = Some t ->
  t ∈ db
  /\ eligible shop now productId collectionIds t
  /\ forall u, u ∈ db -> eligible shop now productId collectionIds u ->
               createdAt u <= createdAt t.
Proof.
  unfold selectTimer. intros Hsel.
  apply head_filter_newest in Hsel as (Hmatch & Hin & Hmax);
    [|apply sortNewestFirst_sorted].
  apply elem_of_findSorted in Hin as [Hdb Hq].
  apply activeQuery_spec in Hq as (Hshop & Hact & Htime).
  rewrite routeFilter_matchesTargeting in Hmatch.
  split; [done|]. split; [done|].
  intros u Hu (Hs & Ha & Ht & Hm). apply (Hmax u).
  - apply elem_of_findSorted. split; [done|]. by apply activeQuery_spec.
  - by rewrite routeFilter_matchesTargeting.
Qed.

(** When the selection returns nothing, no candidate passes. *)
Lemma selectTimer_None shop now productId collectionIds db :
  selectTimer shop now productId collectionIds db = None ->
  forall u, u ∈ db -> ~ eligible shop now productId collectionIds u.
Proof.
  unfold selectTimer. intros Hsel u Hu (Hs & Ha & Ht & Hm).
  assert (routeFilter productId collectionIds u = false) as Hno.
  { eapply head_filter_none; [exact Hsel|].
    apply elem_of_findSorted. split; [done|]. by apply activeQuery_spec. }
  rewrite routeFilter_matchesTargeting in Hno. congruence.
Qed.

(** C5.  The selection returns a shop-owned, enabled, time-eligible
    candidate that satisfies the targeting matcher and is at least as
    recently created as every other such candidate; it returns nothing
    exactly when no candidate passes all filters, and the route then
    answers 404, not an error. *)
Theorem select_newest_eligible (shop : string) (now : Z)
    (productId : option string) (collectionIds : list string)
    (db : list Timer) :
  match selectTimer shop now productId collectionIds db with
  | Some t =>
      t ∈ db
      /\ eligible shop now productId collectionIds t
      /\ forall u, u ∈ db -> eligible shop now productId collectionIds u ->
                   createdAt u <= createdAt t
  | None =>
      (forall u, u ∈ db -> ~ eligible shop now productId collectionIds u)
      /\ forall q, Js.truthy (q_shop q) = true ->
           normalizeShop (default "" (q_shop q)) = shop ->
           q_productId q = productId ->
           collectionIdArray (q_collectionIds q) = collectionIds ->
           statusCode (getTimer q now db) = 404
  end.
Proof.
  destruct (selectTimer shop now productId collectionIds db) as [t|] eqn:Hsel.
  - by apply selectTimer_Some.
  - split; [by apply selectTimer_None|].
    intros q Hq <- <- <-. unfold getTimer. rewrite Hq. simpl.
    by rewrite Hsel.
Qed.

Lemma select_newest_eligible_witness :
  let db := [fixedTimer (Instant 10) (Instant 20); evergreenTimer] in
  selectTimer "demo.myshopify.com" 15 None [] db = Some evergreenTimer
  /\ evergreenTimer ∈ db
  /\ eligible "demo.myshopify.com" 15 None [] evergreenTimer.
Proof.
  intros db. split; [reflexivity|].
  pose proof (select_newest_eligible "demo.myshopify.com" 15 None [] db) as H.
  change (selectTimer "demo.myshopify.com" 15 None [] db)
    with (Some evergreenTimer) in H.
  split; [exact (proj1 H)|exact (proj1 (proj2 H))].
Defined.

End SelectionProps.

(** ** The storefront payload *)

Module PayloadProps.
Import TimerModel Targeting Storefront SelectionProps.

Lemma activeQuery_owned shop now t :
  activeQuery shop now t = activeQuery shop now t && ownedBy shop t.
Proof.
  unfold activeQuery, ownedBy.
  destruct (String.eqb (TimerModel.shop t) shop); simpl; [|done].
  by rewrite andb_true_r.
Qed.

Lemma filter_activeQuery_owned shop now db :
  List.filter (activeQuery shop now) db
  = List.filter (activeQuery shop now) (List.filter (ownedBy shop) db).
Proof.
  induction db as [|t db IH]; simpl; [done|].
  rewrite (activeQuery_owned shop now t).
  destruct (ownedBy shop t); simpl.
  - rewrite andb_true_r. destruct (activeQuery shop now t); by rewrite IH.
  - by rewrite andb_false_r.
Qed.

(** The selection only reads the records of the requested shop. *)
Lemma selectTimer_owned shop now productId collectionIds db :
  selectTimer shop now productId collectionIds db
  = selectTimer shop now productId collectionIds (List.filter (ownedBy shop) db).
Proof.
  unfold selectTimer, findSorted. by rewrite filter_activeQuery_owned.
Qed.

Lemma getTimer_owned q now db :
  getTimer q now db
  = getTimer q now
      (List.filter (ownedBy (normalizeShop (default "" (q_shop q)))) db).
Proof. unfold getTimer. by rewrite <- selectTimer_owned. Qed.

Lemma keys_buildResponse t :
  keys (buildResponse t)
  = match type t with
    | Fixed => ["id"; "type"; "appearance"; "endDate"; "startDate"]
    | Evergreen => ["id"; "type"; "appearance"; "durationMinutes"]
    end.
Proof. unfold buildResponse. by destruct (type t). Qed.

(** C8.  A successful read answers with the payload of one record of the
    requested shop; the payload has exactly the properties id, type,
    appearance and the window fields of its kind, and is determined by
    those fields of the record alone (so neither the targeting lists nor
    the impressions nor any other field can show in it); and the answer
    is the same for any two collections that hold the same records of
    the requested shop, in particular when a record of another shop is
    added or removed. *)
Theorem payload_minimal_and_shop_isolated (q : TimerQuery) (now : Z)
    (db : list Timer) :
  (statusCode (getTimer q now db) = 200 ->
     exists t, t ∈ db
       /\ TimerModel.shop t = normalizeShop (default "" (q_shop q))
       /\ body (getTimer q now db)
          = VObject [ ("success", VBool true); ("data", buildResponse t) ])
  /\ (forall t,
        keys (buildResponse t)
        = match type t with
          | Fixed => ["id"; "type"; "appearance"; "endDate"; "startDate"]
          | Evergreen => ["id"; "type"; "appearance"; "durationMinutes"]
          end)
  /\ (forall t t',
        _id t = _id t' -> type t = type t' -> appearance t = appearance t' ->
        windowFields t = windowFields t' ->
        buildResponse t = buildResponse t')
  /\ (forall db' shop,
        q_shop q = Some shop ->
        List.filter (ownedBy (normalizeShop shop)) db
        = List.filter (ownedBy (normalizeShop shop)) db' ->
        getTimer q now db = getTimer q now db')
  /\ (forall l1 l2 r shop,
        q_shop q = Some shop -> db = l1 ++ l2 ->
        TimerModel.shop r <> normalizeShop shop ->
        getTimer q now (l1 ++ r :: l2) = getTimer q now db).
Proof.
  split; [|split; [exact keys_buildResponse|split; [|split]]].
  - unfold getTimer. destruct (Js.truthy (q_shop q)); simpl; [|done].
    destruct (selectTimer _ _ _ _ db) as [t|] eqn:Hsel; simpl; [|done].
    intros _. exists t.
    apply selectTimer_Some in Hsel as (Hin & (Hshop & _) & _). done.
  - intros t t' Hid Hty Happ Hwin. unfold buildResponse, windowFields in *.
    rewrite <- Hid, <- Hty, <- Happ.
    rewrite <- Hty in Hwin. revert Hwin.
    destruct (type t); intros Hwin; injection Hwin; intros; congruence.
  - intros db' shop Hshop Heq.
    rewrite (getTimer_owned q now db), (getTimer_owned q now db').
    rewrite Hshop. simpl. by rewrite Heq.
  - intros l1 l2 r shop Hshop -> Hr.
    rewrite (getTimer_owned q now (l1 ++ r :: l2)),
      (getTimer_owned q now (l1 ++ l2)).
    rewrite Hshop. simpl. f_equal.
    rewrite !List.filter_app. simpl. unfold ownedBy at 2.
    by apply String.eqb_neq in Hr as ->.
Qed.

Lemma payload_minimal_and_shop_isolated_witness :
  getTimer demoQuery 1000 [productTimer ["1"]]
  = getTimer demoQuery 1000 [foreignTimer; productTimer ["1"]]
  /\ statusCode (getTimer demoQuery 1000 [productTimer ["1"]]) = 200.
Proof.
  split; [|reflexivity].
  apply (proj1 (proj2 (proj2 (proj2
    (payload_minimal_and_shop_isolated demoQuery 1000 [productTimer ["1"]]))))
    [foreignTimer; productTimer ["1"]] "Demo.myshopify.com" eq_refl eq_refl).
Defined.

End PayloadProps.

(** ** Impression tracking *)

Module ImpressionProps.
Import TimerModel Targeting Storefront.

Lemma findOneAndUpdate_hit filter update l1 t l2 :
  filter t = true ->
  (forall u, u ∈ l1 -> filter u = false) ->
  findOneAndUpdate filter update (l1 ++ t :: l2)
  = (Some t, l1 ++ update t :: l2).
Proof.
  intros Ht. induction l1 as [|x l1 IH]; simpl; intros Hl1.
  - by rewrite Ht.
  - rewrite (Hl1 x) by left. rewrite IH; [done|].
    intros u Hu. apply Hl1. by right.
Qed.

Lemma findOneAndUpdate_miss filter update (db : list Timer) :
  (forall u, u ∈ db -> filter u = false) ->
  findOneAndUpdate filter update db = (None, db).
Proof.
  induction db as [|x db IH]; simpl; intros Hdb; [done|].
  rewrite (Hdb x) by left. rewrite IH; [done|].
  intros u Hu. apply Hdb. by right.
Qed.

(** With unique ids, at most one record passes the impression filter. *)
Lemma impressionFilter_unique castId id shop l1 t l2 :
  NoDup (_id <$> (l1 ++ t :: l2)) ->
  impressionFilter castId id shop t = true ->
  forall u, u ∈ l1 ++ l2 -> impressionFilter castId id shop u = false.
Proof.
  intros Hnd Ht u Hu.
  destruct (impressionFilter castId id shop u) eqn:Hfu; [exfalso|done].
  unfold impressionFilter in *.
  apply andb_true_iff in Ht as [Ht%String.eqb_eq _].
  apply andb_true_iff in Hfu as [Hfu%String.eqb_eq _].
  rewrite fmap_app, fmap_cons in Hnd.
  apply NoDup_app in Hnd as (Hnd1 & Hdisj & Hnd2).
  apply NoDup_cons in Hnd2 as [Hnot2 _].
  apply elem_of_app in Hu as [Hu|Hu].
  - apply (Hdisj (_id u)); [by apply list_elem_of_fmap_2|].
    rewrite Hfu, <- Ht. left.
  - apply Hnot2. rewrite Ht, <- Hfu. by apply list_elem_of_fmap_2.
Qed.

(** C10 as stated fails: for an id that is not a well-formed ObjectId no
    record matches, yet the answer is 400 "Invalid timer ID", not the
    not-found answer 404. *)
Lemma malformed_id_is_not_not_found :
  (forall u, u ∈ [storedTimer] ->
     impressionFilter hexObjectId "nope" None u = false)
  /\ statusCode (postImpression hex24 hexObjectId true 5000 "nope" VUndefined
                   [storedTimer]).1 = 400
  /\ statusCode (postImpression hex24 hexObjectId true 5000 "nope" VUndefined
                   [storedTimer]).1 <> 404
  /\ (postImpression hex24 hexObjectId true 5000 "nope" VUndefined
        [storedTimer]).2 = [storedTimer].
Proof.
  split; [|by vm_compute].
  by intros u ->%list_elem_of_singleton.
Qed.

(** It fails in two more ways.  A recorded impression also moves the
    [updatedAt] stamp of the record; and a request whose handling throws
    (here a body with the number 123 for [shop]) changes nothing and is
    still answered 200 "Impression recorded", not with the not-found
    answer. *)
Lemma impression_stamps_and_swallows :
  updatedAt (incImpressions 5000 storedTimer) <> updatedAt storedTimer
  /\ postImpression hex24 hexObjectId true 5000 "64b7f0c2a1d3e4f5a6b7c8d9"
       (VNumber 123) [storedTimer]
     = (recorded, [storedTimer])
  /\ postImpression hex24 hexObjectId false 5000 "64b7f0c2a1d3e4f5a6b7c8d9"
       VUndefined [storedTimer]
     = (recorded, [storedTimer]).
Proof. by vm_compute. Qed.

(** C10 (amended).  For a well-formed id, a body whose [shop] is falsy
    or a string, and a database call that resolves, recording an
    impression adds 1 to the impressions of the first record whose id is
    the ObjectId of the requested id (and whose shop is the given one, if
    one is given), which is the only such record when ids are unique,
    sets its [updatedAt] to the time of the write, leaves every other
    field of it and every other record as they were, and answers 200;
    when no record matches, the collection is unchanged and the answer is
    404.  For a malformed id the collection is unchanged and the answer
    is 400.  For a well-formed id, when the [shop] of the body is a
    truthy value that is not a string or the database call is rejected,
    the collection is unchanged and the answer is the 200 of a recorded
    impression. *)
Theorem impression_frame (isValid : string -> bool)
    (castId : string -> string) (available : bool) (now : Z) (id : string)
    (shop : JsValue) (db : list Timer) :
  (forall scope l1 t l2,
      isValid id = true ->
      available = true ->
      shopScope shop = Some scope ->
      db = l1 ++ t :: l2 ->
      impressionFilter castId id scope t = true ->
      (forall u, u ∈ l1 -> impressionFilter castId id scope u = false) ->
      let t' := incImpressions now t in
      (postImpression isValid castId available now id shop db).2
      = l1 ++ t' :: l2
      /\ statusCode (postImpression isValid castId available now id shop db).1
         = 200
      /\ _id t = castId id
      /\ impressions t' = impressions t + 1
      /\ updatedAt t' = now
      /\ (_id t', TimerModel.shop t', name t', type t', startDate t', endDate t')
         = (_id t, TimerModel.shop t, name t, type t, startDate t, endDate t)
      /\ (durationMinutes t', targeting t', appearance t', isActive t',
          isAiGenerated t', createdAt t')
         = (durationMinutes t, targeting t, appearance t, isActive t,
            isAiGenerated t, createdAt t)
      /\ (NoDup (_id <$> db) ->
          forall u, u ∈ l1 ++ l2 -> impressionFilter castId id scope u = false))
  /\ (forall scope,
        isValid id = true ->
        available = true ->
        shopScope shop = Some scope ->
        (forall u, u ∈ db -> impressionFilter castId id scope u = false) ->
        (postImpression isValid castId available now id shop db).2 = db
        /\ statusCode (postImpression isValid castId available now id shop db).1
           = 404)
  /\ (isValid id = false ->
      (postImpression isValid castId available now id shop db).2 = db
      /\ statusCode (postImpression isValid castId available now id shop db).1
         = 400)
  /\ (isValid id = true ->
      shopScope shop = None \/ available = false ->
      postImpression isValid castId available now id shop db = (recorded, db)).
Proof.
  split; [|split; [|split]].
  - intros scope l1 t l2 Hv Ha Hs -> Ht Hl1 t'. unfold postImpression.
    rewrite Hv, Hs, Ha. simpl.
    rewrite findOneAndUpdate_hit by done. simpl.
    split; [reflexivity|]. split; [reflexivity|].
    split.
    { unfold impressionFilter in Ht.
      by apply andb_true_iff in Ht as [Ht%String.eqb_eq _]. }
    repeat (split; [reflexivity|]).
    intros Hnd. by eapply impressionFilter_unique.
  - intros scope Hv Ha Hs Hnone. unfold postImpression. rewrite Hv, Hs, Ha. simpl.
    by rewrite findOneAndUpdate_miss.
  - intros Hv. unfold postImpression. by rewrite Hv.
  - intros Hv [Hs| ->]; unfold postImpression; rewrite Hv; simpl.
    + by rewrite Hs.
    + by destruct (shopScope shop).
Qed.

Lemma impression_frame_witness :
  (postImpression hex24 hexObjectId true 5000 "64B7F0C2A1D3E4F5A6B7C8D9"
     (VString "Demo.myshopify.com ") [foreignTimer; storedTimer]).2
  = [foreignTimer; incImpressions 5000 storedTimer]
  /\ impressions (incImpressions 5000 storedTimer) = 42
  /\ updatedAt (incImpressions 5000 storedTimer) = 5000.
Proof.
  split; [|split; reflexivity].
  apply (proj1 (impression_frame hex24 hexObjectId true 5000
                  "64B7F0C2A1D3E4F5A6B7C8D9" (VString "Demo.myshopify.com ")
                  [foreignTimer; storedTimer])
           (Some "Demo.myshopify.com ") [foreignTimer] storedTimer []
           eq_refl eq_refl eq_refl eq_refl eq_refl).
  intros u ->%list_elem_of_singleton. reflexivity.
Defined.

End ImpressionProps.

(** ** Printing and parsing numbers *)

Module JsNumberProps.
Import JsNumber.

Lemma digit_cases d :
  0 <= d < 10 ->
  d = 0 \/ d = 1 \/ d = 2 \/ d = 3 \/ d = 4 \/ d = 5 \/ d = 6 \/ d = 7
  \/ d = 8 \/ d = 9.
Proof. lia. Qed.

Lemma digitValue_digitChar d : 0 <= d < 10 -> digitValue (digitChar d) = Some d.
Proof.
  intros Hd. destruct (digit_cases d Hd) as
    [->|[->|[->|[->|[->|[->|[->|[->|[->| ->]]]]]]]]]; reflexivity.
Qed.

Lemma showDigits_S fuel n acc :
  showDigits (S fuel) n acc
  = if n <? 10 then String (digitChar (n mod 10)) acc
    else showDigits fuel (n / 10) (String (digitChar (n mod 10)) acc).
Proof. reflexivity. Qed.

Lemma parseDigits_showDigits fuel n s :
  0 <= n < 2 ^ Z.of_nat fuel ->
  parseDigits (showDigits (S fuel) n s) None = parseDigits s (Some n).
Proof.
  revert n s. induction fuel as [|fuel IH]; intros n s Hn.
  - assert (n = 0) as -> by (simpl in Hn; lia). reflexivity.
  - rewrite showDigits_S. destruct (Z.ltb_spec n 10) as [Hlt|Hge].
    + cbn [parseDigits]. rewrite Z.mod_small by lia.
      rewrite digitValue_digitChar by lia.
      by replace (10 * default 0 None + n) with n by (simpl; lia).
    + rewrite IH.
      * cbn [parseDigits].
        rewrite digitValue_digitChar by (apply Z.mod_pos_bound; lia).
        replace (10 * default 0 (Some (n / 10)) + n mod 10) with n; [done|].
        simpl. pose proof (Z.div_mod n 10). lia.
      * rewrite Nat2Z.inj_succ, Z.pow_succ_r in Hn by lia.
        split; [apply Z.div_pos; lia|].
        apply Z.div_lt_upper_bound; lia.
Qed.

Lemma showDigits_head fuel n s :
  exists d rest, 0 <= d < 10 /\ showDigits (S fuel) n s = String (digitChar d) rest.
Proof.
  revert n s. induction fuel as [|fuel IH]; intros n s.
  - exists (n mod 10), s. split; [apply Z.mod_pos_bound; lia|].
    simpl. by destruct (n <? 10).
  - rewrite showDigits_S. destruct (n <? 10).
    + exists (n mod 10), s. split; [apply Z.mod_pos_bound; lia|done].
    + apply IH.
Qed.

Lemma parseInt_digit_head d rest :
  0 <= d < 10 ->
  parseInt (String (digitChar d) rest) = parseDigits (String (digitChar d) rest) None.
Proof.
  intros Hd. destruct (digit_cases d Hd) as
    [->|[->|[->|[->|[->|[->|[->|[->|[->| ->]]]]]]]]]; reflexivity.
Qed.

Lemma fuelFor_bound n :
  0 <= n -> 0 <= n < 2 ^ Z.of_nat (Z.to_nat (Z.succ (Z.log2 n))).
Proof.
  intros Hn. rewrite Z2Nat.id by (pose proof (Z.log2_nonneg n); lia).
  split; [done|].
  destruct (Z.eq_dec n 0) as [->|Hne]; [done|].
  apply Z.log2_spec. lia.
Qed.

Lemma toString_nonempty n : toString n <> EmptyString.
Proof.
  unfold toString, fuelFor. destruct (n <? 0); [done|].
  destruct (showDigits_head (Z.to_nat (Z.succ (Z.log2 n))) n EmptyString)
    as (d & rest & _ & ->). done.
Qed.

(** [parseInt(String(n), 10) = n]. *)
Lemma parseInt_toString n : parseInt (toString n) = Some n.
Proof.
  unfold toString, fuelFor. destruct (Z.ltb_spec n 0) as [Hneg|Hpos].
  - unfold parseInt. cbn [JsString.trimStart]. simpl Ascii.is_space. cbv iota.
    rewrite parseDigits_showDigits by (apply fuelFor_bound; lia).
    simpl. f_equal. lia.
  - destruct (showDigits_head (Z.to_nat (Z.succ (Z.log2 n))) n EmptyString)
      as (d & rest & Hd & Heq).
    rewrite Heq, parseInt_digit_head by done. rewrite <- Heq.
    by rewrite parseDigits_showDigits by (by apply fuelFor_bound).
Qed.

Lemma truthy_toString n : Js.truthy (Some (toString n)) = true.
Proof.
  simpl. destruct (String.eqb_spec (toString n) ""); [|done].
  by destruct (toString_nonempty n).
Qed.

End JsNumberProps.

(** ** The evergreen session clock *)

Module SessionClockProps.
Import Widget JsNumberProps.

#[local] Arguments JsNumber.toString : simpl never.
#[local] Arguments JsNumber.parseInt : simpl never.
#[local] Arguments getStorageKey : simpl never.

Ltac run_widget :=
  unfold setupTimerEndpoint, evergreen, frozen, workingStorage, bind,
    tryCatch, ret, getItem, setItem, removeItem, dateNow, advance,
    durationMs, withStorage, withItems;
  cbn [type id durationMinutes localStorage items getThrows setThrows
       removeThrows clock reads Js.mul].

Lemma ge_elapsed now start d :
  Js.ge (Js.sub (Some now) (Some start)) (Some (d * 60 * 1000))
  = (d * 60 * 1000 <=? now - start).
Proof. reflexivity. Qed.

Ltac read_stored Hsome :=
  rewrite Hsome;
  change (default EmptyString (Some ?x)) with x;
  rewrite truthy_toString, parseInt_toString, ge_elapsed;
  cbn [clock reads].

(** [setupTimerEndpoint] never lets an exception escape. *)
Lemma setupTimerEndpoint_returns timer w :
  exists endTime, (setupTimerEndpoint timer w).1 = Returned endTime.
Proof.
  unfold setupTimerEndpoint, bind, tryCatch, ret, getItem, setItem,
    removeItem, dateNow, advance.
  destruct (type timer); simpl; [eauto|].
  destruct (getThrows (localStorage w)); simpl; [eauto|].
  destruct (Js.truthy _); simpl.
  - destruct (Js.ge _ _); simpl; [|eauto].
    destruct (removeThrows (localStorage w)); simpl; [eauto|].
    destruct (setThrows (localStorage w)); simpl; eauto.
  - destruct (setThrows (localStorage w)); simpl; eauto.
Qed.

(** On a running clock the rearm judges expiry on one reading and stores
    the next one. *)
Lemma rearm_reads_clock_twice (timerId : string) (durationMinutes : Z)
    (m : gmap string string) (c : nat -> Z) (r : nat) (start : Z) :
  m !! getStorageKey timerId = Some (JsNumber.toString start) ->
  c r - start >= durationMinutes * 60000 ->
  let run :=
    setupTimerEndpoint (evergreen timerId durationMinutes)
      {| localStorage := workingStorage m; clock := c; reads := r |} in
  run.1 = Returned (Some (c (S r) + durationMinutes * 60000))
  /\ items (localStorage run.2)
     = <[getStorageKey timerId := JsNumber.toString (c (S r))]> m
  /\ reads run.2 = S (S r).
Proof.
  intros Hsome Hout run. subst run. run_widget. read_stored Hsome.
  destruct (Z.leb_spec (durationMinutes * 60 * 1000) (c r - start)); [|lia].
  simpl. split; [do 2 f_equal; lia|]. split; [|done].
  apply insert_delete_eq.
Qed.

(** Three visits with a 60-minute timer: the first at [n] creates the
    entry, the second 30 minutes later continues it, the third 61 minutes
    after the first rearms. *)
Example three_visits :
  let n := 1700000000000 in
  let visit ls now :=
    setupTimerEndpoint (evergreen "t1" 60) (frozen ls now 0) in
  let v1 := visit (workingStorage ∅) n in
  let v2 := visit (localStorage v1.2) (n + 30 * 60000) in
  let v3 := visit (localStorage v2.2) (n + 61 * 60000) in
  v1.1 = Returned (Some (n + 3600000))
  /\ v2.1 = Returned (Some (n + 3600000))
  /\ v3.1 = Returned (Some (n + 61 * 60000 + 3600000))
  /\ items (localStorage v3.2) !! "countdown_timer_t1"
     = Some "1700003660000".
Proof. by vm_compute. Qed.

(** C3.  With a working storage and the clock at [now]: on a store
    without an entry for the timer the start [now] is written and
    [now + durationMinutes * 60000] returned; with a stored start still
    inside the window, [start + durationMinutes * 60000] is returned and
    the store is left as it is; with a stored start whose window has
    elapsed, the entry is overwritten with [now] and
    [now + durationMinutes * 60000] returned. *)
Theorem evergreen_resolution (timerId : string) (durationMinutes now : Z)
    (m : gmap string string) (r : nat) :
  0 < durationMinutes ->
  let key := getStorageKey timerId in
  let run :=
    setupTimerEndpoint (evergreen timerId durationMinutes)
      (frozen (workingStorage m) now r) in
  (m !! key = None ->
     run.1 = Returned (Some (now + durationMinutes * 60000))
     /\ items (localStorage run.2) = <[key := JsNumber.toString now]> m)
  /\ (forall start,
        m !! key = Some (JsNumber.toString start) ->
        now - start < durationMinutes * 60000 ->
        run.1 = Returned (Some (start + durationMinutes * 60000))
        /\ items (localStorage run.2) = m)
  /\ (forall start,
        m !! key = Some (JsNumber.toString start) ->
        now - start >= durationMinutes * 60000 ->
        run.1 = Returned (Some (now + durationMinutes * 60000))
        /\ items (localStorage run.2) = <[key := JsNumber.toString now]> m).
Proof.
  intros Hd key run. subst run key. split; [|split].
  - intros Hnone. run_widget. rewrite Hnone. simpl.
    split; [|done]. do 2 f_equal. lia.
  - intros start Hsome Hin. run_widget. read_stored Hsome.
    destruct (Z.leb_spec (durationMinutes * 60 * 1000) (now - start)); [lia|].
    simpl. split; [|done]. do 2 f_equal. lia.
  - intros start Hsome Hout. run_widget. read_stored Hsome.
    destruct (Z.leb_spec (durationMinutes * 60 * 1000) (now - start)); [|lia].
    simpl. split; [do 2 f_equal; lia|].
    apply insert_delete_eq.
Qed.

Lemma evergreen_resolution_witness :
  (setupTimerEndpoint (evergreen "t1" 60) (frozen (workingStorage ∅) 1000000 0)).1
  = Returned (Some (1000000 + 60 * 60000)).
Proof.
  apply (proj1 (evergreen_resolution "t1" 60 1000000 ∅ 0 ltac:(lia))).
  reflexivity.
Defined.

(** C9.  Whatever the storage handle does, [setupTimerEndpoint] returns
    normally.  When reading the entry throws, or a write that the
    resolution attempts (removing or storing the start) throws, the
    result is [now + durationMinutes * 60000] for the clock reading
    [now], and that start is not stored. *)
Theorem storage_failure_falls_back (timerId : string)
    (durationMinutes now : Z) (ls : LocalStorage) (r : nat) :
  let key := getStorageKey timerId in
  let run :=
    setupTimerEndpoint (evergreen timerId durationMinutes) (frozen ls now r) in
  let fallback := Returned (Some (now + durationMinutes * 60000)) in
  (forall timer w, exists endTime, (setupTimerEndpoint timer w).1 = Returned endTime)
  /\ (getThrows ls = true -> run.1 = fallback /\ localStorage run.2 = ls)
  /\ (getThrows ls = false -> setThrows ls = true ->
      Js.truthy (items ls !! key) = false ->
      run.1 = fallback /\ localStorage run.2 = ls)
  /\ (forall start,
        getThrows ls = false ->
        items ls !! key = Some (JsNumber.toString start) ->
        now - start >= durationMinutes * 60000 ->
        removeThrows ls = true ->
        run.1 = fallback /\ localStorage run.2 = ls)
  /\ (forall start,
        getThrows ls = false ->
        items ls !! key = Some (JsNumber.toString start) ->
        now - start >= durationMinutes * 60000 ->
        removeThrows ls = false -> setThrows ls = true ->
        run.1 = fallback
        /\ items (localStorage run.2) = delete key (items ls)
        /\ items (localStorage run.2) !! key = None).
Proof.
  intros key run fallback. subst run key fallback.
  split; [exact setupTimerEndpoint_returns|].
  split; [|split; [|split]].
  - intros Hget. run_widget. rewrite Hget. simpl.
    split; [do 2 f_equal; lia|done].
  - intros Hget Hset Hfalsy. run_widget. rewrite Hget, Hfalsy. simpl.
    rewrite Hset. simpl.
    split; [do 2 f_equal; lia|done].
  - intros start Hget Hsome Hout Hrem. run_widget. rewrite Hget.
    read_stored Hsome.
    destruct (Z.leb_spec (durationMinutes * 60 * 1000) (now - start)); [|lia].
    simpl. rewrite Hrem. simpl. split; [do 2 f_equal; lia|done].
  - intros start Hget Hsome Hout Hrem Hset. run_widget. rewrite Hget.
    read_stored Hsome.
    destruct (Z.leb_spec (durationMinutes * 60 * 1000) (now - start)); [|lia].
    simpl. rewrite Hrem. simpl. rewrite Hset. simpl.
    split; [do 2 f_equal; lia|]. split; [done|]. apply lookup_delete_eq.
Qed.

Lemma storage_failure_falls_back_witness :
  (setupTimerEndpoint (evergreen "t1" 60)
     (frozen {| items := ∅; getThrows := true; setThrows := true;
                removeThrows := true |} 1000000 0)).1
  = Returned (Some (1000000 + 60 * 60000)).
Proof.
  apply (proj1 (proj2 (storage_failure_falls_back "t1" 60 1000000
           {| items := ∅; getThrows := true; setThrows := true;
              removeThrows := true |} 0))).
  reflexivity.
Defined.

End SessionClockProps.

(** ** The countdown display and loop *)

Module CountdownProps.
Import Widget.

(** The decomposition of the utilities: days, hours, minutes, seconds. *)
Lemma utils_decomposition ms :
  0 <= ms ->
  let t := TimerUtils.parseTimeRemaining ms in
  TimerUtils.days t * 86400 + TimerUtils.hours t * 3600
    + TimerUtils.minutes t * 60 + TimerUtils.seconds t = ms / 1000
  /\ 0 <= TimerUtils.days t
  /\ 0 <= TimerUtils.hours t < 24
  /\ 0 <= TimerUtils.minutes t < 60
  /\ 0 <= TimerUtils.seconds t < 60
  /\ (TimerUtils.expired t = true <-> ms = 0).
Proof.
  intros Hms. unfold TimerUtils.parseTimeRemaining.
  destruct (Z.leb_spec ms 0) as [Hle|Hgt]; simpl.
  - assert (ms = 0) as -> by lia. repeat split; try lia; done.
  - repeat split; try discriminate; try lia;
      Z.div_mod_to_equations; lia.
Qed.

(** The decomposition of the widget: hours, minutes, seconds; the hours
    are not reduced modulo 24. *)
Lemma widget_decomposition ms :
  let t := parseTimeRemaining ms in
  hours t * 3600 + minutes t * 60 + seconds t = Z.max 0 ms / 1000
  /\ 0 <= hours t
  /\ 0 <= minutes t < 60
  /\ 0 <= seconds t < 60
  /\ (expired t = true <-> ms <= 0).
Proof.
  unfold parseTimeRemaining.
  destruct (Z.leb_spec ms 0) as [Hle|Hgt]; simpl.
  - rewrite Z.max_l by lia. repeat split; try lia; done.
  - rewrite Z.max_r by lia.
    repeat split; try discriminate; try lia;
      Z.div_mod_to_equations; lia.
Qed.

Lemma expired_parseTimeRemaining ms :
  expired (parseTimeRemaining ms) = (ms <=? 0).
Proof. unfold parseTimeRemaining. by destruct (ms <=? 0). Qed.

Section Loop.
(** A rendered widget [p] that is not counting yet, whose end instant
    [e] lies after the clock reading of its first update. *)
Variables (p : Page) (e : Z).
Hypothesis Hend : endTime p = Some e.
Hypothesis Hnone : intervals p = ∅.
Hypothesis Hexp : expiries p = 0%nat.
Hypothesis Hhandle : (0 < nextHandle p)%nat.
Hypothesis Hstart : clock (world p) (reads (world p)) < e.

Lemma startCountdown_running : running p e 0 (startCountdown p).
Proof.
  unfold running, startCountdown, updateCountdown. simpl.
  rewrite Hend. simpl. rewrite expired_parseTimeRemaining.
  destruct (Z.leb_spec (e - clock (world p) (reads (world p))) 0); [lia|].
  simpl. rewrite Hend, Hnone, Hexp.
  repeat split; try done; try lia.
  apply union_empty_r_L.
Qed.

Lemma fire_running n q :
  running p e n q ->
  (clock (world p) (reads (world p) + 1 + n)%nat < e ->
     running p e (S n) (fire (nextHandle p) q))
  /\ (e <= clock (world p) (reads (world p) + 1 + n)%nat ->
      stopped e (fire (nextHandle p) q)).
Proof.
  intros (Hqe & Hqid & Hqint & Hqexp & Hqc & Hqr).
  unfold fire.
  rewrite decide_True by (rewrite Hqint; by apply elem_of_singleton).
  unfold updateCountdown. simpl. rewrite Hqe, Hqc, Hqr. simpl.
  rewrite expired_parseTimeRemaining. split; intros Hcmp.
  - destruct (Z.leb_spec
                (e - clock (world p) (reads (world p) + 1 + n)%nat) 0);
      [lia|].
    unfold running. simpl. rewrite Hqe, Hqid, Hqint, Hqexp, Hqc, Hqr.
    repeat split; try done; lia.
  - destruct (Z.leb_spec
                (e - clock (world p) (reads (world p) + 1 + n)%nat) 0);
      [|lia].
    unfold stopped, handleExpired. simpl. rewrite Hqid.
    destruct (Nat.eqb_spec (nextHandle p) 0) as [Hz|_]; [lia|].
    unfold signalExpiry. simpl.
    destruct (type (timer q)); simpl; rewrite Hqe, Hqint, Hqexp;
      repeat split; try done; apply difference_diag_L.
Qed.

Lemma fire_stopped q : stopped e q -> fire (nextHandle p) q = q.
Proof.
  intros (_ & _ & Hqint & _). unfold fire.
  rewrite decide_False; [done|]. rewrite Hqint. apply not_elem_of_empty.
Qed.

(** After [n] ticks the loop is either counting, every reading so far
    lying before [e], or stopped after one expiry signal, some reading
    having reached [e]. *)
Lemma loop_invariant n :
  let q := Nat.iter n (fire (nextHandle p)) (startCountdown p) in
  (running p e n q
   /\ forall k, (k < n)%nat ->
                clock (world p) (reads (world p) + 1 + k)%nat < e)
  \/ (stopped e q
      /\ exists k, (k < n)%nat
                   /\ e <= clock (world p) (reads (world p) + 1 + k)%nat).
Proof.
  induction n as [|n IH]; simpl.
  - left. split; [apply startCountdown_running|]. intros k Hk. lia.
  - destruct IH as [[Hrun Hall]|[Hstop (k & Hk & Hek)]].
    + destruct (fire_running n _ Hrun) as [Hgo Hhalt].
      destruct (Z.lt_ge_cases
                  (clock (world p) (reads (world p) + 1 + n)%nat) e)
        as [Hlt|Hge].
      * left. split; [by apply Hgo|].
        intros k Hk. destruct (decide (k = n)) as [->|Hne]; [done|].
        apply Hall. lia.
      * right. split; [by apply Hhalt|]. exists n. split; [lia|done].
    + right. rewrite fire_stopped by done. split; [done|].
      exists k. split; [lia|done].
Qed.

End Loop.

(** C6 as stated fails in the widget: with 25 hours remaining its
    decomposition has 25 hours (and no days), and it shows "25:00:00". *)
Lemma widget_hours_exceed_a_day :
  hours (parseTimeRemaining 90000000) = 25
  /\ ~ hours (parseTimeRemaining 90000000) < 24
  /\ minutes (parseTimeRemaining 90000000) = 0
  /\ seconds (parseTimeRemaining 90000000) = 0
  /\ firstDisplay 90000000 = "25:00:00".
Proof. split; [|split; [|split; [|split]]]; by vm_compute. Qed.

(** A countdown started when its end instant has already passed signals
    expiry at the start and again at the first tick. *)
Lemma late_start_signals_twice :
  let p := rendered (fixed "t1" 500) 500 (everySecond 1000) in
  expiries (startCountdown p) = 1%nat
  /\ intervals (startCountdown p) = {[1%nat]}
  /\ expiries (fire 1 (startCountdown p)) = 2%nat
  /\ intervals (fire 1 (startCountdown p)) = ∅.
Proof. by vm_compute. Qed.

(** C6 (amended).  The utilities compute [max(0, endInstant - now)] and
    decompose it into days, hours, minutes and seconds by integer division
    (hours < 24, minutes < 60, seconds < 60); the widget decomposes the
    remaining time into hours, minutes and seconds only, the hours
    unbounded; 3661000 ms show as 01:01:01 in both; and a countdown
    started while time remains signals expiry once, at the first tick
    whose clock reading has reached the end instant, and stops ticking. *)
Theorem countdown_decomposition_and_expiry :
  (forall endInstant now,
      TimerUtils.calculateTimeRemaining (TimerModel.Instant endInstant) now
      = Some (Z.max 0 (endInstant - now)))
  /\ (forall ms,
        0 <= ms ->
        let t := TimerUtils.parseTimeRemaining ms in
        TimerUtils.days t * 86400 + TimerUtils.hours t * 3600
          + TimerUtils.minutes t * 60 + TimerUtils.seconds t = ms / 1000
        /\ 0 <= TimerUtils.days t
        /\ 0 <= TimerUtils.hours t < 24
        /\ 0 <= TimerUtils.minutes t < 60
        /\ 0 <= TimerUtils.seconds t < 60
        /\ (TimerUtils.expired t = true <-> ms = 0))
  /\ (forall ms,
        let t := parseTimeRemaining ms in
        hours t * 3600 + minutes t * 60 + seconds t = Z.max 0 ms / 1000
        /\ 0 <= hours t
        /\ 0 <= minutes t < 60
        /\ 0 <= seconds t < 60
        /\ (expired t = true <-> ms <= 0))
  /\ TimerUtils.formatCountdown (TimerUtils.parseTimeRemaining 3661000)
     = "01:01:01"
  /\ firstDisplay 3661000 = "01:01:01"
  /\ (forall (p : Page) (e : Z) (n : nat),
        endTime p = Some e -> intervals p = ∅ ->
        expiries p = 0%nat -> (0 < nextHandle p)%nat ->
        clock (world p) (reads (world p)) < e ->
        let tick k := clock (world p) (reads (world p) + 1 + k)%nat in
        let q := Nat.iter n (fire (nextHandle p)) (startCountdown p) in
        (expiries q <= 1)%nat
        /\ ((exists k, (k < n)%nat /\ e <= tick k) ->
            expiries q = 1%nat /\ intervals q = ∅ /\ intervalId q = None)
        /\ ((forall k, (k < n)%nat -> tick k < e) ->
            expiries q = 0%nat /\ intervals q = {[nextHandle p]})).
Proof.
  split; [done|]. split; [exact utils_decomposition|].
  split; [exact widget_decomposition|].
  split; [by vm_compute|]. split; [by vm_compute|].
  intros p e n Hend Hnone Hexp Hh Hstart tick q.
  destruct (loop_invariant p e Hend Hnone Hexp Hh Hstart n)
    as [[Hrun Hall]|[Hstop (k & Hk & Hek)]]; fold q in Hrun || fold q in Hstop.
  - destruct Hrun as (_ & _ & Hint & Hq & _).
    split; [lia|]. split.
    + intros (k & Hk & Hek). specialize (Hall k Hk). subst tick. simpl in *. lia.
    + done.
  - destruct Hstop as (_ & Hqid & Hint & Hq).
    split; [lia|]. split; [done|].
    intros Hall. specialize (Hall k Hk). subst tick. simpl in *. lia.
Qed.

Lemma countdown_decomposition_and_expiry_witness :
  let p := rendered (fixed "t1" 5000) 5000 (everySecond 1000) in
  expiries (Nat.iter 9 (fire 1) (startCountdown p)) = 1%nat
  /\ intervals (Nat.iter 9 (fire 1) (startCountdown p)) = ∅.
Proof.
  intros p.
  destruct (proj2 (proj2 (proj2 (proj2 (proj2
              countdown_decomposition_and_expiry))))
              p 5000 9%nat eq_refl eq_refl eq_refl
              ltac:(simpl; lia) ltac:(vm_compute; reflexivity))
    as (_ & Hstop & _).
  destruct Hstop as (H1 & H2 & _).
  - exists 3%nat. split; [lia|]. vm_compute. discriminate.
  - split; [exact H1|exact H2].
Defined.

End CountdownProps.


(** ** Session state across timers and visits *)

Module SessionStateProps.
Import Widget JsNumberProps.

#[local] Arguments JsNumber.toString : simpl never.
#[local] Arguments JsNumber.parseInt : simpl never.
#[local] Arguments getStorageKey : simpl never.

Lemma getStorageKey_inj a b : getStorageKey a = getStorageKey b -> a = b.
Proof. unfold getStorageKey. apply String.app_inj. Qed.

(** What the storage operations of one resolution may do to the store. *)
Lemma setupTimerEndpoint_items timer w :
  let m := items (localStorage w) in
  let key := getStorageKey (id timer) in
  let m' := items (localStorage (setupTimerEndpoint timer w).2) in
  (m' = m \/ m' = delete key m \/ exists v, m' = <[key := v]> m)
  /\ getThrows (localStorage (setupTimerEndpoint timer w).2) = getThrows (localStorage w)
  /\ setThrows (localStorage (setupTimerEndpoint timer w).2) = setThrows (localStorage w)
  /\ removeThrows (localStorage (setupTimerEndpoint timer w).2)
     = removeThrows (localStorage w).
Proof.
  unfold setupTimerEndpoint, bind, tryCatch, ret, getItem, setItem,
    removeItem, dateNow, advance, withStorage, withItems.
  destruct (type timer); simpl; [auto|].
  destruct (getThrows (localStorage w)) eqn:Hget; simpl; [by rewrite Hget; auto|].
  destruct (Js.truthy _); simpl.
  - destruct (Js.ge _ _); simpl; [|by rewrite Hget; auto].
    destruct (removeThrows (localStorage w)) eqn:Hrem; simpl;
      [by rewrite Hget, Hrem; auto|].
    destruct (setThrows (localStorage w)) eqn:Hset; simpl.
    + rewrite Hget. auto.
    + rewrite Hget. split; [|done]. right. right. eexists.
      apply insert_delete_eq.
  - destruct (setThrows (localStorage w)) eqn:Hset; simpl.
    + rewrite Hget, Hset. auto.
    + rewrite Hget. split; [|done]. right. right. by eexists.
Qed.

(** X1.  Resolving the end instant of one timer never touches the stored
    start of another timer: storage keys of different timer ids are
    different, and only the resolved timer's key is written or removed. *)
Theorem other_timers_untouched (timer : WidgetTimer) (w : World)
    (otherId : string) :
  otherId <> id timer ->
  getStorageKey otherId <> getStorageKey (id timer)
  /\ items (localStorage (setupTimerEndpoint timer w).2) !! getStorageKey otherId
     = items (localStorage w) !! getStorageKey otherId.
Proof.
  intros Hne.
  assert (getStorageKey otherId <> getStorageKey (id timer)) as Hkey
    by (intros Heq; by apply Hne, getStorageKey_inj).
  split; [done|].
  destruct (setupTimerEndpoint_items timer w) as ([-> | [-> | [v ->]]] & _).
  - done.
  - by rewrite lookup_delete_ne.
  - by rewrite lookup_insert_ne.
Qed.

Lemma other_timers_untouched_witness :
  items (localStorage
           (setupTimerEndpoint (evergreen "t1" 60)
              (frozen (workingStorage {[ "countdown_timer_t2" := "5" ]})
                 1000000 0)).2) !! getStorageKey "t2"
  = Some "5".
Proof.
  rewrite (proj2 (other_timers_untouched (evergreen "t1" 60)
                    (frozen (workingStorage {[ "countdown_timer_t2" := "5" ]})
                       1000000 0) "t2" ltac:(discriminate))).
  reflexivity.
Defined.

Ltac run_setup :=
  unfold setupTimerEndpoint, evergreen, frozen, workingStorage, bind,
    tryCatch, ret, getItem, setItem, removeItem, dateNow, advance,
    durationMs, withStorage, withItems;
  cbn [type id durationMinutes localStorage items getThrows setThrows
       removeThrows clock reads Js.mul].

(** A resolution that finds no usable entry starts a window at [now]. *)
Lemma setup_fresh timerId d m now r :
  Js.truthy (m !! getStorageKey timerId) = false ->
  setupTimerEndpoint (evergreen timerId d) (frozen (workingStorage m) now r)
  = (Returned (Some (now + d * 60000)),
     frozen (workingStorage (<[getStorageKey timerId := JsNumber.toString now]> m))
       now (S r)).
Proof.
  intros Hfalsy. run_setup. rewrite Hfalsy. simpl.
  do 3 f_equal. lia.
Qed.

(** A resolution that finds the start [start] continues its window, or
    starts a new one at [now] when the window has elapsed. *)
Lemma setup_stored timerId d m now r start :
  m !! getStorageKey timerId = Some (JsNumber.toString start) ->
  setupTimerEndpoint (evergreen timerId d) (frozen (workingStorage m) now r)
  = if d * 60000 <=? now - start
    then (Returned (Some (now + d * 60000)),
          frozen (workingStorage
                    (<[getStorageKey timerId := JsNumber.toString now]> m))
            now (S (S r)))
    else (Returned (Some (start + d * 60000)),
          frozen (workingStorage m) now (S r)).
Proof.
  intros Hsome. run_setup. rewrite Hsome.
  change (default EmptyString (Some ?x)) with x.
  rewrite truthy_toString, parseInt_toString. cbn [clock reads].
  change (Js.ge (Js.sub (Some now) (Some start)) (Some (d * 60 * 1000)))
    with (d * 60 * 1000 <=? now - start).
  replace (d * 60 * 1000) with (d * 60000) by lia.
  destruct (d * 60000 <=? now - start); simpl.
  - by rewrite insert_delete_eq.
  - done.
Qed.

(** X2.  Two visits.  Starting from a store that holds no usable entry
    for the timer or a start written by an earlier visit, the first
    resolution leaves a start in the store and returns an end instant
    after [now]; a second resolution at any later reading before that end
    instant returns the same end instant and leaves the storage as it is,
    and one at or after it starts a new window. *)
Theorem second_visit_continues (timerId : string) (d now now' : Z)
    (m : gmap string string) (r r' : nat) :
  0 < d ->
  (Js.truthy (m !! getStorageKey timerId) = false
   \/ exists start, m !! getStorageKey timerId = Some (JsNumber.toString start)) ->
  let v1 :=
    setupTimerEndpoint (evergreen timerId d) (frozen (workingStorage m) now r) in
  let v2 :=
    setupTimerEndpoint (evergreen timerId d) (frozen (localStorage v1.2) now' r') in
  exists start endInstant,
    v1.1 = Returned (Some endInstant)
    /\ items (localStorage v1.2) !! getStorageKey timerId
       = Some (JsNumber.toString start)
    /\ endInstant = start + d * 60000
    /\ now < endInstant
    /\ (now' < endInstant ->
        v2.1 = Returned (Some endInstant)
        /\ localStorage v2.2 = localStorage v1.2)
    /\ (endInstant <= now' ->
        v2.1 = Returned (Some (now' + d * 60000))).
Proof.
  intros Hd Hm v1 v2.
  assert (exists start m1,
             v1 = (Returned (Some (start + d * 60000)),
                   frozen (workingStorage m1) now (reads v1.2))
             /\ m1 !! getStorageKey timerId = Some (JsNumber.toString start)
             /\ now < start + d * 60000) as (start & m1 & Hv1 & Hm1 & Hlt).
  { subst v1. destruct Hm as [Hfalsy|[start Hsome]].
    - exists now, (<[getStorageKey timerId := JsNumber.toString now]> m).
      rewrite setup_fresh by done. simpl.
      split; [done|]. split; [apply lookup_insert_eq|lia].
    - rewrite (setup_stored _ _ _ _ _ start) by done.
      destruct (Z.leb_spec (d * 60000) (now - start)).
      + exists now, (<[getStorageKey timerId := JsNumber.toString now]> m).
        simpl. split; [done|]. split; [apply lookup_insert_eq|lia].
      + exists start, m. simpl. split; [done|]. split; [done|lia]. }
  exists start, (start + d * 60000). subst v2. rewrite Hv1. simpl.
  split; [done|]. split; [done|]. split; [done|]. split; [done|].
  change {| items := m1; getThrows := false; setThrows := false;
            removeThrows := false |} with (workingStorage m1).
  rewrite (setup_stored _ _ _ _ _ start) by done.
  split; intros Hcmp.
  - destruct (Z.leb_spec (d * 60000) (now' - start)); [lia|]. done.
  - destruct (Z.leb_spec (d * 60000) (now' - start)); [|lia]. done.
Qed.

Lemma second_visit_continues_witness :
  (setupTimerEndpoint (evergreen "t1" 60)
     (frozen (localStorage
                (setupTimerEndpoint (evergreen "t1" 60)
                   (frozen (workingStorage ∅) 1000000 0)).2)
        (1000000 + 30 * 60000) 0)).1
  = Returned (Some (1000000 + 60 * 60000)).
Proof.
  destruct (second_visit_continues "t1" 60 1000000 (1000000 + 30 * 60000)
              ∅ 0 0 ltac:(lia) ltac:(left; reflexivity))
    as (start & e & Hv1 & _ & _ & _ & Hsame & _).
  assert (e = 1000000 + 60 * 60000) as ->.
  { vm_compute in Hv1. by injection Hv1. }
  apply Hsame. lia.
Defined.

(** X3.  A stored value that does not begin with a number is never
    repaired: the resolution returns NaN as the end instant and leaves the
    entry in place, and a countdown towards NaN shows "NaN:NaN:NaN" at
    every update without ever signalling expiry or stopping. *)
Theorem corrupted_entry_never_heals (timerId stored : string) (d : Z)
    (w : World) (p : Page) :
  getThrows (localStorage w) = false ->
  items (localStorage w) !! getStorageKey timerId = Some stored ->
  stored <> EmptyString ->
  JsNumber.parseInt stored = None ->
  endTime p = None ->
  (setupTimerEndpoint (evergreen timerId d) w).1 = Returned None
  /\ localStorage (setupTimerEndpoint (evergreen timerId d) w).2 = localStorage w
  /\ timeDisplay (updateCountdown p) = "NaN:NaN:NaN"
  /\ endTime (updateCountdown p) = None
  /\ expiries (updateCountdown p) = expiries p
  /\ intervals (updateCountdown p) = intervals p
  /\ restarts (updateCountdown p) = restarts p.
Proof.
  intros Hget Hsome Hne Hnan Hend.
  split; [|split].
  - run_setup. rewrite Hget, Hsome.
    change (default EmptyString (Some ?x)) with x.
    cbn [Js.truthy]. rewrite (proj2 (String.eqb_neq _ _) Hne). cbn [negb].
    rewrite Hnan. reflexivity.
  - run_setup. rewrite Hget, Hsome.
    change (default EmptyString (Some ?x)) with x.
    cbn [Js.truthy]. rewrite (proj2 (String.eqb_neq _ _) Hne). cbn [negb].
    rewrite Hnan. by destruct (localStorage w).
  - unfold updateCountdown. simpl. rewrite Hend. simpl. done.
Qed.

Lemma corrupted_entry_never_heals_witness :
  (setupTimerEndpoint (evergreen "t1" 60)
     (frozen (workingStorage {[ "countdown_timer_t1" := "soon" ]}) 1000000 0)).1
  = Returned None.
Proof.
  apply (proj1 (corrupted_entry_never_heals "t1" "soon" 60
                  (frozen (workingStorage {[ "countdown_timer_t1" := "soon" ]})
                     1000000 0)
                  {| timer := evergreen "t1" 60; endTime := None;
                     intervalId := None; displayNone := false;
                     timeDisplay := "00:00:00";
                     world := frozen (workingStorage ∅) 0 0; intervals := ∅;
                     nextHandle := 1; restarts := 0; expiries := 0 |}
                  ltac:(reflexivity) ltac:(reflexivity) ltac:(discriminate)
                  ltac:(reflexivity) ltac:(reflexivity))).
Defined.

End SessionStateProps.

(** ** Restart after expiry, and impression tracking *)

Module WidgetLifecycleProps.
Import Widget WidgetLifecycle JsNumberProps.

#[local] Arguments JsNumber.toString : simpl never.
#[local] Arguments JsNumber.parseInt : simpl never.
#[local] Arguments getStorageKey : simpl never.

(** X4.  The rearm cycle of an evergreen timer.  When a tick finds the
    end instant reached, the interval is cleared, one expiry is signalled,
    the stored start is removed and one restart is scheduled; when that
    restart runs, a new start (the clock reading of the restart) is stored,
    the end instant is that reading plus the full duration, and a new
    interval is counting. *)
Theorem expired_evergreen_rearms (p : Page) (timerId : string) (d e : Z)
    (h : nat) (m : gmap string string) (c : nat -> Z) (r : nat) :
  timer p = evergreen timerId d ->
  0 < d ->
  endTime p = Some e ->
  intervalId p = Some h -> h <> 0%nat -> intervals p = {[h]} ->
  world p = {| localStorage := workingStorage m; clock := c; reads := r |} ->
  e <= c r ->
  c (S (S r)) - c (S r) < d * 60000 ->
  let q1 := fire h p in
  let q2 := restartCallback q1 in
  (expiries q1 = S (expiries p) /\ intervals q1 = ∅ /\ intervalId q1 = None
   /\ restarts q1 = S (restarts p)
   /\ items (localStorage (world q1)) !! getStorageKey timerId = None)
  /\ (endTime q2 = Some (c (S r) + d * 60000)
      /\ items (localStorage (world q2)) !! getStorageKey timerId
         = Some (JsNumber.toString (c (S r)))
      /\ intervalId q2 = Some (nextHandle p)
      /\ intervals q2 = {[nextHandle p]}
      /\ expiries q2 = S (expiries p)
      /\ restarts q2 = restarts p).
Proof.
  destruct p as [tm et iid dn td wd ivs nh rs ex]. simpl.
  intros -> Hd -> -> Hh -> -> Hexp Hnext.
  assert (fire h {| timer := evergreen timerId d; endTime := Some e;
                    intervalId := Some h; displayNone := dn;
                    timeDisplay := td;
                    world := {| localStorage := workingStorage m; clock := c;
                                reads := r |};
                    intervals := {[h]}; nextHandle := nh; restarts := rs;
                    expiries := ex |}
          = {| timer := evergreen timerId d; endTime := Some e;
               intervalId := None; displayNone := dn; timeDisplay := td;
               world := {| localStorage :=
                             workingStorage (delete (getStorageKey timerId) m);
                           clock := c; reads := S r |};
               intervals := ∅; nextHandle := nh; restarts := S rs;
               expiries := S ex |}) as ->.
  { unfold fire. cbn [intervals].
    rewrite decide_True by (by apply elem_of_singleton_2).
    unfold updateCountdown. simpl.
    unfold parseTimeRemaining.
    destruct (Z.leb_spec (e - c r) 0); [|lia]. simpl.
    unfold handleExpired. simpl.
    destruct (Nat.eqb_spec h 0); [done|].
    unfold signalExpiry, clearInterval. simpl. f_equal.
    apply difference_diag_L. }
  split.
  { simpl. repeat split; try done. apply lookup_delete_eq. }
  unfold restartCallback. simpl.
  assert (setupTimerEndpoint (evergreen timerId d)
            {| localStorage := workingStorage (delete (getStorageKey timerId) m);
               clock := c; reads := S r |}
          = (Returned (Some (c (S r) + d * 60000)),
             {| localStorage :=
                  workingStorage
                    (<[getStorageKey timerId := JsNumber.toString (c (S r))]>
                       (delete (getStorageKey timerId) m));
                clock := c; reads := S (S r) |})) as ->.
  { unfold setupTimerEndpoint, evergreen, workingStorage, bind, tryCatch, ret,
      getItem, setItem, removeItem, dateNow, advance, durationMs, withStorage,
      withItems.
    cbn [type id durationMinutes localStorage items getThrows setThrows
         removeThrows clock reads Js.mul].
    rewrite lookup_delete_eq. simpl. do 3 f_equal. lia. }
  unfold startCountdown, updateCountdown. simpl.
  unfold parseTimeRemaining.
  destruct (Z.leb_spec (c (S r) + d * 60000 - c (S (S r))) 0); [lia|].
  simpl. repeat split; try done.
  - apply lookup_insert_eq.
  - apply union_empty_r_L.
Qed.

Lemma expired_evergreen_rearms_witness :
  let p := {| timer := evergreen "t1" 1; endTime := Some 5000;
              intervalId := Some 1%nat; displayNone := false;
              timeDisplay := "00:00:01";
              world := {| localStorage :=
                            workingStorage {[ "countdown_timer_t1" := "0" ]};
                          clock := everySecond 5000; reads := 0 |};
              intervals := {[1%nat]}; nextHandle := 2; restarts := 0;
              expiries := 0 |} in
  endTime (restartCallback (fire 1 p)) = Some (6000 + 1 * 60000).
Proof.
  intros p.
  apply (proj1 (proj2 (expired_evergreen_rearms p "t1" 1 5000 1
                         {[ "countdown_timer_t1" := "0" ]} (everySecond 5000) 0
                         eq_refl ltac:(lia) eq_refl eq_refl ltac:(lia) eq_refl
                         eq_refl ltac:(vm_compute; discriminate)
                         ltac:(vm_compute; reflexivity)))).
Defined.

Lemma trackerStep_invariant t ev :
  trackerInvariant t -> trackerInvariant (trackerStep t ev).
Proof.
  unfold trackerInvariant. destruct t as [sent n k], ev; simpl.
  - unfold trackImpression. simpl. by destruct sent.
  - unfold debounceFires. simpl. destruct n; [done|].
    destruct sent; simpl; [done|]. intros ->. done.
Qed.

Lemma run_invariant events t :
  trackerInvariant t -> trackerInvariant (foldl trackerStep t events).
Proof.
  revert t. induction events as [|ev events IH]; intros t Ht; simpl; [done|].
  by apply IH, trackerStep_invariant.
Qed.

Lemma trackerStep_willSend t ev : willSend t -> willSend (trackerStep t ev).
Proof.
  unfold willSend. destruct t as [sent n k], ev; simpl.
  - unfold trackImpression. simpl. destruct sent; simpl; [auto|].
    intros [?|?]; [done|right; lia].
  - unfold debounceFires. simpl. destruct n; [done|].
    destruct sent; simpl; auto.
Qed.

Lemma run_willSend events t :
  willSend t -> willSend (foldl trackerStep t events).
Proof.
  revert t. induction events as [|ev events IH]; intros t Ht; simpl; [done|].
  by apply IH, trackerStep_willSend.
Qed.

(** X5.  However often [trackImpression] is called and in whatever order
    the debounce callbacks run, a widget issues at most one impression
    POST; and it has issued exactly one as soon as a callback has run
    after a call of [trackImpression]. *)
Theorem impression_sent_once (events : list TrackerEvent) :
  let t := foldl trackerStep newTracker events in
  (posts t <= 1)%nat
  /\ (posts t = 1%nat <-> impressionSent t = true)
  /\ (forall before between after,
        events = before ++ CallTrackImpression :: between
                 ++ TimeoutElapses :: after ->
        posts t = 1%nat).
Proof.
  intros t.
  assert (trackerInvariant t) as Hinv by (by apply run_invariant).
  split; [|split].
  - unfold trackerInvariant in Hinv. rewrite Hinv.
    destruct (impressionSent t); lia.
  - unfold trackerInvariant in Hinv. rewrite Hinv.
    destruct (impressionSent t); split; done.
  - intros before between after ->. subst t.
    rewrite foldl_app. simpl. rewrite foldl_app. simpl.
    set (t0 := foldl trackerStep newTracker before).
    assert (willSend (foldl trackerStep (trackImpression t0) between)) as Hw.
    { apply run_willSend. unfold willSend, trackImpression.
      destruct (impressionSent t0) eqn:Hs; simpl; [by left|right; lia]. }
    set (t1 := foldl trackerStep (trackImpression t0) between) in *.
    assert (trackerInvariant t1) as Hinv1.
    { apply run_invariant, (trackerStep_invariant t0 CallTrackImpression).
      by apply run_invariant. }
    assert (impressionSent (debounceFires t1) = true) as Hsent.
    { unfold debounceFires. destruct Hw as [Hs|Hn].
      - destruct (scheduled t1); [done|]. by rewrite Hs.
      - destruct (scheduled t1); [lia|]. by destruct (impressionSent t1). }
    assert (trackerInvariant (debounceFires t1)) as Hinv2
      by apply (trackerStep_invariant t1 TimeoutElapses Hinv1).
    assert (posts (debounceFires t1) = 1%nat) as Hone.
    { unfold trackerInvariant in Hinv2. by rewrite Hsent in Hinv2. }
    clearbody t1. revert Hsent Hone Hinv2.
    generalize (debounceFires t1). clear.
    induction after as [|ev after IH]; intros t Hsent Hone Hinv; simpl; [done|].
    apply IH.
    + destruct t as [sent n k], ev; simpl in *; subst.
      * done.
      * unfold debounceFires. simpl. by destruct n.
    + destruct t as [sent n k], ev; simpl in *; subst.
      * done.
      * unfold debounceFires. simpl. by destruct n.
    + by apply trackerStep_invariant.
Qed.

Lemma impression_sent_once_witness :
  posts (foldl trackerStep newTracker
           [CallTrackImpression; CallTrackImpression; TimeoutElapses;
            TimeoutElapses; CallTrackImpression; TimeoutElapses]) = 1%nat.
Proof.
  apply (proj2 (proj2 (impression_sent_once
                         [CallTrackImpression; CallTrackImpression;
                          TimeoutElapses; TimeoutElapses; CallTrackImpression;
                          TimeoutElapses]))
           [] [CallTrackImpression] [TimeoutElapses; CallTrackImpression;
                                     TimeoutElapses]).
  reflexivity.
Defined.

End WidgetLifecycleProps.

(** ** Padded numbers and the countdown text *)

Module FormatProps.
Import JsNumber JsNumberProps.

Lemma length_app (s1 s2 : string) :
  String.length (s1 +:+ s2) = (String.length s1 + String.length s2)%nat.
Proof. induction s1 as [|a s1 IH]; simpl; [done|]. by rewrite <- IH. Qed.

Lemma showDigits_longer fuel n acc :
  (String.length acc < String.length (showDigits (S fuel) n acc))%nat.
Proof.
  revert n acc. induction fuel as [|fuel IH]; intros n acc.
  - simpl. destruct (n <? 10); simpl; lia.
  - rewrite showDigits_S. destruct (n <? 10); [simpl; lia|].
    etrans; [|apply IH]. simpl. lia.
Qed.

Lemma toString_one_digit n :
  0 <= n < 10 -> toString n = String (digitChar n) EmptyString.
Proof.
  intros Hn. unfold toString, fuelFor.
  destruct (Z.ltb_spec n 0); [lia|]. rewrite showDigits_S.
  destruct (Z.ltb_spec n 10); [|lia]. by rewrite Z.mod_small by lia.
Qed.

Lemma toString_two_digits n :
  10 <= n < 100 ->
  toString n
  = String (digitChar (n / 10)) (String (digitChar (n mod 10)) EmptyString).
Proof.
  intros Hn. unfold toString, fuelFor.
  destruct (Z.ltb_spec n 0); [lia|]. rewrite showDigits_S.
  destruct (Z.ltb_spec n 10); [lia|].
  assert (0 < Z.succ (Z.log2 n)) as Hpos by (pose proof (Z.log2_nonneg n); lia).
  destruct (Z.to_nat (Z.succ (Z.log2 n))) as [|f] eqn:Hf; [lia|].
  rewrite showDigits_S.
  assert (n / 10 < 10) by (apply Z.div_lt_upper_bound; lia).
  destruct (Z.ltb_spec (n / 10) 10); [|lia].
  rewrite (Z.mod_small (n / 10)); [done|].
  split; [apply Z.div_pos; lia|done].
Qed.

Lemma toString_long n :
  10 <= n -> exists a b rest, toString n = String a (String b rest).
Proof.
  intros Hn. unfold toString, fuelFor.
  destruct (Z.ltb_spec n 0); [lia|]. rewrite showDigits_S.
  destruct (Z.ltb_spec n 10); [lia|].
  assert (0 < Z.succ (Z.log2 n)) as Hpos by (pose proof (Z.log2_nonneg n); lia).
  destruct (Z.to_nat (Z.succ (Z.log2 n))) as [|f] eqn:Hf; [lia|].
  pose proof (showDigits_longer f (n / 10)
                (String (digitChar (n mod 10)) EmptyString)) as Hlen.
  destruct (showDigits (S f) (n / 10) _) as [|a [|b rest]]; simpl in Hlen;
    [lia|lia|eauto].
Qed.

Lemma pad_one_digit n :
  0 <= n < 10 -> pad n = String "0" (String (digitChar n) EmptyString).
Proof. intros Hn. unfold pad. by rewrite toString_one_digit. Qed.

Lemma pad_long n : 10 <= n -> pad n = toString n.
Proof.
  intros Hn. unfold pad. by destruct (toString_long n Hn) as (a & b & rest & ->).
Qed.

Lemma length_pad n : 0 <= n < 100 -> String.length (pad n) = 2%nat.
Proof.
  intros Hn. destruct (Z.lt_ge_cases n 10).
  - by rewrite pad_one_digit by lia.
  - rewrite pad_long by lia. by rewrite toString_two_digits by lia.
Qed.

(** X6.  [pad] (and [padTime]) loses nothing: a padded non-negative
    number reads back as itself with [parseInt]; numbers below 100 are
    padded to exactly two characters and larger ones are printed in full,
    never cut to two digits. *)
Theorem pad_reads_back (n : Z) :
  0 <= n ->
  parseInt (pad n) = Some n
  /\ parseInt (TimerUtils.padTime n) = Some n
  /\ (n < 100 -> String.length (pad n) = 2%nat)
  /\ (100 <= n -> pad n = toString n /\ (2 < String.length (pad n))%nat).
Proof.
  intros Hn.
  assert (parseInt (pad n) = Some n) as Hback.
  { destruct (Z.lt_ge_cases n 10).
    - rewrite pad_one_digit by lia.
      rewrite (parseInt_digit_head 0) by lia. cbn [parseDigits].
      rewrite (digitValue_digitChar 0) by lia.
      rewrite digitValue_digitChar by lia. simpl. by destruct n.
    - rewrite pad_long by done. apply parseInt_toString. }
  split; [done|]. split; [done|]. split.
  - intros Hlt. apply length_pad. lia.
  - intros Hge. rewrite pad_long by lia. split; [done|].
    unfold toString, fuelFor. destruct (Z.ltb_spec n 0); [lia|].
    rewrite showDigits_S. destruct (Z.ltb_spec n 10); [lia|].
    assert (0 < Z.succ (Z.log2 n)) as Hpos
      by (pose proof (Z.log2_nonneg n); lia).
    destruct (Z.to_nat (Z.succ (Z.log2 n))) as [|f] eqn:Hf; [lia|].
    rewrite showDigits_S.
    destruct (Z.ltb_spec (n / 10) 10) as [Hsmall|_].
    + exfalso. assert (n < 100); [|lia].
      pose proof (Z.div_mod n 10 ltac:(lia)).
      pose proof (Z.mod_pos_bound n 10 ltac:(lia)). lia.
    + assert (1 < Z.succ (Z.log2 n)) as Hbig.
      { assert (6 <= Z.log2 n); [|lia].
        change 6 with (Z.log2 64).
        apply Z.log2_le_mono. lia. }
      destruct f as [|f]; [lia|].
      pose proof (showDigits_longer f (n / 10 / 10)
                    (String (digitChar (n / 10 mod 10))
                       (String (digitChar (n mod 10)) EmptyString))) as Hlen.
      cbn [String.length] in Hlen. lia.
Qed.

Lemma pad_reads_back_witness :
  parseInt (pad 7) = Some 7 /\ String.length (pad 7) = 2%nat.
Proof.
  destruct (pad_reads_back 7 ltac:(lia)) as (Hback & _ & Hlen & _).
  split; [exact Hback|apply Hlen; lia].
Defined.

(** X7.  For a remaining time of less than a day the widget shows what
    the utilities' pipeline ([calculateTimeRemaining],
    [parseTimeRemaining], [formatCountdown]) produces, a text of exactly
    eight characters (HH:MM:SS). *)
Theorem display_agrees_below_a_day (p : Widget.Page) (e now : Z) :
  Widget.endTime p = Some e ->
  Widget.clock (Widget.world p) (Widget.reads (Widget.world p)) = now ->
  0 < e - now < 86400000 ->
  forall remaining,
    TimerUtils.calculateTimeRemaining (TimerModel.Instant e) now = Some remaining ->
    Widget.timeDisplay (Widget.updateCountdown p)
    = TimerUtils.formatCountdown (TimerUtils.parseTimeRemaining remaining)
    /\ String.length (Widget.timeDisplay (Widget.updateCountdown p)) = 8%nat.
Proof.
  intros Hend Hnow Hrange remaining Hrem.
  unfold TimerUtils.calculateTimeRemaining in Hrem. simpl in Hrem.
  injection Hrem as <-. rewrite Z.max_r by lia.
  unfold Widget.updateCountdown. simpl. rewrite Hend, Hnow. simpl.
  unfold Widget.parseTimeRemaining, TimerUtils.parseTimeRemaining.
  destruct (Z.leb_spec (e - now) 0); [lia|]. simpl.
  set (total := (e - now) / 1000).
  assert (0 <= total < 86400) as Htotal.
  { subst total. split; [apply Z.div_pos; lia|].
    apply Z.div_lt_upper_bound; lia. }
  unfold TimerUtils.formatCountdown, TimerUtils.padTime, Widget.pad. simpl.
  rewrite (Z.div_small total 86400) by done.
  rewrite (Z.mod_small total 86400) by done. simpl.
  split; [done|].
  rewrite !length_app, !length_pad; [done|..].
  - pose proof (Z.mod_pos_bound total 60 ltac:(lia)). lia.
  - split; [apply Z.div_pos; [apply Z.mod_pos_bound|]; lia|].
    apply Z.div_lt_upper_bound; [lia|].
    pose proof (Z.mod_pos_bound total 3600 ltac:(lia)). lia.
  - split; [apply Z.div_pos; lia|].
    apply Z.div_lt_upper_bound; lia.
Qed.

Lemma display_agrees_below_a_day_witness :
  Widget.timeDisplay
    (Widget.updateCountdown
       (Widget.rendered (Widget.fixed "t1" 3662000) 3662000
          (Widget.everySecond 1000)))
  = TimerUtils.formatCountdown (TimerUtils.parseTimeRemaining 3661000).
Proof.
  apply (proj1 (display_agrees_below_a_day
                  (Widget.rendered (Widget.fixed "t1" 3662000) 3662000
                     (Widget.everySecond 1000))
                  3662000 1000 eq_refl ltac:(vm_compute; reflexivity)
                  ltac:(lia) 3661000 eq_refl)).
Defined.

End FormatProps.

(** ** Rate limiting *)

Module RateLimitProps.
Import RateLimit.

(** Inside a window the [k]-th request only advances the count. *)
Lemma rateLimit_in_window identifier now m k t0 :
  m !! identifier = Some {| count := k; windowStart := t0 |} ->
  now - t0 <= RATE_LIMIT_WINDOW ->
  rateLimit identifier now m
  = (if RATE_LIMIT_MAX <? k + 1
     then TooManyRequests (ceilSeconds (RATE_LIMIT_WINDOW - (now - t0)))
     else Next,
     <[identifier := {| count := k + 1; windowStart := t0 |}]> m).
Proof.
  intros Hm Hin. unfold rateLimit. rewrite Hm. simpl.
  destruct (Z.ltb_spec RATE_LIMIT_WINDOW (now - t0)); [lia|].
  by destruct (RATE_LIMIT_MAX <? k + 1).
Qed.

(** Requests inside the window of an entry that has counted [k] requests:
    the [i]-th of them is let through exactly when [k + i < 100]. *)
Lemma serve_in_window identifier times m k t0 :
  m !! identifier = Some {| count := k; windowStart := t0 |} ->
  Forall (fun now => now - t0 <= RATE_LIMIT_WINDOW) times ->
  (forall i d, (serve identifier times m).1 !! i = Some d ->
               allowed d = (k + Z.of_nat i <? RATE_LIMIT_MAX))
  /\ (serve identifier times m).2 !! identifier
     = Some {| count := k + Z.of_nat (length times); windowStart := t0 |}
  /\ length (serve identifier times m).1 = length times.
Proof.
  intros Hm Htimes. revert m k Hm.
  induction Htimes as [|now times Hnow Htimes IH]; intros m k Hm; simpl.
  - split; [by intros i d ?|]. split; [|done]. rewrite Hm. do 2 f_equal. lia.
  - rewrite (rateLimit_in_window _ _ _ k t0) by done.
    specialize (IH (<[identifier := {| count := k + 1; windowStart := t0 |}]> m)
                  (k + 1) (lookup_insert_eq _ _ _)).
    destruct (serve identifier times _) as [ds m''] eqn:Hserve. simpl in *.
    destruct IH as (Hds & Hm'' & Hlen).
    split; [|split].
    + intros [|i] d; simpl.
      * intros [= <-]. unfold RATE_LIMIT_MAX. change (Z.of_nat 0) with 0.
        destruct (Z.ltb_spec 100 (k + 1)), (Z.ltb_spec (k + 0) 100);
          simpl; try done; lia.
      * intros Hd. rewrite (Hds i d Hd). f_equal. lia.
    + rewrite Hm''. do 2 f_equal. lia.
    + by rewrite Hlen.
Qed.

(** X8.  For one identifier whose first request arrives at [t0] and
    whose further requests all arrive within 60 seconds of [t0], exactly
    the first 100 requests are let through: request number [i] (from 0) is
    passed on when [i < 100] and answered 429 otherwise, and the entry then
    counts every request, the refused ones too. *)
Theorem at_most_100_per_window (identifier : string) (t0 : Z)
    (times : list Z) (m : gmap string RateRecord) :
  m !! identifier = None ->
  Forall (fun now => now - t0 <= RATE_LIMIT_WINDOW) times ->
  let result := serve identifier (t0 :: times) m in
  (forall i d, result.1 !! i = Some d -> allowed d = (Z.of_nat i <? 100))
  /\ length (List.filter allowed result.1)
     = Nat.min (S (length times)) 100
  /\ result.2 !! identifier
     = Some {| count := 1 + Z.of_nat (length times); windowStart := t0 |}.
Proof.
  intros Hm Htimes result.
  set (m1 := <[identifier := {| count := 1; windowStart := t0 |}]> m).
  assert (rateLimit identifier t0 m = (Next, m1)) as Hfirst
    by (unfold rateLimit; by rewrite Hm).
  destruct (serve_in_window identifier times m1 1 t0
              (lookup_insert_eq _ _ _) Htimes) as (Hds & Hm' & Hlen).
  assert (result = (Next :: (serve identifier times m1).1,
                    (serve identifier times m1).2)) as ->.
  { subst result. cbn [serve]. rewrite Hfirst.
    by destruct (serve identifier times m1). }
  destruct (serve identifier times m1) as [ds m'] eqn:Hserve.
  cbn [fst snd] in *.
  assert (forall i d, (Next :: ds) !! i = Some d ->
                      allowed d = (Z.of_nat i <? 100)) as Hall.
  { intros [|i] d; simpl; [by intros [= <-]|].
    intros Hd. rewrite (Hds i d Hd). unfold RATE_LIMIT_MAX. f_equal. lia. }
  split; [done|]. split; [|done].
  assert (length (Next :: ds) = S (length times)) as Hlen' by (simpl; lia).
  revert Hall Hlen'. generalize (Next :: ds) (S (length times)).
  clear. intros l.
  assert (forall (off : nat) (l : list Decision) n,
            (forall i d, l !! i = Some d ->
                         allowed d = (Z.of_nat (off + i) <? 100)) ->
            length l = n ->
            length (List.filter allowed l) = (Nat.min (off + n) 100 - Nat.min off 100)%nat)
    as Hgen.
  { clear. intros off l. revert off.
    induction l as [|d l IH]; intros off n Hall <-; simpl; [lia|].
    pose proof (Hall 0%nat d eq_refl) as Hd. rewrite Nat.add_0_r in Hd.
    assert (length (List.filter allowed l)
            = (Nat.min (S off + length l) 100 - Nat.min (S off) 100)%nat) as Hrest.
    { apply IH; [|done]. intros i d' Hd'. rewrite (Hall (S i) d' Hd').
      f_equal. lia. }
    rewrite Hd. destruct (Z.ltb_spec (Z.of_nat off) 100); simpl; lia. }
  intros n Hall Hlen. rewrite (Hgen 0%nat l n); [simpl; lia| |done].
  intros i d Hd. by apply Hall.
Qed.

Lemma at_most_100_per_window_witness :
  (serve "shop-a.myshopify.com" [1000; 1500; 2000] ∅).2 !! "shop-a.myshopify.com"
  = Some {| count := 3; windowStart := 1000 |}.
Proof.
  assert ((∅ : gmap string RateRecord) !! "shop-a.myshopify.com" = None) as Hnew
    by reflexivity.
  assert (Forall (fun now => now - 1000 <= RATE_LIMIT_WINDOW) [1500; 2000])
    as Hclose by (repeat constructor; vm_compute; discriminate).
  exact (proj2 (proj2 (at_most_100_per_window "shop-a.myshopify.com" 1000
                         [1500; 2000] ∅ Hnew Hclose))).
Defined.

(** X9.  A refused request is told how long to wait: [retryAfter] lies
    between 0 and 60 seconds, and any request of the same identifier that
    arrives more than [retryAfter] seconds later is let through and opens
    a new window.  (One that arrives exactly [retryAfter] seconds later may
    still fall on the last millisecond of the window.) *)
Theorem retry_after_suffices (identifier : string) (now later : Z)
    (m : gmap string RateRecord) (record : RateRecord) (retryAfter : Z) :
  m !! identifier = Some record ->
  windowStart record <= now ->
  (rateLimit identifier now m).1 = TooManyRequests retryAfter ->
  now + retryAfter * 1000 < later ->
  0 <= retryAfter <= 60
  /\ rateLimit identifier later (rateLimit identifier now m).2
     = (Next,
        <[identifier := {| count := 1; windowStart := later |}]>
          (rateLimit identifier now m).2).
Proof.
  intros Hm Hstart Hrefused Hlater. unfold rateLimit in Hrefused |- * at 2 3.
  rewrite Hm in *. unfold RATE_LIMIT_WINDOW, RATE_LIMIT_MAX, ceilSeconds in *.
  cbn [count windowStart] in *.
  destruct (Z.ltb_spec (60 * 1000) (now - windowStart record));
    [discriminate|].
  destruct (Z.ltb_spec 100 (count record + 1)); [|discriminate].
  cbn [fst snd] in *. injection Hrefused as <-.
  assert (0 <= - (- (60 * 1000 - (now - windowStart record)) / 1000) <= 60
          /\ 60 * 1000 - (now - windowStart record)
             <= - (- (60 * 1000 - (now - windowStart record)) / 1000) * 1000)
    as [Hbound Hcover] by (Z.div_mod_to_equations; lia).
  split; [done|].
  unfold rateLimit. rewrite lookup_insert_eq.
  unfold RATE_LIMIT_WINDOW. cbn [count windowStart].
  destruct (Z.ltb_spec (60 * 1000) (later - windowStart record)); [done|lia].
Qed.

Lemma retry_after_suffices_witness :
  let m := {[ "shop-a.myshopify.com" := {| count := 100; windowStart := 0 |} ]} in
  (rateLimit "shop-a.myshopify.com" 62000
     (rateLimit "shop-a.myshopify.com" 1500 m).2).1 = Next.
Proof.
  intros m.
  assert (m !! "shop-a.myshopify.com" = Some {| count := 100; windowStart := 0 |})
    as Hm by reflexivity.
  assert ((rateLimit "shop-a.myshopify.com" 1500 m).1 = TooManyRequests 59)
    as Hrefused by reflexivity.
  rewrite (proj2 (retry_after_suffices "shop-a.myshopify.com" 1500 62000 m _ 59
                    Hm ltac:(simpl; lia) Hrefused ltac:(lia))).
  reflexivity.
Defined.

(** X10.  The periodic clean-up is invisible to the limiter, and
    identifiers do not share quota: a request served after a clean-up gets
    the decision and the entry it would have got without the clean-up; the
    clean-up only removes entries whose window started more than 120
    seconds before; and serving one identifier leaves the entry of every
    other identifier as it was. *)
Theorem clean_up_is_transparent (identifier : string) (now now' : Z)
    (m : gmap string RateRecord) :
  now <= now' ->
  (rateLimit identifier now' (cleanUp now m)).1 = (rateLimit identifier now' m).1
  /\ (rateLimit identifier now' (cleanUp now m)).2 !! identifier
     = (rateLimit identifier now' m).2 !! identifier
  /\ (forall other record,
        cleanUp now m !! other = Some record
        <-> m !! other = Some record
            /\ now - windowStart record <= RATE_LIMIT_WINDOW * 2)
  /\ (forall other,
        other <> identifier ->
        (rateLimit identifier now' m).2 !! other = m !! other).
Proof.
  intros Hle.
  assert (forall other record,
             cleanUp now m !! other = Some record
             <-> m !! other = Some record
                 /\ now - windowStart record <= RATE_LIMIT_WINDOW * 2) as Hclean.
  { intros other record. unfold cleanUp.
    rewrite map_lookup_filter_Some. simpl. split; intros [? ?]; split; try done; lia. }
  assert (forall (m0 : gmap string RateRecord) other,
             other <> identifier ->
             (rateLimit identifier now' m0).2 !! other = m0 !! other) as Hframe.
  { intros m0 other Hne. unfold rateLimit.
    destruct (m0 !! identifier) as [record|]; simpl.
    - destruct (RATE_LIMIT_WINDOW <? now' - windowStart record); simpl;
        [by rewrite lookup_insert_ne|].
      destruct (RATE_LIMIT_MAX <? count record + 1); simpl;
        by rewrite lookup_insert_ne.
    - by rewrite lookup_insert_ne. }
  split; [|split; [|split; [exact Hclean|apply Hframe]]].
  - unfold rateLimit.
    destruct (m !! identifier) as [record|] eqn:Hm.
    + destruct (decide (now - windowStart record <= RATE_LIMIT_WINDOW * 2))
        as [Hkeep|Hdrop].
      * rewrite (proj2 (Hclean identifier record) (conj Hm Hkeep)).
        destruct (RATE_LIMIT_WINDOW <? now' - windowStart record); simpl;
          [done|].
        by destruct (RATE_LIMIT_MAX <? count record + 1).
      * assert (cleanUp now m !! identifier = None) as ->.
        { destruct (cleanUp now m !! identifier) as [record'|] eqn:Hc; [|done].
          apply Hclean in Hc as [Hc Hk]. rewrite Hm in Hc.
          injection Hc as <-. done. }
        unfold RATE_LIMIT_WINDOW in *.
        destruct (Z.ltb_spec (60 * 1000) (now' - windowStart record)); [done|lia].
    + assert (cleanUp now m !! identifier = None) as ->; [|done].
      destruct (cleanUp now m !! identifier) as [record'|] eqn:Hc; [|done].
      apply Hclean in Hc as [Hc ?]. congruence.
  - unfold rateLimit.
    destruct (m !! identifier) as [record|] eqn:Hm.
    + destruct (decide (now - windowStart record <= RATE_LIMIT_WINDOW * 2))
        as [Hkeep|Hdrop].
      * rewrite (proj2 (Hclean identifier record) (conj Hm Hkeep)).
        destruct (RATE_LIMIT_WINDOW <? now' - windowStart record); simpl;
          [by rewrite !lookup_insert_eq|].
        destruct (RATE_LIMIT_MAX <? count record + 1); simpl;
          by rewrite !lookup_insert_eq.
      * assert (cleanUp now m !! identifier = None) as ->.
        { destruct (cleanUp now m !! identifier) as [record'|] eqn:Hc; [|done].
          apply Hclean in Hc as [Hc Hk]. rewrite Hm in Hc.
          injection Hc as <-. done. }
        unfold RATE_LIMIT_WINDOW in *.
        destruct (Z.ltb_spec (60 * 1000) (now' - windowStart record)); [|lia].
        simpl. by rewrite !lookup_insert_eq.
    + assert (cleanUp now m !! identifier = None) as ->.
      { destruct (cleanUp now m !! identifier) as [record'|] eqn:Hc; [|done].
        apply Hclean in Hc as [Hc ?]. congruence. }
      simpl. by rewrite !lookup_insert_eq.
Qed.

Lemma clean_up_is_transparent_witness :
  let m := {[ "shop-a.myshopify.com" := {| count := 100; windowStart := 0 |} ]} in
  (rateLimit "shop-a.myshopify.com" 130000 (cleanUp 125000 m)).1
  = (rateLimit "shop-a.myshopify.com" 130000 m).1.
Proof.
  intros m.
  exact (proj1 (clean_up_is_transparent "shop-a.myshopify.com" 125000 130000 m
                  ltac:(lia))).
Defined.

End RateLimitProps.

(** ** Validation and sanitization of timer input *)

Module ValidationProps.
Import TimersRoute.

Lemma length_substring_le n m (s : string) :
  (String.length (String.substring n m s) <= m)%nat.
Proof.
  revert n m. induction s as [|a s IH]; intros [|n] [|m]; simpl; try lia.
  - specialize (IH 0%nat m). lia.
  - apply IH.
  - apply (IH n (S m)).
Qed.

Lemma trimTo_length n field s :
  trimTo n field = Some s -> Js.truthy field = true ->
  (String.length s <= n)%nat.
Proof.
  unfold trimTo. intros Heq Htruthy. rewrite Htruthy in Heq.
  injection Heq as <-. apply length_substring_le.
Qed.

Lemma trimTo_not_longer n field :
  Js.truthy (trimTo n field)
  && (n <? String.length (default EmptyString (trimTo n field)))%nat = false.
Proof.
  unfold trimTo. destruct (Js.truthy field) eqn:Htruthy.
  - simpl. rewrite andb_false_iff. right.
    apply Nat.ltb_ge, length_substring_le.
  - by rewrite Htruthy.
Qed.

Lemma elem_of_when cond errors (e : string * string) :
  e ∈ when cond errors -> cond = true /\ e ∈ errors.
Proof. unfold when. destruct cond; [done|]. by intros ?%elem_of_nil. Qed.

(** X11.  Over-long texts are cut, not refused: whatever the body, the
    validation of a sanitized input never reports that the name exceeds
    100 characters, the headline 50 or the supporting text 100, since
    [sanitizeInput] has trimmed and cut them to these lengths. *)
Theorem sanitized_input_has_no_length_error (body : TimerInput)
    (isUpdate : bool) (field message : string) :
  (field, message) ∈ validateTimerInput (sanitizeInput body) isUpdate ->
  message <> "Name cannot exceed 100 characters"
  /\ message <> "Headline cannot exceed 50 characters"
  /\ message <> "Supporting text cannot exceed 100 characters".
Proof.
  unfold validateTimerInput.
  rewrite !elem_of_app. cbn [sanitizeInput name appearance].
  intros [Hc|[Hn|[Hf|[He|[Ha|Ht]]]]].
  - apply elem_of_when in Hc as [_ Hc]. rewrite elem_of_app in Hc.
    destruct Hc as [Hc|Hc]; apply elem_of_when in Hc as [_ Hc];
      apply list_elem_of_singleton in Hc; by injection Hc as -> ->.
  - apply elem_of_when in Hn as [Hn _].
    by rewrite trimTo_not_longer in Hn.
  - apply elem_of_when in Hf as [_ Hf]. rewrite !elem_of_app in Hf.
    destruct Hf as [Hf|[Hf|Hf]].
    + apply elem_of_when in Hf as [_ Hf].
      apply list_elem_of_singleton in Hf. by injection Hf as -> ->.
    + apply elem_of_when in Hf as [_ Hf].
      apply list_elem_of_singleton in Hf. by injection Hf as -> ->.
    + apply elem_of_when in Hf as [_ Hf]. rewrite !elem_of_app in Hf.
      destruct Hf as [Hf|[Hf|Hf]]; apply elem_of_when in Hf as [_ Hf];
        apply list_elem_of_singleton in Hf; by injection Hf as -> ->.
  - apply elem_of_when in He as [_ He]. rewrite elem_of_app in He.
    destruct He as [He|He]; apply elem_of_when in He as [_ He];
      apply list_elem_of_singleton in He; by injection He as -> ->.
  - destruct (appearance body) as [a|]; simpl in Ha; [|by apply elem_of_nil in Ha].
    rewrite !elem_of_app in Ha. destruct Ha as [Ha|[Ha|[Ha|Ha]]].
    + apply elem_of_when in Ha as [_ Ha].
      apply list_elem_of_singleton in Ha. by injection Ha as -> ->.
    + apply elem_of_when in Ha as [_ Ha].
      apply list_elem_of_singleton in Ha. by injection Ha as -> ->.
    + apply elem_of_when in Ha as [Ha _].
      by rewrite trimTo_not_longer in Ha.
    + apply elem_of_when in Ha as [Ha _].
      by rewrite trimTo_not_longer in Ha.
  - destruct (targeting (sanitizeInput body)) as [tg|];
      [|by apply elem_of_nil in Ht].
    rewrite !elem_of_app in Ht.
    destruct Ht as [Ht|[Ht|Ht]]; apply elem_of_when in Ht as [_ Ht];
      apply list_elem_of_singleton in Ht; by injection Ht as -> ->.
Qed.

Lemma sanitized_input_has_no_length_error_witness :
  ("name", "Timer name is required")
    ∈ validateTimerInput (sanitizeInput (toggleBody true)) false
  /\ "Timer name is required" <> "Name cannot exceed 100 characters".
Proof.
  assert (("name", "Timer name is required")
            ∈ validateTimerInput (sanitizeInput (toggleBody true)) false) as Hin
    by (vm_compute; left).
  split; [exact Hin|].
  exact (proj1 (sanitized_input_has_no_length_error (toggleBody true) false
                  "name" "Timer name is required" Hin)).
Defined.

Lemma when_nil cond (e : string * string) : when cond [e] = [] -> cond = false.
Proof. by destruct cond. Qed.

(** What an accepted creation input says about the window. *)
Lemma accepted_window (data : TimerInput) :
  validateTimerInput data false = [] ->
  (type data = Some "fixed"
   /\ exists s e, startDate data = TimerModel.Instant s
                  /\ endDate data = TimerModel.Instant e /\ s < e)
  \/ (type data = Some "evergreen"
      /\ fieldFalsy (durationMinutes data) = false
      /\ forall d, fieldNumber (durationMinutes data) = Some d ->
                   1 <= d <= 10080).
Proof.
  unfold validateTimerInput. rewrite !app_nil. cbn [when negb].
  rewrite !app_nil.
  intros ((_ & Hty%when_nil) & _ & Hfixed & Hever & _).
  apply orb_false_iff in Hty as [Htruthy Hin].
  apply negb_false_iff in Htruthy, Hin.
  destruct (type data) as [ty|] eqn:Htype; [|done].
  cbn [default] in Hin. unfold Js.arrayIncludes in Hin. simpl in Hin.
  rewrite orb_false_r in Hin. apply orb_true_iff in Hin as [Hf|He].
  - apply String.eqb_eq in Hf as ->. left. split; [done|].
    rewrite bool_decide_true in Hfixed by done. cbn [when] in Hfixed.
    rewrite !app_nil in Hfixed.
    destruct Hfixed as (Hs%when_nil & He%when_nil & Hboth).
    rewrite Hs, He in Hboth. cbn [negb andb when] in Hboth.
    rewrite !app_nil in Hboth.
    destruct Hboth as (Hsn%when_nil & Hen%when_nil & Hle%when_nil).
    destruct (startDate data) as [| |s]; try done.
    destruct (endDate data) as [| |e]; try done.
    exists s, e. simpl in Hle. apply Z.leb_gt in Hle. done.
  - apply String.eqb_eq in He as ->. right. split; [done|].
    rewrite bool_decide_true in Hever by done. cbn [when] in Hever.
    rewrite !app_nil in Hever. destruct Hever as (Hlow%when_nil & Hhigh%when_nil).
    apply orb_false_iff in Hlow as [Hfalsy Hlow]. split; [done|].
    intros d Hd. rewrite Hd in Hlow, Hhigh. unfold Js.gt in Hhigh.
    simpl in Hlow, Hhigh. apply Z.ltb_ge in Hlow, Hhigh. lia.
Qed.

(** X12.  What an accepted creation input is.  An input that passes
    [validateTimerInput] is a fixed timer with two parseable dates, the
    end after the start, or an evergreen timer whose duration is truthy
    and, if it converts to a number, lies between 1 and 10080.  The
    validation does not ask for a number: the same input with a truthy
    value that converts to NaN (a text such as 'abc') for the duration
    passes as well.  For every record of the same kind and window, an
    evergreen one holding the number the duration converts to, the
    production [calculateTimerStatus] agrees with the test-suite's
    [determineStatus] at every clock reading. *)
Theorem accepted_input_is_well_formed (data : TimerInput) :
  validateTimerInput data false = [] ->
  ((type data = Some "fixed"
    /\ exists s e, startDate data = TimerModel.Instant s
                   /\ endDate data = TimerModel.Instant e /\ s < e)
   \/ (type data = Some "evergreen"
       /\ fieldFalsy (durationMinutes data) = false
       /\ forall d, fieldNumber (durationMinutes data) = Some d ->
                    1 <= d <= 10080))
  /\ validateTimerInput (withDuration data (Other true None)) false = []
  /\ forall (t : TimerModel.Timer) (now : Z),
      type data = Some (Storefront.typeName (TimerModel.type t)) ->
      TimerModel.startDate t = startDate data ->
      TimerModel.endDate t = endDate data ->
      (TimerModel.type t = TimerModel.Evergreen ->
       exists d, TimerModel.durationMinutes t = Some d
                 /\ fieldNumber (durationMinutes data) = Some d) ->
      TimerModel.calculateTimerStatus (Some t) now
      = TimerModel.determineStatus (Some t) now.
Proof.
  intros Hok. pose proof (accepted_window data Hok) as Hwin.
  split; [done|]. split.
  - revert Hok. unfold validateTimerInput.
    cbn [withDuration name type startDate endDate durationMinutes appearance
         targeting isActive].
    rewrite !app_nil. intros (Hcreate & Hname & Hfixed & _ & Happ & Htg).
    repeat (split; [done|]). split; [|done].
    by destruct (bool_decide (type data = Some "evergreen")).
  - intros t now Hty Hs He Hd.
    unfold TimerModel.calculateTimerStatus, TimerModel.determineStatus.
    destruct (TimerModel.isActive t); simpl; [|done].
    destruct Hwin as [(Hfixed & s & e & Hsd & Hed & Hlt)
                     |(Hever & Htruthy & Hrange)].
    + rewrite Hfixed in Hty. destruct (TimerModel.type t); [|done].
      rewrite Hs, He, Hsd, Hed. simpl.
      destruct (Z.leb_spec e s); [lia|]. unfold Js.gt. simpl. done.
    + rewrite Hever in Hty. destruct (TimerModel.type t); [done|].
      destruct (Hd eq_refl) as (d & Hdur & Hnum). rewrite Hdur.
      specialize (Hrange d Hnum). destruct (Z.ltb_spec 0 d); [done|lia].
Qed.

Lemma accepted_input_is_well_formed_witness :
  let data := {| name := Some "Sale"; type := Some "evergreen";
                 startDate := TimerModel.Missing;
                 endDate := TimerModel.Missing;
                 durationMinutes := Number 60; appearance := None;
                 targeting := None; isActive := None |} in
  validateTimerInput (withDuration data (Other true None)) false = []
  /\ TimerModel.calculateTimerStatus (Some Storefront.evergreenTimer) 15
     = TimerModel.determineStatus (Some Storefront.evergreenTimer) 15.
Proof.
  intros data.
  pose proof (accepted_input_is_well_formed data eq_refl) as (_ & Hnan & Hsame).
  split; [exact Hnan|].
  apply Hsame; try reflexivity.
  intros _. by exists 60.
Defined.

(** X13.  PUT /:id validates the body as if it were a whole timer of the
    stored kind: a body without a type is refused for a fixed timer when
    it lacks a start or an end date, and for an evergreen timer when it
    lacks the duration or carries a falsy one.  In particular the body [{ isActive: ... }] that
    the embedded admin page sends to toggle a timer never passes the
    validation, whatever the kind of the timer. *)
Theorem put_needs_the_window_fields (body : TimerInput)
    (currentStatus : bool) (kind : TimerModel.Kind) :
  (Js.truthy (type body) = false ->
   TimerModel.falsyDate (startDate body) = true ->
   ("startDate", "Start date is required for fixed timers")
     ∈ putValidation body TimerModel.Fixed)
  /\ (Js.truthy (type body) = false ->
      TimerModel.falsyDate (endDate body) = true ->
      ("endDate", "End date is required for fixed timers")
        ∈ putValidation body TimerModel.Fixed)
  /\ (Js.truthy (type body) = false ->
      fieldFalsy (durationMinutes body) = true ->
      ("durationMinutes", "Duration must be at least 1 minute")
        ∈ putValidation body TimerModel.Evergreen)
  /\ putValidation (toggleBody currentStatus) kind <> [].
Proof.
  assert (forall k, Js.truthy (type body) = false ->
                    Js.or_default (type (sanitizeInput body)) (Storefront.typeName k)
                    = Storefront.typeName k) as Hexisting.
  { intros k. cbn [sanitizeInput type]. destruct (type body) as [ty|]; [|done].
    simpl. by destruct (String.eqb ty ""). }
  split; [|split; [|split]].
  - intros Hty Hs. unfold putValidation. rewrite Hexisting by done.
    unfold validateTimerInput. cbn [type startDate endDate sanitizeInput].
    rewrite !elem_of_app. right. right. left.
    rewrite bool_decide_true by done. cbn [when]. rewrite Hs.
    rewrite !elem_of_app. left. left.
  - intros Hty He. unfold putValidation. rewrite Hexisting by done.
    unfold validateTimerInput. cbn [type startDate endDate sanitizeInput].
    rewrite !elem_of_app. right. right. left.
    rewrite bool_decide_true by done. cbn [when]. rewrite He.
    rewrite !elem_of_app. right. left. left.
  - intros Hty Hd. unfold putValidation. rewrite Hexisting by done.
    unfold validateTimerInput. cbn [type durationMinutes sanitizeInput].
    rewrite !elem_of_app. right. right. right. left.
    rewrite bool_decide_true by done. cbn [when]. rewrite Hd.
    rewrite !elem_of_app. left. left.
  - by destruct kind, currentStatus.
Qed.

Lemma put_needs_the_window_fields_witness :
  ("startDate", "Start date is required for fixed timers")
    ∈ putValidation (toggleBody true) TimerModel.Fixed.
Proof.
  exact (proj1 (put_needs_the_window_fields (toggleBody true) true
                  TimerModel.Fixed) eq_refl eq_refl).
Defined.

End ValidationProps.

(** ** The admin routes: paging, status labels, tenancy *)

Module AdminProps.
Import TimerModel AdminRoutes.

Lemma take_add {A} (a b : nat) (l : list A) :
  take (a + b) l = take a l ++ take b (drop a l).
Proof.
  revert l. induction a as [|a IH]; intros [|x l]; simpl; try done.
  - by destruct b.
  - by rewrite IH.
Qed.

Lemma drop_add {A} (a b : nat) (l : list A) :
  drop (a + b) l = drop b (drop a l).
Proof.
  revert l. induction a as [|a IH]; intros [|x l]; simpl; try done.
  by destruct b.
Qed.

(** The page [k + 1] for a limit between 1 and 100. *)
Lemma pageOf_small_limit shop q db (k : nat) :
  1 <= q_limit q <= 100 ->
  pageOf shop (withPage q (Z.of_nat k + 1)) db
  = Some (take (Z.to_nat (q_limit q))
            (drop (k * Z.to_nat (q_limit q)) (matching shop q db))).
Proof.
  intros Hlimit. unfold pageOf, skipLimit, skipOf, limitNum. cbn [withPage q_page q_limit].
  destruct (Z.ltb_spec ((Z.of_nat k + 1 - 1) * q_limit q) 0); [nia|].
  rewrite Z.min_l by lia.
  destruct (Z.eqb_spec (q_limit q) 0); [lia|].
  rewrite Z.abs_eq by lia.
  replace (Z.to_nat ((Z.of_nat k + 1 - 1) * q_limit q))
    with (k * Z.to_nat (q_limit q))%nat by nia.
  done.
Qed.

(** X14.  With a limit between 1 and 100 the pages of GET / tile the
    newest-first list of the shop's timers: the first [n] pages, one after
    the other, are the first [n * limit] timers, none skipped and none
    repeated. *)
Theorem pages_tile_the_list (shop : string) (q : ListQuery)
    (db : list Timer) (n : nat) :
  1 <= q_limit q <= 100 ->
  concat (map (fun k => default [] (pageOf shop (withPage q (Z.of_nat k + 1)) db))
            (seq 0 n))
  = take (n * Z.to_nat (q_limit q)) (matching shop q db).
Proof.
  intros Hlimit. induction n as [|n IH]; [done|].
  rewrite seq_S, map_app, concat_app, IH. simpl.
  rewrite pageOf_small_limit by done. simpl. rewrite app_nil_r.
  by rewrite (Nat.add_comm (Z.to_nat (q_limit q))), take_add.
Qed.

Lemma pages_tile_the_list_witness :
  let q := {| q_status := None; q_type := None; q_page := 1; q_limit := 1 |} in
  let db := [fixedTimer (Instant 10) (Instant 20); Storefront.evergreenTimer] in
  concat (map (fun k => default []
                          (pageOf "demo.myshopify.com" (withPage q (Z.of_nat k + 1)) db))
            (seq 0 2))
  = [Storefront.evergreenTimer; fixedTimer (Instant 10) (Instant 20)].
Proof.
  intros q db.
  rewrite (pages_tile_the_list "demo.myshopify.com" q db 2 ltac:(simpl; lia)).
  reflexivity.
Defined.

(** X15.  With a limit above 100 the pages leave gaps: page [p] starts
    at offset [(p - 1) * limit] but holds at most 100 timers, so a timer
    at a position whose remainder modulo the limit is 100 or more lies in
    the window of no page. *)
Theorem larger_limit_skips_records (shop : string) (q : ListQuery)
    (db : list Timer) :
  100 < q_limit q ->
  1 <= q_page q ->
  pageOf shop q db
  = Some (take 100 (drop (Z.to_nat ((q_page q - 1) * q_limit q))
                      (matching shop q db)))
  /\ forall (i : nat) (page : Z),
      100 <= Z.of_nat i mod q_limit q ->
      1 <= page ->
      ~ ((page - 1) * q_limit q <= Z.of_nat i < (page - 1) * q_limit q + 100).
Proof.
  intros Hlimit Hpage. split.
  - unfold pageOf, skipLimit, skipOf, limitNum.
    destruct (Z.ltb_spec ((q_page q - 1) * q_limit q) 0); [nia|].
    rewrite Z.min_r by lia. done.
  - intros i page Hmod Hp [Hlo Hhi].
    assert (Z.of_nat i mod q_limit q = Z.of_nat i - (page - 1) * q_limit q)
      as Heq.
    { symmetry. apply Z.mod_unique_pos with (q := page - 1); lia. }
    lia.
Qed.

Lemma larger_limit_skips_records_witness :
  let q := {| q_status := None; q_type := None; q_page := 2; q_limit := 150 |} in
  ~ ((2 - 1) * 150 <= Z.of_nat 120 < (2 - 1) * 150 + 100)
  /\ ~ ((1 - 1) * 150 <= Z.of_nat 120 < (1 - 1) * 150 + 100).
Proof.
  intros q.
  pose proof (proj2 (larger_limit_skips_records "demo.myshopify.com" q []
                       ltac:(simpl; lia) ltac:(simpl; lia))) as Hgap.
  split.
  - exact (Hgap 120%nat 2 ltac:(vm_compute; discriminate) ltac:(lia)).
  - exact (Hgap 120%nat 1 ltac:(vm_compute; discriminate) ltac:(lia)).
Defined.





End AdminProps.

(** ** Reading, toggling and deleting one timer *)

Module RecordRouteProps.
Import TimerModel AdminRoutes.

Lemma toggled_twice (now1 now2 : Z) (t : Timer) :
  toggled now2 (toggled now1 t) = stamped now2 t.
Proof. destruct t. unfold toggled, stamped. simpl. by rewrite negb_involutive. Qed.

Lemma find_app_first {A} (f : A -> bool) (l1 l2 : list A) :
  List.find f (l1 ++ l2)
  = match List.find f l1 with
    | Some x => Some x
    | None => List.find f l2
    end.
Proof.
  induction l1 as [|x l1 IH]; simpl; [done|]. by destruct (f x).
Qed.

Lemma find_none_forall {A} (f : A -> bool) (l : list A) :
  Forall (fun x => f x = false) l -> List.find f l = None.
Proof.
  induction 1 as [|x l Hx _ IH]; simpl; [done|]. by rewrite Hx.
Qed.

Lemma find_some_spec {A} (f : A -> bool) (l : list A) (x : A) :
  List.find f l = Some x -> x ∈ l /\ f x = true.
Proof.
  intros H. apply find_some in H as [Hin Hf]. split; [|done].
  by apply list_elem_of_In.
Qed.

Lemma find_findOneAndUpdate (f : Timer -> bool) (u : Timer -> Timer)
    (db : list Timer) :
  (forall t, f (u t) = f t) ->
  List.find f (Storefront.findOneAndUpdate f u db).2 = u <$> List.find f db.
Proof.
  intros Hf. induction db as [|t db IH]; simpl; [done|].
  destruct (f t) eqn:Ht; simpl.
  - by rewrite Hf, Ht.
  - destruct (Storefront.findOneAndUpdate f u db) as [found db'] eqn:Hrec.
    simpl in *. by rewrite Ht.
Qed.

Lemma findOneAndUpdate_compose (f : Timer -> bool) (u v : Timer -> Timer)
    (db : list Timer) :
  (forall t, f (u t) = f t) ->
  (Storefront.findOneAndUpdate f v
     (Storefront.findOneAndUpdate f u db).2).2
  = (Storefront.findOneAndUpdate f (fun t => v (u t)) db).2.
Proof.
  intros Hf. induction db as [|t db IH]; simpl; [done|].
  destruct (f t) eqn:Ht; simpl.
  - by rewrite Hf, Ht.
  - destruct (Storefront.findOneAndUpdate f u db) as [found db'] eqn:Hrec.
    destruct (Storefront.findOneAndUpdate f (fun t0 => v (u t0)) db)
      as [found2 db2] eqn:Hrec2.
    simpl in *. rewrite Ht.
    destruct (Storefront.findOneAndUpdate f v db') as [found' db''] eqn:Hrec'.
    simpl in *. by rewrite IH.
Qed.

Lemma findOneAndUpdate_ext (f : Timer -> bool) (u v : Timer -> Timer)
    (db : list Timer) :
  (forall t, u t = v t) ->
  Storefront.findOneAndUpdate f u db = Storefront.findOneAndUpdate f v db.
Proof.
  intros Huv. induction db as [|t db IH]; simpl; [done|].
  by rewrite Huv, IH.
Qed.

Lemma length_findOneAndUpdate (f : Timer -> bool) (u : Timer -> Timer)
    (db : list Timer) :
  length (Storefront.findOneAndUpdate f u db).2 = length db.
Proof.
  induction db as [|t db IH]; simpl; [done|].
  destruct (f t); simpl; [done|].
  destruct (Storefront.findOneAndUpdate f u db) as [found db']. simpl in *.
  by rewrite IH.
Qed.

Lemma othersOf_findOneAndUpdate (shop : string) (f : Timer -> bool)
    (u : Timer -> Timer) (db : list Timer) :
  (forall t, f t = true -> TimerModel.shop t = shop) ->
  (forall t, TimerModel.shop (u t) = TimerModel.shop t) ->
  othersOf shop (Storefront.findOneAndUpdate f u db).2 = othersOf shop db.
Proof.
  intros Hf Hu. unfold othersOf.
  induction db as [|t db IH]; simpl; [done|].
  destruct (f t) eqn:Ht; simpl.
  - by rewrite Hu, (Hf t Ht), String.eqb_refl.
  - destruct (Storefront.findOneAndUpdate f u db) as [found db']. simpl in *.
    by rewrite IH.
Qed.

Lemma findOneAndDelete_spec (f : Timer -> bool) (db : list Timer) :
  match findOneAndDelete f db with
  | (Some t, db') =>
      exists before after,
        db = before ++ t :: after /\ db' = before ++ after /\ f t = true
        /\ Forall (fun x => f x = false) before
  | (None, db') => db' = db /\ Forall (fun x => f x = false) db
  end.
Proof.
  induction db as [|t db IH]; simpl; [done|].
  destruct (f t) eqn:Ht.
  - exists [], db. by repeat split.
  - destruct (findOneAndDelete f db) as [[t'|] db'].
    + destruct IH as (before & after & -> & -> & Hf & Hall).
      exists (t :: before), after. split; [done|]. split; [done|].
      split; [done|]. by constructor.
    + destruct IH as [-> Hall]. split; [done|]. by constructor.
Qed.

Lemma byIdAndShop_spec (castId : string -> string) (id shop : string)
    (t : Timer) :
  byIdAndShop castId id shop t = true
  <-> _id t = castId id /\ TimerModel.shop t = Storefront.normalizeShop shop.
Proof.
  unfold byIdAndShop. rewrite andb_true_iff, !String.eqb_eq. done.
Qed.

(** X17. Toggling a timer twice restores it, but for the time stamp.
    When two successive PATCH /:id/toggle requests for the same id and
    shop both answer 200, the first answer carries the addressed timer
    with [isActive] negated, and after the second the collection is the
    collection before the first in which that timer has its [updatedAt]
    set to the time of the second save: its [isActive] and every other
    field are as they were, and so is every other record.  The collection
    itself is not restored, the stamp having moved. *)
Theorem toggle_twice_restores (isValid : string -> bool)
    (castId : string -> string) (saves : Timer -> bool) (now1 now2 : Z)
    (id shop : string) (db db1 db2 : list Timer) (r1 r2 : TimerResponse) :
  toggleTimer isValid castId saves now1 id shop db = (r1, db1) ->
  statusCode r1 = 200 ->
  toggleTimer isValid castId saves now2 id shop db1 = (r2, db2) ->
  statusCode r2 = 200 ->
  exists t, List.find (byIdAndShop castId id shop) db = Some t
            /\ data r1 = Some (toggled now1 t)
            /\ isActive (toggled now1 t) = negb (isActive t)
            /\ data r2 = Some (stamped now2 t)
            /\ db2 = (Storefront.findOneAndUpdate (byIdAndShop castId id shop)
                        (stamped now2) db).2
            /\ (updatedAt t <> now2 -> db2 <> db).
Proof.
  unfold toggleTimer. destruct (isValid id); simpl; [|by intros [= <- <-]].
  destruct (List.find (byIdAndShop castId id shop) db) as [t|] eqn:Hfind;
    [|by intros [= <- <-]].
  destruct (saves (toggled now1 t)); [|by intros [= <- <-]].
  intros [= <- <-] _.
  rewrite find_findOneAndUpdate by done. rewrite Hfind. simpl.
  rewrite toggled_twice.
  destruct (saves (stamped now2 t)); [|by intros [= <- <-]].
  intros [= <- <-] _. exists t.
  split; [done|]. split; [done|]. split; [done|]. split; [done|].
  assert ((Storefront.findOneAndUpdate (byIdAndShop castId id shop)
             (toggled now2)
             (Storefront.findOneAndUpdate (byIdAndShop castId id shop)
                (toggled now1) db).2).2
          = (Storefront.findOneAndUpdate (byIdAndShop castId id shop)
               (stamped now2) db).2) as Heq.
  { rewrite findOneAndUpdate_compose by done.
    f_equal. apply findOneAndUpdate_ext. intros u. apply toggled_twice. }
  split; [exact Heq|].
  intros Hstamp Hsame. rewrite Heq in Hsame.
  pose proof (find_findOneAndUpdate (byIdAndShop castId id shop)
                (stamped now2) db ltac:(done)) as Hafter.
  rewrite Hsame, Hfind in Hafter. simpl in Hafter.
  injection Hafter as Hafter. apply Hstamp. by rewrite Hafter at 1.
Qed.

Lemma toggle_twice_restores_witness :
  let db := [Storefront.foreignTimer; Storefront.storedTimer] in
  exists db1 db2 r1 r2,
    toggleTimer Storefront.hex24 Storefront.hexObjectId (fun _ => true) 5000
      "64B7F0C2A1D3E4F5A6B7C8D9" "Demo.myshopify.com" db = (r1, db1)
    /\ toggleTimer Storefront.hex24 Storefront.hexObjectId (fun _ => true) 6000
         "64B7F0C2A1D3E4F5A6B7C8D9" "Demo.myshopify.com" db1 = (r2, db2)
    /\ db2 = [Storefront.foreignTimer; stamped 6000 Storefront.storedTimer]
    /\ data r2 = Some (stamped 6000 Storefront.storedTimer).
Proof.
  intros db.
  destruct (toggleTimer Storefront.hex24 Storefront.hexObjectId (fun _ => true)
              5000 "64B7F0C2A1D3E4F5A6B7C8D9" "Demo.myshopify.com" db)
    as [r1 db1] eqn:H1.
  destruct (toggleTimer Storefront.hex24 Storefront.hexObjectId (fun _ => true)
              6000 "64B7F0C2A1D3E4F5A6B7C8D9" "Demo.myshopify.com" db1)
    as [r2 db2] eqn:H2.
  assert (statusCode r1 = 200) as Hs1.
  { vm_compute in H1. by injection H1 as <- <-. }
  assert (statusCode r2 = 200) as Hs2.
  { vm_compute in H1. injection H1 as <- <-. vm_compute in H2.
    by injection H2 as <- <-. }
  destruct (toggle_twice_restores Storefront.hex24 Storefront.hexObjectId
              (fun _ => true) 5000 6000
              "64B7F0C2A1D3E4F5A6B7C8D9" "Demo.myshopify.com"
              db db1 db2 r1 r2 H1 Hs1 H2 Hs2)
    as (t & Hfind & _ & _ & Hr2 & Hdb & _).
  vm_compute in Hfind. injection Hfind as <-.
  exists db1, db2, r1, r2. split; [done|]. split; [done|].
  split; [by rewrite Hdb|exact Hr2].
Defined.

(** X18. The routes on one timer keep to the caller's shop: GET /:id and
    PATCH /:id/toggle only ever answer with a timer stored under the
    requesting shop (in its stored form, lower-cased and trimmed) whose
    id is the ObjectId of the requested id, the toggle answering with
    that stored timer toggled; and neither the toggle nor DELETE /:id
    changes, removes or reorders a record of any other shop, whatever id
    is requested. *)
Theorem record_routes_keep_to_the_shop (isValid : string -> bool)
    (castId : string -> string) (saves : Timer -> bool) (now : Z)
    (id shop : string) (db : list Timer) :
  (forall t, data (getTimerById isValid castId id shop db) = Some t ->
     t ∈ db /\ TimerModel.shop t = Storefront.normalizeShop shop
     /\ _id t = castId id)
  /\ (forall t,
        data (toggleTimer isValid castId saves now id shop db).1 = Some t ->
        (exists stored, stored ∈ db /\ t = toggled now stored)
        /\ TimerModel.shop t = Storefront.normalizeShop shop
        /\ _id t = castId id)
  /\ othersOf (Storefront.normalizeShop shop)
       (toggleTimer isValid castId saves now id shop db).2
     = othersOf (Storefront.normalizeShop shop) db
  /\ length (toggleTimer isValid castId saves now id shop db).2 = length db
  /\ data (deleteTimer isValid castId id shop db).1 = None
  /\ othersOf (Storefront.normalizeShop shop)
       (deleteTimer isValid castId id shop db).2
     = othersOf (Storefront.normalizeShop shop) db.
Proof.
  split; [|split; [|split; [|split; [|split]]]].
  - intros t. unfold getTimerById. destruct (isValid id); simpl; [|done].
    destruct (List.find _ db) as [t'|] eqn:Hfind; simpl; [|done].
    intros [= <-]. apply find_some_spec in Hfind as [Hin Hf].
    by apply byIdAndShop_spec in Hf as [? ?].
  - intros t. unfold toggleTimer. destruct (isValid id); simpl; [|done].
    destruct (List.find _ db) as [t'|] eqn:Hfind; simpl; [|done].
    destruct (saves _); simpl; [|done].
    intros [= <-]. apply find_some_spec in Hfind as [Hin Hf].
    apply byIdAndShop_spec in Hf as [? ?]. split; [by exists t'|done].
  - unfold toggleTimer. destruct (isValid id); simpl; [|done].
    destruct (List.find _ db) as [t'|]; simpl; [|done].
    destruct (saves _); simpl; [|done].
    apply othersOf_findOneAndUpdate; [|done].
    intros t Hf. by apply byIdAndShop_spec in Hf as [? ?].
  - unfold toggleTimer. destruct (isValid id); simpl; [|done].
    destruct (List.find _ db) as [t'|]; simpl; [|done].
    destruct (saves _); simpl; [|done].
    apply length_findOneAndUpdate.
  - unfold deleteTimer. destruct (isValid id); simpl; [|done].
    by destruct (findOneAndDelete _ db) as [[t|] db'].
  - unfold deleteTimer. destruct (isValid id); simpl; [|done].
    pose proof (findOneAndDelete_spec (byIdAndShop castId id shop) db) as Hspec.
    destruct (findOneAndDelete _ db) as [[t|] db']; simpl.
    + destruct Hspec as (before & after & -> & -> & Hf & _).
      apply byIdAndShop_spec in Hf as [_ Hshop].
      unfold othersOf. rewrite !List.filter_app. simpl.
      by rewrite Hshop, String.eqb_refl.
    + by destruct Hspec as [-> _].
Qed.

(** X19. DELETE /:id removes exactly the addressed record: with unique
    ids in the collection, a 200 answer means that one stored timer
    whose id is the ObjectId of the requested id and whose shop is the
    requesting shop in its stored form was taken out and the rest kept
    in order, after which no id that is cast to the same ObjectId finds
    a timer, for any shop, and every id that is cast to another ObjectId
    reads as before; any other answer leaves the collection as it
    was. *)
Theorem delete_removes_the_addressed_record (isValid : string -> bool)
    (castId : string -> string) (id shop : string) (db : list Timer) :
  NoDup (map _id db) ->
  (statusCode (deleteTimer isValid castId id shop db).1 = 200 ->
     (exists t before after,
        db = before ++ t :: after
        /\ (deleteTimer isValid castId id shop db).2 = before ++ after
        /\ _id t = castId id
        /\ TimerModel.shop t = Storefront.normalizeShop shop)
     /\ statusCode (getTimerById isValid castId id shop
                      (deleteTimer isValid castId id shop db).2) = 404
     /\ (forall id' shop', castId id' = castId id ->
          data (getTimerById isValid castId id' shop'
                  (deleteTimer isValid castId id shop db).2) = None)
     /\ forall id' shop', castId id' <> castId id ->
          getTimerById isValid castId id' shop'
            (deleteTimer isValid castId id shop db).2
          = getTimerById isValid castId id' shop' db)
  /\ (statusCode (deleteTimer isValid castId id shop db).1 <> 200 ->
      (deleteTimer isValid castId id shop db).2 = db).
Proof.
  intros Hnodup. unfold deleteTimer.
  destruct (isValid id) eqn:Hvalid; simpl; [|done].
  pose proof (findOneAndDelete_spec (byIdAndShop castId id shop) db) as Hspec.
  destruct (findOneAndDelete _ db) as [[t|] db']; simpl.
  - destruct Hspec as (before & after & -> & -> & Hf & Hbefore).
    apply byIdAndShop_spec in Hf as [Hid Hshop].
    assert (forall id' shop', castId id' = castId id ->
              List.find (byIdAndShop castId id' shop') (before ++ after) = None)
      as Hgone.
    { intros id' shop' Hcast. apply find_none_forall, List.Forall_forall.
      intros x Hx%list_elem_of_In.
      destruct (byIdAndShop castId id' shop' x) eqn:Hfx; [|done].
      apply byIdAndShop_spec in Hfx as [Hidx _]. exfalso.
      rewrite map_app in Hnodup. simpl in Hnodup.
      apply NoDup_app in Hnodup as (_ & Hdisj & Hafter).
      apply NoDup_cons in Hafter as [Hnotin _].
      apply elem_of_app in Hx as [Hx|Hx].
      - apply (Hdisj (_id x)); [by apply list_elem_of_fmap_2|].
        rewrite Hidx, Hcast, <- Hid. left.
      - apply Hnotin. rewrite Hid, <- Hcast, <- Hidx.
        by apply list_elem_of_fmap_2. }
    split; [|done]. intros _. split; [|split; [|split]].
    + by exists t, before, after.
    + unfold getTimerById. rewrite Hvalid. simpl. by rewrite Hgone.
    + intros id' shop' Hcast. unfold getTimerById.
      destruct (isValid id'); simpl; [|done]. by rewrite Hgone.
    + intros id' shop' Hne. unfold getTimerById.
      destruct (isValid id'); simpl; [|done].
      rewrite !find_app_first. simpl.
      assert (byIdAndShop castId id' shop' t = false) as ->; [|done].
      unfold byIdAndShop. rewrite Hid.
      destruct (String.eqb_spec (castId id) (castId id')); [congruence|done].
  - destruct Hspec as [-> _]. split; [done|]. done.
Qed.

Lemma delete_removes_the_addressed_record_witness :
  let db := [Storefront.foreignTimer; Storefront.storedTimer] in
  NoDup (map _id db)
  /\ (deleteTimer Storefront.hex24 Storefront.hexObjectId
        "64B7F0C2A1D3E4F5A6B7C8D9" "demo.myshopify.com" db).2
     = [Storefront.foreignTimer]
  /\ statusCode (getTimerById Storefront.hex24 Storefront.hexObjectId
                   "64B7F0C2A1D3E4F5A6B7C8D9" "demo.myshopify.com"
                   (deleteTimer Storefront.hex24 Storefront.hexObjectId
                      "64B7F0C2A1D3E4F5A6B7C8D9" "demo.myshopify.com" db).2)
     = 404.
Proof.
  intros db.
  assert (NoDup (map _id db)) as Hnodup.
  { apply NoDup_cons. split; [|apply NoDup_singleton].
    intros Hin. by apply list_elem_of_singleton in Hin. }
  split; [done|]. split; [reflexivity|].
  exact (proj1 (proj2 (proj1 (delete_removes_the_addressed_record
                                Storefront.hex24 Storefront.hexObjectId
                                "64B7F0C2A1D3E4F5A6B7C8D9"
                                "demo.myshopify.com" db Hnodup)
                         ltac:(reflexivity)))).
Defined.

End RecordRouteProps.

(** ** Trimming and lower-casing *)

Module JsStringProps.
Import JsString.

Lemma append_nil_r (s : string) : s +:+ "" = s.
Proof.
  induction s as [|c s IH]; [done|].
  change (String c (s +:+ "") = String c s). by rewrite IH.
Qed.

Lemma append_cons (c : ascii) (s t : string) :
  String c s +:+ t = String c (s +:+ t).
Proof. done. Qed.

Lemma append_assoc (a b c : string) : (a +:+ b) +:+ c = a +:+ (b +:+ c).
Proof.
  induction a as [|x a IH]; [done|]. by rewrite !append_cons, IH.
Qed.

Lemma rev_app_append (x y t : string) :
  String.rev_app (x +:+ y) t = String.rev_app y (String.rev_app x t).
Proof. revert t. induction x as [|c x IH]; intros t; simpl; [done|]. apply IH. Qed.

Lemma rev_app_rev_app (s t u : string) :
  String.rev_app (String.rev_app s t) u = String.rev_app t (s +:+ u).
Proof.
  revert t u. induction s as [|c s IH]; intros t u; simpl; [done|].
  by rewrite IH.
Qed.

Lemma rev_involutive (s : string) : String.rev (String.rev s) = s.
Proof.
  unfold String.rev. rewrite rev_app_rev_app. apply append_nil_r.
Qed.

Lemma rev_app_rev (s t : string) : String.rev_app s t = String.rev s +:+ t.
Proof.
  unfold String.rev. revert t. induction s as [|c s IH]; intros t; simpl; [done|].
  rewrite (IH (String c "")), (IH (String c t)), append_assoc. done.
Qed.

Lemma rev_snoc (x : string) (c : ascii) :
  String.rev (x +:+ String c "") = String c (String.rev x).
Proof. unfold String.rev. by rewrite rev_app_append. Qed.

Lemma trimStart_idemp (s : string) : trimStart (trimStart s) = trimStart s.
Proof.
  induction s as [|c s IH]; simpl; [done|].
  destruct (Ascii.is_space c) eqn:Hc; [done|]. simpl. by rewrite Hc.
Qed.

Lemma trimStart_length (s : string) :
  (String.length (trimStart s) <= String.length s)%nat.
Proof.
  induction s as [|c s IH]; simpl; [done|].
  destruct (Ascii.is_space c); simpl; lia.
Qed.

Lemma trimStart_fixed (c : ascii) (s : string) :
  trimStart (String c s) = String c s -> Ascii.is_space c = false.
Proof.
  simpl. destruct (Ascii.is_space c); [|done]. intros H.
  pose proof (trimStart_length s) as Hlen. rewrite H in Hlen. simpl in Hlen. lia.
Qed.

Lemma trimStart_snoc (x y : string) (c : ascii) :
  Ascii.is_space c = false ->
  trimStart (x +:+ String c y) = trimStart x +:+ String c y.
Proof.
  intros Hc. induction x as [|a x IH]; simpl.
  - by rewrite Hc.
  - by destruct (Ascii.is_space a).
Qed.

Lemma trimStart_trimEnd (m : string) :
  trimStart m = m -> trimStart (trimEnd m) = trimEnd m.
Proof.
  destruct m as [|c m]; [done|]. intros Hc%trimStart_fixed.
  unfold trimEnd. unfold String.rev at 2 4. simpl.
  rewrite !rev_app_rev, !trimStart_snoc, !rev_snoc by done.
  simpl. by rewrite Hc.
Qed.

Lemma trimEnd_idemp (s : string) : trimEnd (trimEnd s) = trimEnd s.
Proof. unfold trimEnd. by rewrite rev_involutive, trimStart_idemp. Qed.

Lemma trim_idemp (s : string) : trim (trim s) = trim s.
Proof.
  unfold trim. rewrite trimStart_trimEnd by apply trimStart_idemp.
  apply trimEnd_idemp.
Qed.

Lemma is_space_lowerChar (c : ascii) :
  Ascii.is_space (lowerChar c) = Ascii.is_space c.
Proof. by destruct c as [[] [] [] [] [] [] [] []]. Qed.

Lemma lowerChar_idemp (c : ascii) : lowerChar (lowerChar c) = lowerChar c.
Proof. by destruct c as [[] [] [] [] [] [] [] []]. Qed.

Lemma toLowerCase_idemp (s : string) :
  toLowerCase (toLowerCase s) = toLowerCase s.
Proof.
  induction s as [|c s IH]; simpl; [done|]. by rewrite lowerChar_idemp, IH.
Qed.

Lemma toLowerCase_trimStart (s : string) :
  toLowerCase (trimStart s) = trimStart (toLowerCase s).
Proof.
  induction s as [|c s IH]; simpl; [done|].
  rewrite is_space_lowerChar. by destruct (Ascii.is_space c).
Qed.

Lemma toLowerCase_rev_app (s t : string) :
  toLowerCase (String.rev_app s t)
  = String.rev_app (toLowerCase s) (toLowerCase t).
Proof.
  revert t. induction s as [|c s IH]; intros t; simpl; [done|]. by rewrite IH.
Qed.

Lemma toLowerCase_trim (s : string) :
  toLowerCase (trim s) = trim (toLowerCase s).
Proof.
  unfold trim, trimEnd, String.rev.
  repeat (rewrite toLowerCase_rev_app || rewrite toLowerCase_trimStart). done.
Qed.

Lemma normalizeShop_idemp (shop : string) :
  Storefront.normalizeShop (Storefront.normalizeShop shop)
  = Storefront.normalizeShop shop.
Proof.
  unfold Storefront.normalizeShop.
  by rewrite toLowerCase_trim, toLowerCase_idemp, trim_idemp.
Qed.

End JsStringProps.

(** ** Installing and uninstalling a shop *)

Module ShopProps.
Import ShopModel.

Lemma find_replaceFirst (f g : Shop -> bool) (u : Shop -> Shop)
    (db : list Shop) (x : Shop) :
  (forall s, g s = true -> f s = true) ->
  (forall s, f s = true -> g (u s) = true) ->
  List.find f db = Some x ->
  List.find g (replaceFirst f u db) = Some (u x).
Proof.
  intros Hgf Hfu. induction db as [|s db IH]; simpl; [done|].
  destruct (f s) eqn:Hf.
  - intros [= <-]. simpl. by rewrite (Hfu s Hf).
  - intros Hfind. simpl. destruct (g s) eqn:Hg; [|by apply IH].
    apply Hgf in Hg. congruence.
Qed.

Lemma find_replaceFirst_other (f g : Shop -> bool) (u : Shop -> Shop)
    (db : list Shop) :
  (forall s, f s = true -> g s = false /\ g (u s) = false) ->
  List.find g (replaceFirst f u db) = List.find g db.
Proof.
  intros Hf. induction db as [|s db IH]; simpl; [done|].
  destruct (f s) eqn:Hfs; simpl.
  - destruct (Hf s Hfs) as [-> ->]. done.
  - by rewrite IH.
Qed.

Lemma map_shop_replaceFirst (f : Shop -> bool) (u : Shop -> Shop)
    (db : list Shop) :
  (forall s, f s = true -> shop (u s) = shop s) ->
  map shop (replaceFirst f u db) = map shop db.
Proof.
  intros Hf. induction db as [|s db IH]; simpl; [done|].
  destruct (f s) eqn:Hfs; simpl.
  - by rewrite (Hf s Hfs).
  - by rewrite IH.
Qed.

Lemma length_replaceFirst (f : Shop -> bool) (u : Shop -> Shop)
    (db : list Shop) :
  length (replaceFirst f u db) = length db.
Proof.
  induction db as [|s db IH]; simpl; [done|].
  destruct (f s); simpl; [done|]. by rewrite IH.
Qed.

Lemma elem_of_replaceFirst (f : Shop -> bool) (u : Shop -> Shop)
    (db : list Shop) (s' : Shop) :
  s' ∈ replaceFirst f u db ->
  s' ∈ db \/ exists s, s ∈ db /\ f s = true /\ s' = u s.
Proof.
  induction db as [|s db IH]; simpl; [by left|].
  destruct (f s) eqn:Hfs.
  - intros [->|Hin]%elem_of_cons.
    + right. exists s. split; [apply elem_of_cons; by left|done].
    + left. apply elem_of_cons. by right.
  - intros [->|Hin]%elem_of_cons.
    + left. apply elem_of_cons. by left.
    + destruct (IH Hin) as [Hdb|(s0 & Hdb & Hf0 & ->)].
      * left. apply elem_of_cons. by right.
      * right. exists s0. split; [apply elem_of_cons; by right|done].
Qed.

Lemma find_none_not_elem (n : string) (db : list Shop) :
  List.find (byShop n) db = None -> n ∉ map shop db.
Proof.
  induction db as [|s db IH]; simpl; [intros _; apply not_elem_of_nil|].
  unfold byShop at 1. destruct (String.eqb_spec (shop s) n) as [|Hne]; [done|].
  intros Hfind [Heq|Hin]%elem_of_cons; [congruence|]. by apply IH.
Qed.

Lemma installedAs_byShop (d : string) (s : Shop) :
  installedAs d s = true -> byShop (Storefront.normalizeShop d) s = true.
Proof. unfold installedAs. by intros [? _]%andb_true_iff. Qed.

Lemma byShop_spec (n : string) (s : Shop) : byShop n s = true <-> shop s = n.
Proof. unfold byShop. apply String.eqb_eq. Qed.

Lemma installedAs_other (d d' : string) (s : Shop) :
  Storefront.normalizeShop d' <> Storefront.normalizeShop d ->
  byShop (Storefront.normalizeShop d) s = true ->
  installedAs d' s = false.
Proof.
  intros Hne Hs%byShop_spec. unfold installedAs, byShop. rewrite Hs.
  destruct (String.eqb_spec (Storefront.normalizeShop d)
              (Storefront.normalizeShop d')); [congruence|done].
Qed.

Lemma lookup_after_install (validates : Shop -> bool)
    (clock : nat -> Z) (shopDomain token : string) (granted : list string)
    (db db' : list Shop) (s : Shop) :
  findOrCreateByShop validates clock shopDomain token granted db
  = Some (s, db') ->
  getWithAccessToken shopDomain db' = Some s
  /\ shop s = Storefront.normalizeShop shopDomain
  /\ accessToken s = Some token.
Proof.
  unfold findOrCreateByShop, getWithAccessToken.
  set (n := Storefront.normalizeShop shopDomain).
  destruct (List.find (byShop n) db) as [found|] eqn:Hfind.
  - destruct (validates _); [|done]. intros [= <- <-].
    apply find_some in Hfind as Hfound. destruct Hfound as [_ Hn%byShop_spec].
    split; [|done].
    apply (find_replaceFirst (byShop n) (installedAs shopDomain)
             (fun _ => reinstalled token granted (clock 0%nat) found)
             db found);
      [apply installedAs_byShop| |done].
    intros s0 _. unfold installedAs. simpl.
    rewrite andb_true_r. by apply byShop_spec.
  - destruct (validates _); [|done]. intros [= <- <-].
    assert (shop (created n token granted clock) = n) as Hshop.
    { simpl. apply JsStringProps.normalizeShop_idemp. }
    split; [|done].
    rewrite RecordRouteProps.find_app_first.
    assert (List.find (installedAs shopDomain) db = None) as ->.
    { apply RecordRouteProps.find_none_forall, List.Forall_forall.
      intros x Hx. destruct (installedAs shopDomain x) eqn:Hi; [|done].
      apply installedAs_byShop in Hi.
      pose proof (find_none _ _ Hfind x Hx) as Hno. unfold n in Hno.
      congruence. }
    simpl. unfold installedAs. fold n. simpl.
    assert (byShop n (created n token granted clock) = true) as ->;
      [by apply byShop_spec|done].
Qed.

(** X20. Installing makes the shop reachable.  When
    [findOrCreateByShop] succeeds, the returned document is the one that
    [getWithAccessToken] finds for the same domain, stored under the
    lower-cased and trimmed domain with the new token and scopes and
    marked installed; the shop domains in the collection stay unique; the
    lookups of every other shop answer as before; and a shop that was
    already known keeps its document, with its installation date and
    onboarding state, instead of getting a second one. *)
Theorem install_makes_shop_reachable (validates : Shop -> bool)
    (clock : nat -> Z) (shopDomain token : string) (granted : list string)
    (db db' : list Shop) (s : Shop) :
  findOrCreateByShop validates clock shopDomain token granted db
  = Some (s, db') ->
  getWithAccessToken shopDomain db' = Some s
  /\ (shop s = Storefront.normalizeShop shopDomain
      /\ accessToken s = Some token /\ scopes s = granted
      /\ isInstalled s = true /\ uninstalledAt s = None)
  /\ (NoDup (map shop db) -> NoDup (map shop db'))
  /\ (forall other,
        Storefront.normalizeShop other <> Storefront.normalizeShop shopDomain ->
        getWithAccessToken other db' = getWithAccessToken other db)
  /\ (forall old,
        List.find (byShop (Storefront.normalizeShop shopDomain)) db = Some old ->
        length db' = length db /\ installedAt s = installedAt old
        /\ steps s = steps old /\ completedAt s = completedAt old
        /\ shopInfo s = shopInfo old).
Proof.
  intros Hinstall.
  destruct (lookup_after_install _ _ _ _ _ _ _ _ Hinstall) as (Hget & _ & _).
  revert Hinstall Hget. unfold findOrCreateByShop, getWithAccessToken.
  set (n := Storefront.normalizeShop shopDomain).
  destruct (List.find (byShop n) db) as [found|] eqn:Hfind.
  - destruct (validates _); [|done]. intros [= <- <-] Hget.
    apply find_some in Hfind as Hfound. destruct Hfound as [_ Hn%byShop_spec].
    split; [|split; [|split; [|split]]].
    + done.
    + done.
    + intros Hnodup. rewrite map_shop_replaceFirst; [done|].
      intros s0 Hs0%byShop_spec. simpl. congruence.
    + intros other Hne. apply find_replaceFirst_other.
      intros s0 Hs0. split; [by apply (installedAs_other shopDomain)|].
      apply (installedAs_other shopDomain); [done|]. by apply byShop_spec.
    + intros old [= <-]. by rewrite length_replaceFirst.
  - destruct (validates _); [|done]. intros [= <- <-] Hget.
    assert (shop (created n token granted clock) = n) as Hshop.
    { simpl. apply JsStringProps.normalizeShop_idemp. }
    split; [|split; [|split; [|split]]].
    + done.
    + done.
    + intros Hnodup. rewrite map_app. cbn [List.map]. rewrite Hshop.
      apply NoDup_app. split; [done|]. split; [|apply NoDup_singleton].
      intros x Hx ->%list_elem_of_singleton.
      by apply (find_none_not_elem n db).
    + intros other Hne. rewrite RecordRouteProps.find_app_first. simpl.
      assert (installedAs other (created n token granted clock) = false) as ->.
      { apply (installedAs_other shopDomain); [done|]. by apply byShop_spec. }
      by destruct (List.find (installedAs other) db).
    + done.
Qed.

Lemma install_makes_shop_reachable_witness :
  exists s db',
    findOrCreateByShop Auth.demoValidates (fun n => 1000 + Z.of_nat n)
      " Demo.MyShopify.com " "shpat_1" ["write_products"] [] = Some (s, db')
    /\ shop s = "demo.myshopify.com"
    /\ getWithAccessToken " Demo.MyShopify.com " db' = Some s.
Proof.
  destruct (findOrCreateByShop Auth.demoValidates (fun n => 1000 + Z.of_nat n)
              " Demo.MyShopify.com " "shpat_1" ["write_products"] [])
    as [[s db']|] eqn:Hinstall; [|discriminate].
  exists s, db'. split; [done|].
  destruct (install_makes_shop_reachable _ _ _ _ _ _ _ _ Hinstall)
    as (Hget & (Hshop & _) & _).
  split; [|done]. by rewrite Hshop.
Defined.

Lemma uninstalled_only (now : Z) (n : string) (db : list Shop) (s : Shop) :
  NoDup (map shop db) ->
  s ∈ replaceFirst (byShop n) (uninstalled now) db -> shop s = n ->
  exists s0, s0 ∈ db /\ s = uninstalled now s0.
Proof.
  induction db as [|x db IH]; simpl; [by intros _ ?%elem_of_nil|].
  intros [Hnotin Hnodup]%NoDup_cons.
  destruct (byShop n x) eqn:Hx.
  - apply byShop_spec in Hx.
    intros [->|Hin]%elem_of_cons Hs.
    + exists x. split; [apply elem_of_cons; by left|done].
    + exfalso. apply Hnotin. rewrite Hx, <- Hs. by apply list_elem_of_fmap_2.
  - intros [->|Hin]%elem_of_cons Hs.
    + apply byShop_spec in Hs. congruence.
    + destruct (IH Hnodup Hin Hs) as (s0 & Hs0 & ->).
      exists s0. split; [apply elem_of_cons; by right|done].
Qed.

Lemma lookup_after_uninstall (now : Z) (shopDomain : string)
    (db : list Shop) :
  NoDup (map shop db) ->
  getWithAccessToken shopDomain (markUninstalled now shopDomain db).2 = None.
Proof.
  intros Hnodup. unfold markUninstalled, getWithAccessToken. simpl.
  apply RecordRouteProps.find_none_forall, List.Forall_forall.
  intros x Hx%list_elem_of_In.
  destruct (installedAs shopDomain x) eqn:Hi; [|done].
  unfold installedAs in Hi. apply andb_true_iff in Hi as [Hs%byShop_spec Hinst].
  destruct (uninstalled_only now _ db x Hnodup Hx Hs) as (s0 & _ & ->).
  done.
Qed.

Lemma getWithAccessToken_normalized (a b : string) (db : list Shop) :
  Storefront.normalizeShop a = Storefront.normalizeShop b ->
  getWithAccessToken a db = getWithAccessToken b db.
Proof.
  intros Heq. unfold getWithAccessToken, installedAs. by rewrite Heq.
Qed.

(** X21. Uninstalling revokes access.  With unique shop domains, after
    [markUninstalled] every document of the shop has no token, is marked
    not installed and carries the uninstall date, so that
    [getWithAccessToken] finds nothing for it; no document is added or
    removed, the lookups of every other shop answer as before, and the
    answer is [null] exactly when the shop has no document. *)
Theorem uninstall_revokes_access (now : Z) (shopDomain : string)
    (db : list Shop) :
  NoDup (map shop db) ->
  getWithAccessToken shopDomain (markUninstalled now shopDomain db).2 = None
  /\ (forall s, s ∈ (markUninstalled now shopDomain db).2 ->
        shop s = Storefront.normalizeShop shopDomain ->
        accessToken s = None /\ isInstalled s = false
        /\ uninstalledAt s = Some now)
  /\ map shop (markUninstalled now shopDomain db).2 = map shop db
  /\ (forall other,
        Storefront.normalizeShop other <> Storefront.normalizeShop shopDomain ->
        getWithAccessToken other (markUninstalled now shopDomain db).2
        = getWithAccessToken other db)
  /\ ((markUninstalled now shopDomain db).1 = None
      <-> Storefront.normalizeShop shopDomain ∉ map shop db).
Proof.
  intros Hnodup. unfold markUninstalled, getWithAccessToken. simpl.
  set (n := Storefront.normalizeShop shopDomain).
  assert (forall s, s ∈ replaceFirst (byShop n) (uninstalled now) db ->
            shop s = n ->
            accessToken s = None /\ isInstalled s = false
            /\ uninstalledAt s = Some now) as Hall.
  { intros s Hin Hs.
    by destruct (uninstalled_only now n db s Hnodup Hin Hs) as (s0 & _ & ->). }
  split; [|split; [done|split; [|split]]].
  - by apply (lookup_after_uninstall now shopDomain db).
  - by apply map_shop_replaceFirst.
  - intros other Hne. apply find_replaceFirst_other.
    intros s0 Hs0. split; [by apply (installedAs_other shopDomain)|].
    apply (installedAs_other shopDomain); [done|].
    apply byShop_spec. simpl. by apply byShop_spec in Hs0.
  - destruct (List.find (byShop n) db) as [found|] eqn:Hfind; simpl.
    + split; [done|]. intros Hnotin. exfalso. apply Hnotin.
      apply find_some in Hfind as [Hin Hs%byShop_spec].
      rewrite <- Hs. by apply list_elem_of_fmap_2, list_elem_of_In.
    + split; [|done]. intros _. by apply find_none_not_elem.
Qed.

Lemma uninstall_revokes_access_witness :
  NoDup (map shop [Auth.demoShop])
  /\ getWithAccessToken "demo.myshopify.com" [Auth.demoShop]
     = Some Auth.demoShop
  /\ getWithAccessToken "demo.myshopify.com"
       (markUninstalled 5000 "Demo.myshopify.com" [Auth.demoShop]).2 = None.
Proof.
  assert (NoDup (map shop [Auth.demoShop])) as Hnodup.
  { apply NoDup_singleton. }
  split; [done|]. split; [reflexivity|].
  exact (proj1 (uninstall_revokes_access 5000 "Demo.myshopify.com"
                  [Auth.demoShop] Hnodup)).
Defined.

Lemma stepValue_known (step : string) (st : Steps) :
  is_Some (stepValue step st)
  <-> step ∈ ["installedApp"; "createdFirstTimer"; "viewedAnalytics"].
Proof.
  unfold stepValue. rewrite !elem_of_cons, elem_of_nil.
  destruct (String.eqb_spec step "installedApp");
    [split; [by left|by eexists]|].
  destruct (String.eqb_spec step "createdFirstTimer");
    [split; [right; by left|by eexists]|].
  destruct (String.eqb_spec step "viewedAnalytics");
    [split; [right; right; by left|by eexists]|].
  split; [by intros [? ?]|]. by intros [?|[?|[?|[]]]].
Qed.

Lemma stepsKept_refl (st : Steps) : stepsKept st st.
Proof. by repeat split. Qed.

Lemma stepsKept_trans (a b c : Steps) :
  stepsKept a b -> stepsKept b c -> stepsKept a c.
Proof. unfold stepsKept. intros (?&?&?) (?&?&?). repeat split; auto. Qed.

Lemma stepsKept_setStep (step : string) (st : Steps) :
  stepsKept st (setStep step st).
Proof.
  unfold stepsKept, setStep. simpl.
  repeat split; intros ->; apply orb_true_r.
Qed.

Lemma is_Some_decide {A} (o : option A) :
  bool_decide (is_Some o) = match o with Some _ => true | None => false end.
Proof.
  destruct o.
  - apply bool_decide_eq_true_2. by eexists.
  - apply bool_decide_eq_false_2. by intros [? ?].
Qed.

Lemma completeOnboardingStep_spec (validates : Shop -> bool) (now : Z)
    (step : string) (s s' : Shop) :
  onboardingConsistent s ->
  completeOnboardingStep validates now step s = Some s' ->
  onboardingConsistent s' /\ stepsKept (steps s) (steps s')
  /\ (forall t, completedAt s = Some t -> completedAt s' = Some t)
  /\ (forall t, completedAt s' = Some t ->
        completedAt s = Some t
        \/ (t = now /\ completedAt s = None /\ is_Some (stepValue step (steps s))))
  /\ (is_Some (stepValue step (steps s)) -> stepValue step (steps s') = Some true)
  /\ (shop s' = shop s /\ accessToken s' = accessToken s
      /\ isInstalled s' = isInstalled s).
Proof.
  intros Hcons. unfold completeOnboardingStep. rewrite is_Some_decide.
  destruct (stepValue step (steps s)) as [v|] eqn:Hstep.
  - destruct (validates _); [|done]. intros [= <-]. cbn [completedAt steps shop accessToken isInstalled].
    split; [|split; [|split; [|split; [|split]]]].
    + unfold onboardingConsistent in *. cbn [completedAt steps].
      destruct (allCompleted (setStep step (steps s))) eqn:Hall.
      * destruct (completedAt s) as [t|]; cbn; split; try done; by eexists.
      * rewrite andb_false_l. split; [|done]. intros Hsome. apply Hcons in Hsome.
        pose proof (stepsKept_setStep step (steps s)) as (H1 & H2 & H3).
        unfold allCompleted in *.
        apply andb_true_iff in Hsome as [[Ha Hb]%andb_true_iff Hc].
        by rewrite (H1 Ha), (H2 Hb), (H3 Hc) in Hall.
    + apply stepsKept_setStep.
    + intros t Ht. rewrite Ht. by rewrite andb_false_r.
    + intros t. destruct (completedAt s) as [t0|] eqn:Hc.
      * rewrite andb_false_r. by left.
      * destruct (_ && _); [|done]. intros [= <-]. right.
        split; [done|]. split; [done|]. by eexists.
    + intros _. unfold stepValue, setStep in *. cbn.
      destruct (String.eqb step "installedApp"); [done|].
      destruct (String.eqb step "createdFirstTimer"); [done|].
      by destruct (String.eqb step "viewedAnalytics").
    + done.
  - intros [= <-]. split; [done|]. split; [apply stepsKept_refl|].
    split; [done|]. split; [by left|]. split; [by intros [? ?]|done].
Qed.

(** X22. The onboarding of a shop completes once.  Starting from a
    document whose completion date is set exactly when all steps are
    done (such as a new one), after any run of [completeOnboardingStep]
    calls whose saves succeed this is still so; no step that was done is
    undone; a completion date once set is never replaced; a date that
    appears is the clock reading of one of the calls; every step of the
    schema that was named is done; and the shop domain, the token and the
    installation flag are untouched. *)
Theorem onboarding_completes_once (validates : Shop -> bool)
    (calls : list (Z * string)) (s s' : Shop) :
  onboardingConsistent s ->
  completeAll validates calls s = Some s' ->
  onboardingConsistent s'
  /\ stepsKept (steps s) (steps s')
  /\ (forall t, completedAt s = Some t -> completedAt s' = Some t)
  /\ (forall t, completedAt s' = Some t ->
        completedAt s = Some t \/ exists step, (t, step) ∈ calls)
  /\ (forall t step, (t, step) ∈ calls ->
        step ∈ ["installedApp"; "createdFirstTimer"; "viewedAnalytics"] ->
        stepValue step (steps s') = Some true)
  /\ (shop s' = shop s /\ accessToken s' = accessToken s
      /\ isInstalled s' = isInstalled s).
Proof.
  revert s. induction calls as [|[now step] calls IH]; intros s Hcons; simpl.
  - intros [= <-]. split; [done|]. split; [apply stepsKept_refl|].
    split; [done|]. split; [by left|]. split; [|done].
    by intros t step ?%elem_of_nil.
  - destruct (completeOnboardingStep validates now step s) as [s1|] eqn:Hstep;
      [|done].
    intros Hrest.
    destruct (completeOnboardingStep_spec _ _ _ _ _ Hcons Hstep)
      as (Hcons1 & Hkept1 & Hfix1 & Hdate1 & Hdone1 & Hs1 & Ha1 & Hi1).
    destruct (IH s1 Hcons1 Hrest)
      as (Hcons' & Hkept' & Hfix' & Hdate' & Hdone' & Hs' & Ha' & Hi').
    split; [done|]. split; [by eapply stepsKept_trans|].
    split; [by auto|]. split; [|split].
    + intros t Ht. destruct (Hdate' t Ht) as [H1|[step' Hin]].
      * destruct (Hdate1 t H1) as [?|(-> & _ & _)]; [by left|].
        right. exists step. apply elem_of_cons. by left.
      * right. exists step'. apply elem_of_cons. by right.
    + intros t step' [[= -> ->]|Hin]%elem_of_cons Hknown.
      * apply (stepValue_known _ (steps s)) in Hknown.
        specialize (Hdone1 Hknown).
        destruct Hkept' as (K1 & K2 & K3).
        unfold stepValue in *.
        destruct (String.eqb step "installedApp");
          [injection Hdone1 as Hd; by rewrite (K1 Hd)|].
        destruct (String.eqb step "createdFirstTimer");
          [injection Hdone1 as Hd; by rewrite (K2 Hd)|].
        destruct (String.eqb step "viewedAnalytics"); [|done].
        injection Hdone1 as Hd. by rewrite (K3 Hd).
      * by eapply Hdone'.
    + split; [congruence|]. split; congruence.
Qed.

Lemma onboarding_completes_once_witness :
  exists s',
    completeAll Auth.demoValidates
      [(5, "createdFirstTimer"); (9, "viewedAnalytics");
       (12, "createdFirstTimer")] Auth.demoShop = Some s'
    /\ completedAt s' = Some 9
    /\ onboardingConsistent s'.
Proof.
  assert (onboardingConsistent Auth.demoShop) as Hcons.
  { split; [by intros [? ?]|done]. }
  destruct (completeAll Auth.demoValidates
              [(5, "createdFirstTimer"); (9, "viewedAnalytics");
               (12, "createdFirstTimer")] Auth.demoShop) as [s'|] eqn:Hrun;
    [|discriminate].
  exists s'. split; [done|]. split.
  - vm_compute in Hrun. by injection Hrun as <-.
  - exact (proj1 (onboarding_completes_once _ _ _ _ Hcons Hrun)).
Defined.

End ShopProps.

(** ** The session middleware *)

Module AuthProps.
Import ShopModel Auth.

Lemma startsWith_split (s p : string) :
  Js.startsWith s p = true -> s = p +:+ dropString (String.length p) s.
Proof.
  revert s. induction p as [|b p IH]; intros s; [done|].
  destruct s as [|a s]; [done|]. simpl.
  intros [Hab%Ascii.eqb_eq Hrest]%andb_true_iff. subst b.
  rewrite JsStringProps.append_cons. f_equal. by apply IH.
Qed.

Lemma removeFirst_startsWith (p s : string) :
  Js.startsWith s p = true -> removeFirst p s = dropString (String.length p) s.
Proof. intros H. destruct s; cbn [removeFirst]; by rewrite H. Qed.

Lemma startsWith_append (p t : string) : Js.startsWith (p +:+ t) p = true.
Proof.
  induction p as [|b p IH]; [by destruct t|].
  rewrite JsStringProps.append_cons. simpl. by rewrite Ascii.eqb_refl, IH.
Qed.

Lemma dropString_append (p t : string) :
  dropString (String.length p) (p +:+ t) = t.
Proof. induction p as [|b p IH]; [done|]. by rewrite JsStringProps.append_cons. Qed.

Lemma removeFirst_prefix (p t : string) : removeFirst p (p +:+ t) = t.
Proof.
  rewrite removeFirst_startsWith by apply startsWith_append.
  apply dropString_append.
Qed.

Lemma nonEmpty_spec (s : string) : JsString.nonEmpty s = true <-> s <> "".
Proof.
  unfold JsString.nonEmpty. destruct (String.eqb_spec s ""); split; done.
Qed.

Lemma truthy_spec (o : option string) :
  Js.truthy o = true <-> exists v, o = Some v /\ v <> "".
Proof.
  destruct o as [v|]; simpl.
  - destruct (String.eqb_spec v ""); split; try done.
    + by intros (? & [= <-] & ?).
    + intros _. by exists v.
  - split; [done|]. by intros (? & ? & _).
Qed.

Lemma bearer_header (authorization : option string) :
  Js.truthy authorization = true ->
  Js.startsWith (default "" authorization) "Bearer " = true ->
  authorization
  = Some ("Bearer " +:+ removeFirst "Bearer " (default "" authorization)).
Proof.
  intros (v & -> & _)%truthy_spec Hstarts. simpl in *.
  rewrite (removeFirst_startsWith _ _ Hstarts).
  f_equal. by apply startsWith_split.
Qed.

Lemma filter_rest_replaceFirst (f : Shop -> bool) (u : Shop -> Shop)
    (db : list Shop) :
  (forall s, f s = true -> f (u s) = true) ->
  List.filter (fun s => negb (f s)) (replaceFirst f u db)
  = List.filter (fun s => negb (f s)) db.
Proof.
  intros Hf. induction db as [|s db IH]; simpl; [done|].
  destruct (f s) eqn:Hs; simpl.
  - by rewrite (Hf s Hs).
  - by rewrite Hs, IH.
Qed.

(** X23. Outside development mode the session middleware lets a request
    through only with a header [Bearer <token>] whose token verifies and
    names, after removing [https://], a non-empty domain of a shop that
    is stored as installed with a non-empty access token; the request
    then carries that domain, that token and the shop's document with a
    new last-active date; no document is added or removed, the stored
    domains stay as they are, and every document that is not an
    installed document of that shop is left as it was; and
    [optionalShopifySession] attaches the same shop and token to the same
    request.  Every other request is answered 401 or 500 and leaves the
    collection as it was. *)
Theorem session_guard (env : Env) (decodeSessionToken : string -> option string)
    (validates : Shop -> bool) (now : Z) (authorization : option string)
    (db : list Shop) :
  development env = false ->
  match verifyShopifySession env decodeSessionToken validates now
          authorization db with
  | (Next req, db') =>
      exists token dest record,
        authorization = Some ("Bearer " +:+ token)
        /\ decodeSessionToken token = Some dest
        /\ req_shop req = removeFirst "https://" dest
        /\ req_shop req <> ""
        /\ record ∈ db
        /\ getWithAccessToken (req_shop req) db = Some record
        /\ shop record = Storefront.normalizeShop (req_shop req)
        /\ isInstalled record = true
        /\ accessToken record = Some (req_accessToken req)
        /\ req_accessToken req <> ""
        /\ req_shopRecord req = Some (touch now record)
        /\ lastActiveAt (touch now record) = now
        /\ map shop db' = map shop db
        /\ List.filter (fun s => negb (installedAs (req_shop req) s)) db'
           = List.filter (fun s => negb (installedAs (req_shop req) s)) db
        /\ optionalShopifySession decodeSessionToken authorization db
           = Some {| req_shop := req_shop req;
                     req_accessToken := req_accessToken req;
                     req_shopRecord := Some record |}
  | (Status status code, db') =>
      db' = db /\ (status = 401 \/ status = 500)
  end.
Proof.
  intros Hprod. unfold verifyShopifySession, optionalShopifySession.
  rewrite Hprod. cbn [andb].
  destruct (Js.truthy authorization) eqn:Htruthy; cbn [negb orb];
    [|by split; [|left]].
  destruct (Js.startsWith (default "" authorization) "Bearer ") eqn:Hstarts;
    cbn [negb]; [|by split; [|left]].
  set (token := removeFirst "Bearer " (default "" authorization)).
  destruct (decodeSessionToken token) as [dest|] eqn:Hdecode;
    [|by split; [|left]].
  destruct (JsString.nonEmpty (removeFirst "https://" dest)) eqn:Hshop;
    cbn [negb]; [|by split; [|left]].
  destruct (getWithAccessToken (removeFirst "https://" dest) db)
    as [record|] eqn:Hget; [|by split; [|left]].
  destruct (Js.truthy (accessToken record)) eqn:Htoken; cbn [negb];
    [|by split; [|left]].
  destruct (validates (touch now record)) eqn:Hvalid; [|by split; [|right]].
  cbn [req_shop req_accessToken req_shopRecord].
  apply truthy_spec in Htoken as (tok & Htok & Hne).
  pose proof Hget as Hfound. unfold getWithAccessToken in Hfound.
  apply find_some in Hfound as [Hin Hinst].
  pose proof Hinst as Hinst'. unfold installedAs in Hinst.
  apply andb_true_iff in Hinst as [Hs%ShopProps.byShop_spec Hinstalled].
  exists token, dest, record.
  split; [by apply bearer_header|]. split; [done|]. split; [done|].
  split; [by apply nonEmpty_spec|]. split; [by apply list_elem_of_In|].
  split; [done|]. split; [done|]. split; [done|].
  rewrite Htok. cbn [default].
  split; [done|]. split; [done|]. split; [done|]. split; [done|].
  split; [|split; [|done]].
  - apply ShopProps.map_shop_replaceFirst.
    intros s0 [Hs0%ShopProps.byShop_spec _]%andb_true_iff. simpl. congruence.
  - apply filter_rest_replaceFirst. intros s0 _. exact Hinst'.
Qed.

Lemma session_guard_witness :
  exists req db',
    verifyShopifySession {| development := false; TEST_SHOP := None |}
      demoDecode demoValidates 2000
      (Some "Bearer https://demo.myshopify.com") [demoShop] = (Next req, db')
    /\ req_shop req = "demo.myshopify.com"
    /\ req_accessToken req = "shpat_1"
    /\ map shop db' = ["demo.myshopify.com"].
Proof.
  pose proof (session_guard {| development := false; TEST_SHOP := None |}
                demoDecode demoValidates 2000
                (Some "Bearer https://demo.myshopify.com") [demoShop]
                eq_refl) as Hguard.
  destruct (verifyShopifySession _ _ _ _ _ _) as [[req|status code] db']
    eqn:Hrun; [|by vm_compute in Hrun].
  exists req, db'. split; [done|].
  destruct Hguard as (token & dest & record & _ & _ & _ & _ & _ & _ & _ & _
                      & _ & _ & _ & _ & Hshops & _).
  vm_compute in Hrun. injection Hrun as <- <-. by repeat split.
Defined.

(** X24. An uninstalled shop is locked out.  With unique shop domains,
    once [markUninstalled] has run for a shop, every request whose token
    names that shop (in any letter case, with surrounding blanks) is
    answered 401 by the session middleware outside development mode,
    nothing is written, and [optionalShopifySession] attaches no shop. *)
Theorem uninstalled_shop_is_locked_out (env : Env)
    (decodeSessionToken : string -> option string)
    (validates : Shop -> bool) (now later : Z) (shopDomain : string)
    (authorization : option string) (db : list Shop) :
  development env = false ->
  NoDup (map shop db) ->
  (forall dest,
     decodeSessionToken (removeFirst "Bearer " (default "" authorization))
     = Some dest ->
     Storefront.normalizeShop (removeFirst "https://" dest)
     = Storefront.normalizeShop shopDomain) ->
  (exists code,
     verifyShopifySession env decodeSessionToken validates later authorization
       (markUninstalled now shopDomain db).2
     = (Status 401 code, (markUninstalled now shopDomain db).2))
  /\ optionalShopifySession decodeSessionToken authorization
       (markUninstalled now shopDomain db).2 = None.
Proof.
  intros Hprod Hnodup Hnames.
  unfold verifyShopifySession, optionalShopifySession.
  rewrite Hprod. cbn [andb].
  destruct (negb (Js.truthy authorization)
            || negb (Js.startsWith (default "" authorization) "Bearer "));
    [split; [by eexists|done]|].
  destruct (decodeSessionToken _) as [dest|] eqn:Hdecode;
    [|split; [by eexists|done]].
  rewrite (ShopProps.getWithAccessToken_normalized _ shopDomain)
    by by apply Hnames.
  rewrite ShopProps.lookup_after_uninstall by done.
  split; [|done].
  destruct (negb (JsString.nonEmpty _)); by eexists.
Qed.

Lemma uninstalled_shop_is_locked_out_witness :
  verifyShopifySession {| development := false; TEST_SHOP := None |}
    demoDecode demoValidates 6000 (Some "Bearer https://Demo.myshopify.com")
    (markUninstalled 5000 "demo.myshopify.com" [demoShop]).2
  = (Status 401 "SHOP_NOT_FOUND",
     (markUninstalled 5000 "demo.myshopify.com" [demoShop]).2).
Proof.
  assert (NoDup (map shop [demoShop])) as Hnodup by apply NoDup_singleton.
  assert (forall dest,
            demoDecode (removeFirst "Bearer "
                          (default "" (Some "Bearer https://Demo.myshopify.com")))
            = Some dest ->
            Storefront.normalizeShop (removeFirst "https://" dest)
            = Storefront.normalizeShop "demo.myshopify.com") as Hnames.
  { intros dest. vm_compute. by intros [= <-]. }
  destruct (proj1 (uninstalled_shop_is_locked_out
                     {| development := false; TEST_SHOP := None |}
                     demoDecode demoValidates 5000 6000 "demo.myshopify.com"
                     (Some "Bearer https://Demo.myshopify.com") [demoShop]
                     eq_refl Hnodup Hnames)) as [code Hrun].
  rewrite Hrun. f_equal. f_equal.
  vm_compute in Hrun. by injection Hrun as <-.
Defined.

(** X25. A reinstalled shop is let in again.  After a successful
    [findOrCreateByShop] with a non-empty access token, a request with
    the header [Bearer <token>] whose token verifies and names that shop
    passes the session middleware, in development mode or not, provided
    the save of the last-active date validates: the request carries the
    domain of the token, the access token just stored and the stored
    document, and the shop can be looked up afterwards with its new
    last-active date. *)
Theorem reinstalled_shop_is_admitted (env : Env)
    (decodeSessionToken : string -> option string)
    (validates : Shop -> bool) (clock : nat -> Z) (now : Z)
    (shopDomain accessToken' token dest : string) (granted : list string)
    (db db1 : list Shop) (s : Shop) :
  findOrCreateByShop validates clock shopDomain accessToken' granted db
  = Some (s, db1) ->
  accessToken' <> "" ->
  token <> "" ->
  decodeSessionToken token = Some dest ->
  removeFirst "https://" dest <> "" ->
  Storefront.normalizeShop (removeFirst "https://" dest)
  = Storefront.normalizeShop shopDomain ->
  validates (touch now s) = true ->
  exists db2,
    verifyShopifySession env decodeSessionToken validates now
      (Some ("Bearer " +:+ token)) db1
    = (Next {| req_shop := removeFirst "https://" dest;
               req_accessToken := accessToken';
               req_shopRecord := Some (touch now s) |}, db2)
    /\ getWithAccessToken shopDomain db2 = Some (touch now s).
Proof.
  intros Hinstall Htok Htoken Hdecode Hdomain Hsame Hvalid.
  destruct (ShopProps.lookup_after_install _ _ _ _ _ _ _ _ Hinstall)
    as (Hget & Hshop & Haccess).
  unfold verifyShopifySession.
  assert (Js.truthy (Some ("Bearer " +:+ token)) = true) as ->.
  { apply truthy_spec. eexists. split; [done|]. by destruct token. }
  assert (bool_decide (Some ("Bearer " +:+ token) = Some "Bearer ") = false)
    as ->.
  { apply bool_decide_eq_false_2. intros [= H]. by destruct token. }
  assert (bool_decide (Some ("Bearer " +:+ token) = Some "Bearer") = false)
    as ->.
  { apply bool_decide_eq_false_2. by intros [= H]. }
  cbn [negb orb andb default]. rewrite andb_false_r. unfold id.
  rewrite startsWith_append. cbn [negb].
  rewrite removeFirst_prefix, Hdecode.
  assert (JsString.nonEmpty (removeFirst "https://" dest) = true) as ->
    by by apply nonEmpty_spec.
  cbn [negb].
  rewrite (ShopProps.getWithAccessToken_normalized _ shopDomain) by done.
  rewrite Hget, Haccess.
  assert (Js.truthy (Some accessToken') = true) as ->.
  { apply truthy_spec. by eexists. }
  cbn [negb default]. rewrite Hvalid.
  eexists. split; [done|].
  unfold getWithAccessToken in *.
  apply find_some in Hget as Hfound. destruct Hfound as [_ Hinst].
  apply (ShopProps.find_replaceFirst
           (installedAs (removeFirst "https://" dest)) (installedAs shopDomain)
           (fun _ => touch now s) db1 s).
  - intros s0. unfold installedAs. by rewrite Hsame.
  - intros s0 _. exact Hinst.
  - unfold installedAs in *. by rewrite Hsame.
Qed.

Lemma reinstalled_shop_is_admitted_witness :
  let db1 := (markUninstalled 5000 "demo.myshopify.com" [demoShop]).2 in
  exists s db2 db3,
    findOrCreateByShop demoValidates (fun n => 7000 + Z.of_nat n)
      "Demo.myshopify.com" "shpat_2" ["read_products"] db1 = Some (s, db2)
    /\ verifyShopifySession {| development := false; TEST_SHOP := None |}
         demoDecode demoValidates 8000
         (Some "Bearer https://demo.myshopify.com") db2
       = (Next {| req_shop := "demo.myshopify.com";
                  req_accessToken := "shpat_2";
                  req_shopRecord := Some (touch 8000 s) |}, db3)
    /\ installedAt s = 1000.
Proof.
  intros db1.
  destruct (findOrCreateByShop demoValidates (fun n => 7000 + Z.of_nat n)
              "Demo.myshopify.com" "shpat_2" ["read_products"] db1)
    as [[s db2]|] eqn:Hinstall; [|discriminate].
  assert (validates_touch : demoValidates (touch 8000 s) = true).
  { vm_compute in Hinstall. by injection Hinstall as <- <-. }
  destruct (reinstalled_shop_is_admitted
              {| development := false; TEST_SHOP := None |}
              demoDecode demoValidates (fun n => 7000 + Z.of_nat n) 8000
              "Demo.myshopify.com" "shpat_2" "https://demo.myshopify.com"
              "https://demo.myshopify.com" ["read_products"] db1 db2 s
              Hinstall ltac:(discriminate) ltac:(discriminate)
              ltac:(reflexivity) ltac:(discriminate) ltac:(reflexivity)
              validates_touch) as (db3 & Hrun & _).
  exists s, db2, db3. split; [done|]. split; [exact Hrun|].
  vm_compute in Hinstall. by injection Hinstall as <- <-.
Defined.

End AuthProps.

(** ** Sanitizing free text *)

Module SanitizeProps.
Import JsString Sanitize.

Lemma slice0_nil (s : string) : TimersRoute.slice0 0 s = "".
Proof. unfold TimersRoute.slice0. by destruct s. Qed.

Lemma slice0_cons (n : nat) (c : ascii) (s : string) :
  TimersRoute.slice0 (S n) (String c s) = String c (TimersRoute.slice0 n s).
Proof. done. Qed.

Lemma slice0_empty (n : nat) : TimersRoute.slice0 n "" = "".
Proof. by destruct n. Qed.

Lemma slice0_length (n : nat) (s : string) :
  (String.length (TimersRoute.slice0 n s) <= n)%nat
  /\ (String.length (TimersRoute.slice0 n s) <= String.length s)%nat.
Proof.
  revert n. induction s as [|c s IH]; intros n.
  - rewrite slice0_empty. simpl. lia.
  - destruct n as [|n]; [rewrite slice0_nil; simpl; lia|].
    rewrite slice0_cons. simpl. destruct (IH n). lia.
Qed.

Lemma slice0_all (n : nat) (s : string) :
  (String.length s <= n)%nat -> TimersRoute.slice0 n s = s.
Proof.
  revert n. induction s as [|c s IH]; intros n Hlen.
  - apply slice0_empty.
  - destruct n as [|n]; [simpl in Hlen; lia|].
    rewrite slice0_cons, IH; [done|]. simpl in Hlen. lia.
Qed.

Lemma allChars_slice0 (p : ascii -> bool) (n : nat) (s : string) :
  allChars p s = true -> allChars p (TimersRoute.slice0 n s) = true.
Proof.
  unfold allChars. revert n. induction s as [|c s IH]; intros n.
  - by rewrite slice0_empty.
  - destruct n as [|n]; [by rewrite slice0_nil|].
    rewrite slice0_cons. simpl.
    intros [Hc Hs]%andb_true_iff. rewrite Hc. simpl. by apply IH.
Qed.

Lemma collapse_go_chars (inRun : bool) (s : string) :
  allChars (fun c => negb (Ascii.is_space c) || Ascii.eqb c " ")
    (collapse_go inRun s) = true.
Proof.
  unfold allChars. revert inRun. induction s as [|c s IH]; intros inRun; [done|].
  simpl. destruct (Ascii.is_space c) eqn:Hc.
  - destruct inRun; [apply IH|]. simpl. apply IH.
  - simpl. rewrite Hc. simpl. apply IH.
Qed.

Lemma removeInjection_chars (p : ascii -> bool) (s : string) :
  allChars p s = true ->
  allChars (fun c => negb (isInjectionChar c) && p c) (removeInjection s) = true.
Proof.
  unfold allChars. induction s as [|c s IH]; [done|]. simpl.
  intros [Hc Hs]%andb_true_iff.
  destruct (isInjectionChar c) eqn:Hi; [by apply IH|].
  simpl. rewrite Hi, Hc. simpl. by apply IH.
Qed.

Lemma collapse_go_length (inRun : bool) (s : string) :
  (String.length (collapse_go inRun s) <= String.length s)%nat.
Proof.
  revert inRun. induction s as [|c s IH]; intros inRun; simpl; [done|].
  pose proof (IH true). pose proof (IH false).
  destruct (Ascii.is_space c); [destruct inRun|]; simpl; lia.
Qed.

Lemma removeInjection_length (s : string) :
  (String.length (removeInjection s) <= String.length s)%nat.
Proof.
  induction s as [|c s IH]; simpl; [done|].
  destruct (isInjectionChar c); simpl; lia.
Qed.

Lemma rev_app_length (s t : string) :
  String.length (String.rev_app s t) = (String.length s + String.length t)%nat.
Proof.
  revert t. induction s as [|c s IH]; intros t; simpl; [done|].
  rewrite IH. simpl. lia.
Qed.

Lemma trim_length (s : string) :
  (String.length (trim s) <= String.length s)%nat.
Proof.
  unfold trim, trimEnd, String.rev. rewrite rev_app_length. simpl.
  pose proof (JsStringProps.trimStart_length
                (String.rev_app (trimStart s) "")) as H1.
  rewrite rev_app_length in H1. simpl in H1.
  pose proof (JsStringProps.trimStart_length s). lia.
Qed.

Lemma tidy_go_last (b : bool) (s : string) :
  tidy_go b s = true -> s <> "" ->
  exists x c, s = x +:+ String c "" /\ Ascii.is_space c = false.
Proof.
  revert b. induction s as [|c s IH]; intros b Htidy Hne; [done|].
  destruct s as [|c' s'].
  - exists "", c. split; [done|]. simpl in Htidy.
    destruct (Ascii.is_space c); [|done].
    by rewrite andb_false_r in Htidy.
  - assert (exists b', tidy_go b' (String c' s') = true) as [b' Hrest].
    { cbn [tidy_go] in Htidy. destruct (Ascii.is_space c).
      - exists true. by apply andb_true_iff in Htidy as [_ ?].
      - exists false. by apply andb_true_iff in Htidy as [_ ?]. }
    destruct (IH b' Hrest) as (x & last & Hx & Hlast); [done|].
    exists (String c x), last. split; [|done].
    by rewrite JsStringProps.append_cons, <- Hx.
Qed.

Lemma tidy_trim (s : string) : tidy s = true -> trim s = s.
Proof.
  intros Htidy. unfold trim.
  assert (trimStart s = s) as ->.
  { destruct s as [|c s]; [done|]. unfold tidy in Htidy. simpl in *.
    by destruct (Ascii.is_space c). }
  destruct s as [|c s]; [done|].
  destruct (tidy_go_last true _ Htidy) as (x & last & -> & Hlast); [done|].
  unfold trimEnd. rewrite JsStringProps.rev_snoc. simpl. rewrite Hlast.
  rewrite <- JsStringProps.rev_snoc. apply JsStringProps.rev_involutive.
Qed.

Lemma tidy_collapse (b inRun : bool) (s : string) :
  (inRun = true -> b = true) -> tidy_go b s = true -> collapse_go inRun s = s.
Proof.
  revert b inRun. induction s as [|c s IH]; intros b inRun Hflag; [done|].
  simpl. destruct (Ascii.is_space c).
  - intros [[Hb Hc%Ascii.eqb_eq]%andb_true_iff Hrest]%andb_true_iff.
    subst c. destruct b; [done|].
    destruct inRun; [by specialize (Hflag eq_refl)|].
    f_equal. by apply (IH true true).
  - intros [_ Hrest]%andb_true_iff. f_equal. by apply (IH false false).
Qed.

Lemma tidy_removeInjection (b : bool) (s : string) :
  tidy_go b s = true -> removeInjection s = s.
Proof.
  revert b. induction s as [|c s IH]; intros b; [done|].
  simpl. destruct (Ascii.is_space c).
  - intros [[_ Hc%Ascii.eqb_eq]%andb_true_iff Hrest]%andb_true_iff.
    subst c. simpl. f_equal. by apply (IH true).
  - intros [Hc%negb_true_iff Hrest]%andb_true_iff. rewrite Hc.
    f_equal. by apply (IH false).
Qed.

(** X26. What [sanitizeString] returns is safe to show: for a
    non-negative [maxLength] the result is no longer than [maxLength]
    and no longer than the text it was given, contains none of the
    characters < > { } [ ], and its only white space is the blank (no tab,
    no line break); anything that is not a string gives the empty
    string; and the test-suite's [sanitizeIntent] is
    [sanitizeString] with a [maxLength] of 200. *)
Theorem sanitized_text_is_safe (str : Storefront.JsValue) (maxLength : Z) :
  0 <= maxLength ->
  (Z.of_nat (String.length (sanitizeString str maxLength)) <= maxLength)
  /\ allChars (fun c => negb (isInjectionChar c)
                        && (negb (Ascii.is_space c) || Ascii.eqb c " "))
       (sanitizeString str maxLength) = true
  /\ (forall s, str = Storefront.VString s ->
        (String.length (sanitizeString str maxLength) <= String.length s)%nat)
  /\ ((forall s, str <> Storefront.VString s) -> sanitizeString str maxLength = "")
  /\ sanitizeIntent str = sanitizeString str 200.
Proof.
  intros Hmax.
  assert (forall s, sliceTo maxLength s = TimersRoute.slice0 (Z.to_nat maxLength) s)
    as Hslice.
  { intros s. unfold sliceTo. destruct (Z.ltb_spec maxLength 0); [lia|done]. }
  split; [|split; [|split; [|split]]].
  - destruct str as [| | |s| | |]; simpl; try lia.
    destruct (String.eqb s ""); [simpl; lia|].
    rewrite Hslice.
    pose proof (slice0_length (Z.to_nat maxLength)
                  (removeInjection (collapseWhitespace (trim s)))) as [H _].
    lia.
  - destruct str as [| | |s| | |]; try done. simpl.
    destruct (String.eqb s ""); [done|].
    rewrite Hslice. apply allChars_slice0, removeInjection_chars.
    apply collapse_go_chars.
  - intros s ->. simpl. destruct (String.eqb s ""); [simpl; lia|].
    rewrite Hslice.
    pose proof (slice0_length (Z.to_nat maxLength)
                  (removeInjection (collapseWhitespace (trim s)))) as [_ H1].
    pose proof (removeInjection_length (collapseWhitespace (trim s))) as H2.
    pose proof (collapse_go_length false (trim s)) as H3.
    pose proof (trim_length s) as H4.
    unfold collapseWhitespace in *. lia.
  - intros Hnot. destruct str as [| | |s| | |]; try done. by destruct (Hnot s).
  - by destruct str as [| | |s| | |].
Qed.

Lemma sanitized_text_is_safe_witness :
  sanitizeString (Storefront.VString "  a   <b>  c  ") 4 = "a b "
  /\ Z.of_nat (String.length
                 (sanitizeString (Storefront.VString "  a   <b>  c  ") 4)) <= 4.
Proof.
  split; [reflexivity|].
  exact (proj1 (sanitized_text_is_safe
                  (Storefront.VString "  a   <b>  c  ") 4 ltac:(lia))).
Defined.

(** X27. Text that needs no cleaning comes back unchanged: a text
    without any of the characters < > { } [ ], whose only white space is
    single blanks between other characters, and which is not longer than
    [maxLength], is returned by [sanitizeString] as it is. *)
Theorem tidy_text_is_unchanged (s : string) (maxLength : Z) :
  tidy s = true ->
  Z.of_nat (String.length s) <= maxLength ->
  sanitizeString (Storefront.VString s) maxLength = s.
Proof.
  intros Htidy Hlen. unfold sanitizeString.
  destruct (String.eqb_spec s "") as [->|_]; [done|].
  rewrite (tidy_trim s Htidy). unfold collapseWhitespace.
  rewrite (tidy_collapse true false s) by done.
  rewrite (tidy_removeInjection true s) by done.
  unfold sliceTo. destruct (Z.ltb_spec maxLength 0); [lia|].
  apply slice0_all. lia.
Qed.

Lemma tidy_text_is_unchanged_witness :
  sanitizeString (Storefront.VString "Summer sale ends (soon)") 100
  = "Summer sale ends (soon)".
Proof.
  apply tidy_text_is_unchanged; [reflexivity|].
  vm_compute. discriminate.
Defined.

End SanitizeProps.

(** ** The creation form and the route behind it *)

Module CreateFormProps.
Import TimersRoute CreateTimerForm.

Lemma trim_head (s : string) :
  JsString.trim s <> "" ->
  exists c r, JsString.trim s = String c r /\ Ascii.is_space c = false.
Proof.
  intros Hne. destruct (JsString.trim s) as [|c r] eqn:Htrim; [done|].
  exists c, r. split; [done|].
  apply (JsStringProps.trimStart_fixed c r). rewrite <- Htrim.
  unfold JsString.trim.
  apply JsStringProps.trimStart_trimEnd, JsStringProps.trimStart_idemp.
Qed.

Lemma trim_cons_nonempty (c : ascii) (r : string) :
  Ascii.is_space c = false -> JsString.trim (String c r) <> "".
Proof.
  intros Hc. unfold JsString.trim. simpl. rewrite Hc.
  unfold JsString.trimEnd. unfold String.rev at 2. simpl.
  rewrite JsStringProps.rev_app_rev, JsStringProps.trimStart_snoc by done.
  by rewrite JsStringProps.rev_snoc.
Qed.

Lemma kept_name_is_not_blank (name : string) :
  JsString.nonEmpty (JsString.trim name) = true ->
  Js.truthy (JsString.trim <$> trimTo 100 (Some name)) = true.
Proof.
  intros Hne%AuthProps.nonEmpty_spec.
  destruct (trim_head name Hne) as (c & r & Htrim & Hc).
  unfold trimTo. assert (Js.truthy (Some name) = true) as ->.
  { apply AuthProps.truthy_spec. exists name. split; [done|]. by intros ->. }
  cbn [default fmap option_fmap option_map from_option id].
  rewrite Htrim. unfold slice0.
  change (String.substring 0 100 (String c r))
    with (String c (String.substring 0 99 r)).
  apply AuthProps.truthy_spec. eexists. split; [done|].
  by apply trim_cons_nonempty.
Qed.

Lemma elem_of_when_error (cond : bool) (f m field message : string) :
  (field, message) ∈ when cond (error f m) ->
  cond = true /\ field = f /\ message = m.
Proof.
  intros [Hc Hin]%ValidationProps.elem_of_when.
  apply list_elem_of_singleton in Hin. by injection Hin as -> ->.
Qed.

Lemma accepted_form (parseDate : string -> Js.number) (formData : FormData) :
  validateForm parseDate formData = [] ->
  JsString.nonEmpty (JsString.trim (name formData)) = true
  /\ (type formData = "fixed" ->
      startDate formData <> "" /\ endDate formData <> ""
      /\ Js.le (parseDate (endDate formData)) (parseDate (startDate formData))
         = false)
  /\ (type formData = "evergreen" ->
      exists d, durationMinutes formData = Some d /\ 1 <= d)
  /\ (scope (targeting formData) = "products" ->
      productIds (targeting formData) <> [])
  /\ (scope (targeting formData) = "collections" ->
      collectionIds (targeting formData) <> []).
Proof.
  unfold validateForm. rewrite !app_nil.
  intros (Hname%ValidationProps.when_nil & Hfixed & Hever
          & Hprod%ValidationProps.when_nil & Hcoll%ValidationProps.when_nil).
  split; [by apply negb_false_iff in Hname|]. split; [|split; [|split]].
  - intros Hty. rewrite Hty, String.eqb_refl in Hfixed. cbn [when] in Hfixed.
    rewrite !app_nil in Hfixed.
    destruct Hfixed as (Hs%ValidationProps.when_nil
                        & He%ValidationProps.when_nil
                        & Hle%ValidationProps.when_nil).
    apply negb_false_iff in Hs, He. rewrite Hs, He in Hle.
    by rewrite <- !AuthProps.nonEmpty_spec.
  - intros Hty. rewrite Hty, String.eqb_refl in Hever. cbn [when] in Hever.
    apply ValidationProps.when_nil in Hever.
    apply orb_false_iff in Hever as [Hz Hlt].
    destruct (durationMinutes formData) as [d|]; [|done].
    exists d. split; [done|]. simpl in Hlt. lia.
  - intros Hsc. rewrite Hsc, String.eqb_refl in Hprod.
    destruct (productIds (targeting formData)); [done|done].
  - intros Hsc. rewrite Hsc, String.eqb_refl in Hcoll.
    destruct (collectionIds (targeting formData)); [done|done].
Qed.

(** What the route can still object to in a body the form has posted. *)
Lemma posted_body_errors (formData : FormData)
    (start finish : TimerModel.DateField) (duration : NumberField)
    (field message : string) :
  JsString.nonEmpty (JsString.trim (name formData)) = true ->
  (type formData = "fixed" ->
   exists s e, start = TimerModel.Instant s /\ finish = TimerModel.Instant e
               /\ s < e) ->
  (type formData = "evergreen" ->
   exists d, duration = Number d /\ 1 <= d) ->
  (scope (targeting formData) = "products" ->
   productIds (targeting formData) <> []) ->
  (scope (targeting formData) = "collections" ->
   collectionIds (targeting formData) <> []) ->
  (field, message) ∈ postValidation (bodyOf formData start finish duration) ->
  (field = "type" /\ type formData ∉ ["fixed"; "evergreen"])
  \/ (field = "durationMinutes" /\ type formData = "evergreen"
      /\ exists d, duration = Number d /\ 10080 < d)
  \/ (field = "appearance.backgroundColor"
      /\ isValidHexColor (backgroundColor (appearance formData)) = false)
  \/ (field = "appearance.textColor"
      /\ isValidHexColor (textColor (appearance formData)) = false)
  \/ (field = "targeting.scope"
      /\ scope (targeting formData) ∉ ["all"; "products"; "collections"]).
Proof.
  intros Hname Hfixed Hever Hprod Hcoll.
  unfold postValidation, validateTimerInput.
  rewrite !elem_of_app.
  cbn [sanitizeInput bodyOf TimersRoute.name TimersRoute.type
       TimersRoute.startDate TimersRoute.endDate TimersRoute.durationMinutes
       TimersRoute.appearance TimersRoute.targeting
       TimerModel.backgroundColor TimerModel.textColor TimerModel.headline
       TimerModel.supportingText TimerModel.scope TimerModel.productIds
       TimerModel.collectionIds fmap option_fmap option_map].
  intros [Hc|[Hn|[Hf|[He|[Ha|Ht]]]]].
  - apply ValidationProps.elem_of_when in Hc as [_ Hc].
    rewrite elem_of_app in Hc. destruct Hc as [Hc|Hc].
    + apply elem_of_when_error in Hc as (Hc & _).
      pose proof (kept_name_is_not_blank _ Hname) as Hkept.
      match type of Hc with
      | negb ?t = true =>
          change t with (Js.truthy (JsString.trim
                                      <$> trimTo 100 (Some (name formData))))
            in Hc
      end.
      by rewrite Hkept in Hc.
    + apply elem_of_when_error in Hc as (Hc & -> & _). left. split; [done|].
      cbn [Js.truthy default from_option id] in Hc.
      intros Hin%TargetingProps.arrayIncludes_elem_of.
      unfold id in Hc. rewrite Hin in Hc.
      apply orb_true_iff in Hc as [Hc|Hc]; [|done].
      apply negb_true_iff, negb_false_iff, String.eqb_eq in Hc.
      rewrite Hc in Hin. by vm_compute in Hin.
  - apply ValidationProps.elem_of_when in Hn as [Hn _].
    by rewrite ValidationProps.trimTo_not_longer in Hn.
  - apply ValidationProps.elem_of_when in Hf as [Hty Hf].
    apply bool_decide_eq_true in Hty. injection Hty as Hty.
    destruct (Hfixed Hty) as (s & e & -> & -> & Hlt).
    rewrite !elem_of_app in Hf. destruct Hf as [Hf|[Hf|Hf]].
    + by apply elem_of_when_error in Hf as (Hf & _).
    + by apply elem_of_when_error in Hf as (Hf & _).
    + apply ValidationProps.elem_of_when in Hf as [_ Hf].
      rewrite !elem_of_app in Hf. destruct Hf as [Hf|[Hf|Hf]].
      * by apply elem_of_when_error in Hf as (Hf & _).
      * by apply elem_of_when_error in Hf as (Hf & _).
      * apply elem_of_when_error in Hf as (Hf & _). simpl in Hf.
        apply Z.leb_le in Hf. lia.
  - apply ValidationProps.elem_of_when in He as [Hty He].
    apply bool_decide_eq_true in Hty. injection Hty as Hty.
    destruct (Hever Hty) as (d & -> & Hd).
    rewrite elem_of_app in He. destruct He as [He|He].
    + apply elem_of_when_error in He as (He & _). simpl in He.
      apply orb_true_iff in He as [He|He]; lia.
    + apply elem_of_when_error in He as (He & -> & _).
      unfold Js.gt in He. simpl in He.
      right. left. split; [done|]. split; [done|]. exists d. split; [done|]. lia.
  - rewrite !elem_of_app in Ha. destruct Ha as [Ha|[Ha|[Ha|Ha]]].
    + apply elem_of_when_error in Ha as (Ha & -> & _).
      right. right. left. split; [done|].
      apply andb_true_iff in Ha as [_ Ha]. by apply negb_true_iff in Ha.
    + apply elem_of_when_error in Ha as (Ha & -> & _).
      right. right. right. left. split; [done|].
      apply andb_true_iff in Ha as [_ Ha]. by apply negb_true_iff in Ha.
    + apply ValidationProps.elem_of_when in Ha as [Ha _].
      by rewrite ValidationProps.trimTo_not_longer in Ha.
    + apply ValidationProps.elem_of_when in Ha as [Ha _].
      by rewrite ValidationProps.trimTo_not_longer in Ha.
  - cbn [TimerModel.scope TimerModel.productIds TimerModel.collectionIds] in Ht.
    rewrite !elem_of_app in Ht. destruct Ht as [Ht|[Ht|Ht]].
    + apply elem_of_when_error in Ht as (Ht & -> & _).
      right. right. right. right. split; [done|].
      apply andb_true_iff in Ht as [_ Ht]. apply negb_true_iff in Ht.
      intros Hin%TargetingProps.arrayIncludes_elem_of. cbn [default from_option id] in Ht.
      unfold id in Ht. congruence.
    + apply elem_of_when_error in Ht as (Ht & _).
      apply andb_true_iff in Ht as [Hsc Hlen].
      apply bool_decide_eq_true in Hsc. injection Hsc as Hsc.
      specialize (Hprod Hsc).
      by destruct (productIds (targeting formData)).
    + apply elem_of_when_error in Ht as (Ht & _).
      apply andb_true_iff in Ht as [Hsc Hlen].
      apply bool_decide_eq_true in Hsc. injection Hsc as Hsc.
      specialize (Hcoll Hsc).
      by destruct (collectionIds (targeting formData)).
Qed.

(** X28. What the creation form has checked, the route does not object
    to.  When the form passes [validateForm] and posts its body, the
    validation of POST / can only report an unknown timer type, a
    duration of an evergreen timer above 10080 minutes, a malformed
    background or text colour, or an unknown targeting scope: never the
    name, the dates, a missing or too small duration, the texts or the
    selected products and collections.  And a form for a fixed timer that
    passes [validateForm] with a date that does not parse posts nothing:
    the conversion of that date throws. *)
Theorem form_checks_cover_the_route (parseDate : string -> Js.number)
    (formData : FormData) :
  (forall body field message,
     handleSubmit parseDate formData = Posted body ->
     (field, message) ∈ postValidation body ->
     (field = "type" /\ type formData ∉ ["fixed"; "evergreen"])
     \/ (field = "durationMinutes" /\ type formData = "evergreen"
         /\ exists d, durationMinutes formData = Some d /\ 10080 < d)
     \/ (field = "appearance.backgroundColor"
         /\ isValidHexColor (backgroundColor (appearance formData)) = false)
     \/ (field = "appearance.textColor"
         /\ isValidHexColor (textColor (appearance formData)) = false)
     \/ (field = "targeting.scope"
         /\ scope (targeting formData) ∉ ["all"; "products"; "collections"]))
  /\ (handleSubmit parseDate formData = Throws
      <-> validateForm parseDate formData = [] /\ type formData = "fixed"
          /\ (parseDate (startDate formData) = None
              \/ parseDate (endDate formData) = None)).
Proof.
  unfold handleSubmit.
  destruct (validateForm parseDate formData) as [|e errors] eqn:Hform;
    [|split; [done|split; [done|by intros [? _]]]].
  destruct (accepted_form _ _ Hform) as (Hname & Hfixed & Hever & Hprod & Hcoll).
  destruct (String.eqb_spec (type formData) "fixed") as [Hty|Hty].
  - destruct (Hfixed Hty) as (_ & _ & Hle).
    destruct (parseDate (startDate formData)) as [s|] eqn:Hs;
      destruct (parseDate (endDate formData)) as [f|] eqn:Hf.
    + split; [|split; [done|by intros (_ & _ & [?|?])]].
      intros body field message [= <-] Hin.
      apply (posted_body_errors formData _ _ Absent field message) in Hin;
        try done.
      * destruct Hin as [H|[(_ & Hev & _)|H]]; [by left|congruence|].
        by right; right.
      * intros _. exists s, f. split; [done|]. split; [done|].
        simpl in Hle. by apply Z.leb_gt in Hle.
      * intros Hev. congruence.
    + split; [done|]. split; [intros _|done]. split; [done|]. split; [done|by right].
    + split; [done|]. split; [intros _|done]. split; [done|]. split; [done|by left].
    + split; [done|]. split; [intros _|done]. split; [done|]. split; [done|by left].
  - split; [|split; [done|by intros (_ & ? & _)]].
    intros body field message [= <-] Hin.
    apply (posted_body_errors formData _ _
             (jsonNumber (durationMinutes formData)) field message) in Hin;
      try done.
    + destruct Hin as [H|[(Hf & Hev & d & Hd & Hbig)|H]];
        [by left| |by right; right].
      right. left. split; [done|]. split; [done|]. exists d. split; [|done].
      by destruct (durationMinutes formData) as [d'|]; [injection Hd as ->|].
    + intros Hev. destruct (Hever Hev) as (d & -> & Hd). by exists d.
Qed.

Lemma form_checks_cover_the_route_witness :
  exists body,
    handleSubmit digitsDate twoWeeksForm = Posted body
    /\ ("durationMinutes", "Duration cannot exceed 7 days")
         ∈ postValidation body
    /\ exists d, durationMinutes twoWeeksForm = Some d /\ 10080 < d.
Proof.
  destruct (handleSubmit digitsDate twoWeeksForm) as [errors| |body] eqn:Hrun;
    [discriminate|discriminate|].
  assert (("durationMinutes", "Duration cannot exceed 7 days")
            ∈ postValidation body) as Hin.
  { vm_compute in Hrun. injection Hrun as <-. vm_compute. left. }
  exists body. split; [done|]. split; [done|].
  destruct (proj1 (form_checks_cover_the_route digitsDate twoWeeksForm)
              body _ _ Hrun Hin)
    as [[H _]|[(_ & _ & Hd)|[[H _]|[[H _]|[H _]]]]]; try discriminate H.
  exact Hd.
Defined.

End CreateFormProps.

(** ** Lists of ids *)

Module IdListProps.
Import JsString Sanitize AdminPage.


Lemma allChars_cons (p : ascii -> bool) (c : ascii) (s : string) :
  allChars p (String c s) = p c && allChars p s.
Proof. done. Qed.

Lemma allChars_rev_app (p : ascii -> bool) (s t : string) :
  allChars p (String.rev_app s t) = allChars p s && allChars p t.
Proof.
  revert t. induction s as [|c s IH]; intros t; [done|].
  cbn [String.rev_app]. rewrite IH, !allChars_cons.
  by destruct (p c), (allChars p s), (allChars p t).
Qed.

Lemma allChars_trimStart (p : ascii -> bool) (s : string) :
  allChars p s = true -> allChars p (trimStart s) = true.
Proof.
  induction s as [|c s IH]; [done|]. cbn [trimStart].
  destruct (Ascii.is_space c); [|done].
  rewrite allChars_cons. intros [_ ?]%andb_true_iff. by apply IH.
Qed.

Lemma allChars_trim (p : ascii -> bool) (s : string) :
  allChars p s = true -> allChars p (trim s) = true.
Proof.
  intros Hs. unfold trim, trimEnd, String.rev.
  rewrite allChars_rev_app, andb_true_r.
  apply allChars_trimStart. rewrite allChars_rev_app, andb_true_r.
  by apply allChars_trimStart.
Qed.

Lemma rev_cons (a : ascii) (cur : string) :
  String.rev (String a cur) = String.rev cur +:+ String a "".
Proof. unfold String.rev at 1. simpl. apply JsStringProps.rev_app_rev. Qed.

Lemma split_go_no_sep (sep : ascii) (cur x : string) :
  allChars (fun c => negb (Ascii.eqb c sep)) x = true ->
  split_go sep cur x = [String.rev cur +:+ x].
Proof.
  revert cur. induction x as [|a x IH]; intros cur.
  - intros _. simpl. by rewrite JsStringProps.append_nil_r.
  - rewrite allChars_cons. intros [Ha Hx]%andb_true_iff.
    cbn [split_go]. apply negb_true_iff in Ha. rewrite Ha.
    rewrite IH by done. rewrite rev_cons, JsStringProps.append_assoc. done.
Qed.

Lemma split_go_sep (sep : ascii) (cur x rest : string) :
  allChars (fun c => negb (Ascii.eqb c sep)) x = true ->
  split_go sep cur (x +:+ String sep rest)
  = (String.rev cur +:+ x) :: split_go sep "" rest.
Proof.
  revert cur. induction x as [|a x IH]; intros cur.
  - intros _. change ("" +:+ String sep rest) with (String sep rest).
    cbn [split_go]. by rewrite Ascii.eqb_refl, JsStringProps.append_nil_r.
  - rewrite allChars_cons. intros [Ha Hx]%andb_true_iff.
    rewrite JsStringProps.append_cons. cbn [split_go].
    apply negb_true_iff in Ha. rewrite Ha.
    rewrite IH by done. rewrite rev_cons, JsStringProps.append_assoc. done.
Qed.

Lemma split_join (sep : ascii) (ids : list string) :
  Forall (fun id => allChars (fun c => negb (Ascii.eqb c sep)) id = true) ids ->
  ids <> [] ->
  split sep (join sep ids) = ids.
Proof.
  unfold split, join. induction 1 as [|id ids Hid Hids IH]; [done|]. intros _.
  destruct ids as [|id2 ids].
  - cbn [String.concat]. by rewrite split_go_no_sep.
  - change (String.concat (String sep "") (id :: id2 :: ids))
      with (id +:+ String sep (String.concat (String sep "") (id2 :: ids))).
    rewrite split_go_sep by done. f_equal. by apply IH.
Qed.

Lemma split_go_pieces (sep : ascii) (cur s piece : string) :
  allChars (fun c => negb (Ascii.eqb c sep)) cur = true ->
  piece ∈ split_go sep cur s ->
  allChars (fun c => negb (Ascii.eqb c sep)) piece = true.
Proof.
  revert cur. induction s as [|a s IH]; intros cur Hcur; cbn [split_go].
  - intros ->%list_elem_of_singleton. unfold String.rev.
    by rewrite allChars_rev_app, Hcur.
  - destruct (Ascii.eqb a sep) eqn:Ha.
    + intros [->|Hin]%elem_of_cons.
      * unfold String.rev. by rewrite allChars_rev_app, Hcur.
      * by apply (IH "").
    + apply IH. rewrite allChars_cons, Ha. done.
Qed.

Lemma allChars_weaken (p q : ascii -> bool) (s : string) :
  (forall c, p c = true -> q c = true) ->
  allChars p s = true -> allChars q s = true.
Proof.
  intros Hpq. induction s as [|c s IH]; [done|].
  rewrite !allChars_cons. intros [Hc Hs]%andb_true_iff.
  by rewrite (Hpq c Hc), IH.
Qed.

Lemma kept_listable (keep : string -> bool) (ids : list string) :
  (forall id, id <> "" -> keep id = true) ->
  Forall listable ids -> List.filter keep (map trim ids) = ids.
Proof.
  intros Hkeep. induction 1 as [|id ids (Hne & Htrim & _) _ IH]; [done|].
  simpl. rewrite Htrim, (Hkeep id Hne). by rewrite IH.
Qed.

Lemma join_nonempty (sep : ascii) (id : string) (ids : list string) :
  id <> "" -> join sep (id :: ids) <> "".
Proof.
  unfold join. destruct id as [|c r]; [done|]. intros _.
  by destruct ids.
Qed.

Lemma positive_length (id : string) :
  id <> "" -> (0 <? String.length id)%nat = true.
Proof. by destruct id. Qed.

(** X29. Lists of ids survive the trip to the server.  For ids that are
    not empty, carry no white space around them and contain neither a
    comma nor a line break, the storefront route's parsing of
    [collectionIds] gives back a comma-joined list unchanged, and the
    admin page's [parseIds] a line-by-line list; and whatever text they
    are given, both only ever produce ids that are not empty, have no
    white space around them and do not contain the separator. *)
Theorem id_lists_round_trip (ids : list string) :
  Forall listable ids ->
  Storefront.collectionIdArray (Some (join "," ids)) = ids
  /\ parseIds (join "010" ids) = ids
  /\ (forall text id,
        id ∈ Storefront.collectionIdArray text ->
        id <> "" /\ trim id = id
        /\ allChars (fun c => negb (Ascii.eqb c ",")) id = true)
  /\ (forall text id,
        id ∈ parseIds text ->
        id <> "" /\ trim id = id
        /\ allChars (fun c => negb (Ascii.eqb c "010")) id = true).
Proof.
  intros Hids.
  assert (Forall (fun id => allChars (fun c => negb (Ascii.eqb c ",")) id = true)
            ids) as Hcomma.
  { eapply Forall_impl; [exact Hids|]. intros id (_ & _ & Hall).
    eapply allChars_weaken; [|exact Hall].
    by intros c [? _]%andb_true_iff. }
  assert (Forall (fun id => allChars (fun c => negb (Ascii.eqb c "010")) id = true)
            ids) as Hline.
  { eapply Forall_impl; [exact Hids|]. intros id (_ & _ & Hall).
    eapply allChars_weaken; [|exact Hall].
    by intros c [_ ?]%andb_true_iff. }
  split; [|split; [|split]].
  - unfold Storefront.collectionIdArray.
    destruct ids as [|i0 ids]; [done|].
    assert (Js.truthy (Some (join "," (i0 :: ids))) = true) as ->.
    { apply AuthProps.truthy_spec. eexists. split; [done|].
      apply join_nonempty. by apply Forall_cons in Hids as [(? & _) _]. }
    cbn [default from_option]. unfold id.
    rewrite split_join by done.
    apply kept_listable; [|done]. intros x. apply AuthProps.nonEmpty_spec.
  - unfold parseIds. destruct ids as [|i0 ids]; [done|].
    rewrite split_join by done.
    apply kept_listable; [|done]. apply positive_length.
  - intros text id. unfold Storefront.collectionIdArray.
    destruct (Js.truthy text); [|by intros ?%elem_of_nil].
    intros [Hin Hne]%list_elem_of_In%filter_In.
    apply list_elem_of_In, list_elem_of_fmap in Hin as (piece & -> & Hpiece).
    split; [by apply AuthProps.nonEmpty_spec|].
    split; [apply JsStringProps.trim_idemp|].
    apply allChars_trim. by apply (split_go_pieces "," "" (default "" text)).
  - intros text id. unfold parseIds.
    intros [Hin Hne]%list_elem_of_In%filter_In.
    apply list_elem_of_In, list_elem_of_fmap in Hin as (piece & -> & Hpiece).
    split; [by intros Heq; rewrite Heq in Hne|].
    split; [apply JsStringProps.trim_idemp|].
    apply allChars_trim. by apply (split_go_pieces "010" "" text).
Qed.

Lemma id_lists_round_trip_witness :
  Storefront.collectionIdArray (Some "101,202,303") = ["101"; "202"; "303"]
  /\ parseIds (join "010" ["101"; "202"; "303"]) = ["101"; "202"; "303"].
Proof.
  assert (Forall listable ["101"; "202"; "303"]) as Hids.
  { repeat (apply List.Forall_cons;
              [split; [discriminate|split; reflexivity]|]).
    apply List.Forall_nil. }
  destruct (id_lists_round_trip ["101"; "202"; "303"] Hids) as (H1 & H2 & _).
  split; [exact H1|exact H2].
Defined.

End IdListProps.
